(** * Surgical department report: the transformation and report pipeline

    A shallow embedding of [app.py]: header normalisation, the role
    classifier, the safe aggregations, the sidebar, the department slice
    with its cards, the projected tables, the category sort and the PDF
    composer with its generation boundary.

    Modelling conventions.
    - Text is a [string] of bytes, and headers are taken to be ASCII.  The
      whitespace class is the one Python's [\s] and [str.strip] share on
      the ASCII range; a character beyond ASCII (a no-break space, say)
      counts as a letter here, and the engines behind pandas do not agree
      on the control characters [0x0b] and [0x1c..0x1f].  [str.lower] acts
      on ['A'..'Z'].
    - A pandas cell is a string, an integer, a float or NaN.  A float
      cell holds a rational number and stands for the double nearest to
      it.  The division and the rounding behind the average columns are
      carried out in binary64, rounding to nearest, ties to even
      ([Float64.round]); overflow to infinity, which sets in above 1.7e308,
      is not modelled.  The sums and percentages of the cards are kept
      exact.
    - A DataFrame is held column-wise, with its row labels ([index]).
      Column labels are looked up by first match: [read_csv] delivers
      pairwise distinct headers, and a table in which cleaning merges two
      of them is outside the model.
    - Python exceptions are values of [exc]; code that can raise returns a
      [result].
    - What the libraries do behind the script's calls enters as a
      parameter where the script's behaviour does not depend on it: the
      sorting routine ([argsort]), the text of a float ([float_repr]) and
      the PDF renderer ([build]).  The department the user picked in the
      sidebar is an argument. *)

From Stdlib Require Import List String Ascii Bool Arith ZArith QArith Lia.
From Stdlib Require Import Permutation Sorted DecimalString.
From Stdlib Require Import Qround Qabs Qpower Lqa.
Import ListNotations.

Local Close Scope Q_scope.
Local Open Scope string_scope.
Local Open Scope list_scope.
Local Open Scope nat_scope.

(* ------------------------------------------------------------------ *)
(** ** Text *)

Module Text.

(** Python's whitespace on the ASCII range: [\t \n \v \f \r], the four
    separators [0x1c..0x1f], and the space. *)
Definition is_space (c : ascii) : bool :=
  let n := nat_of_ascii c in
  ((9 <=? n) && (n <=? 13)) || ((28 <=? n) && (n <=? 32)).

(** [re.sub(r"\s+", " ", s)]: every maximal run of whitespace becomes one
    space.  [in_run] tells that the previous character was whitespace. *)
Fixpoint replace_runs (in_run : bool) (s : string) : string :=
  match s with
  | EmptyString => EmptyString
  | String c r =>
      if is_space c
      then if in_run then replace_runs true r
           else String " " (replace_runs true r)
      else String c (replace_runs false r)
  end.

Fixpoint lstrip (s : string) : string :=
  match s with
  | EmptyString => EmptyString
  | String c r => if is_space c then lstrip r else s
  end.

Fixpoint rstrip (s : string) : string :=
  match s with
  | EmptyString => EmptyString
  | String c r =>
      match rstrip r with
      | EmptyString => if is_space c then EmptyString else String c EmptyString
      | r' => String c r'
      end
  end.

(** [s.strip()] *)
Definition strip (s : string) : string := rstrip (lstrip s).

(** One header of [clean_columns]:
    [str.replace(r"\s+", " ", regex=True).str.strip()]. *)
Definition clean_header (h : string) : string := strip (replace_runs false h).

(** [s.split()]: the maximal runs of non-whitespace, in order.  [w] is the
    word being read. *)
Fixpoint words_from (w : string) (s : string) : list string :=
  match s with
  | EmptyString => match w with EmptyString => [] | _ => [w] end
  | String c r =>
      if is_space c
      then match w with
           | EmptyString => words_from EmptyString r
           | _ => w :: words_from EmptyString r
           end
      else words_from (String.append w (String c EmptyString)) r
  end.

Definition words (s : string) : list string := words_from EmptyString s.

(** Shape of a normalised header: whitespace occurs only as single spaces
    ([prev] tells that the previous character was whitespace). *)
Fixpoint single_spaced (prev : bool) (s : string) : Prop :=
  match s with
  | EmptyString => True
  | String c r =>
      if is_space c
      then c = " "%char /\ prev = false /\ single_spaced true r
      else single_spaced false r
  end.

Definition no_leading_space (s : string) : Prop :=
  match s with
  | EmptyString => True
  | String c _ => is_space c = false
  end.

Definition no_trailing_space (s : string) : Prop := rstrip s = s.

(** [str.lower] on the ASCII letters. *)
Definition lower_char (c : ascii) : ascii :=
  let n := nat_of_ascii c in
  if (65 <=? n) && (n <=? 90) then ascii_of_nat (n + 32) else c.

Fixpoint lower (s : string) : string :=
  match s with
  | EmptyString => EmptyString
  | String c r => String (lower_char c) (lower r)
  end.

(** [pat in s] *)
Fixpoint contains (pat s : string) : bool :=
  prefix pat s ||
  match s with
  | EmptyString => false
  | String _ r => contains pat r
  end.

End Text.

(* ------------------------------------------------------------------ *)
(** ** Cells, exceptions *)

(** One cell of a pandas column.  [CNaN] is the missing value. *)
Inductive cell :=
| CStr (s : string)
| CInt (z : Z)
| CFloat (q : Q)
| CNaN.

Definition cell_num (c : cell) : option Q :=
  match c with
  | CInt z => Some (inject_Z z)
  | CFloat q => Some q
  | _ => None
  end.

(** Elementwise [==]: NaN equals nothing, numbers compare by value. *)
Definition cell_eqb (a b : cell) : bool :=
  match a, b with
  | CStr s, CStr t => String.eqb s t
  | CNaN, _ | _, CNaN => false
  | _, _ =>
      match cell_num a, cell_num b with
      | Some x, Some y => Qeq_bool x y
      | _, _ => false
      end
  end.

Definition str_nat (n : nat) : string := NilZero.string_of_uint (Nat.to_uint n).
Definition str_int (z : Z) : string := NilZero.string_of_int (Z.to_int z).

(** The Python exceptions the pipeline can meet (all subclasses of
    [Exception]). *)
Inductive exc :=
| KeyError (keys : list string)
| ValueError (msg : string)
| TypeError (msg : string)
| RenderError (msg : string).

(** [str(e)], up to the quotes Python puts around the labels of a
    KeyError. *)
Definition exc_message (e : exc) : string :=
  match e with
  | KeyError keys => String.concat ", " keys
  | ValueError m | TypeError m | RenderError m => m
  end.

Inductive result (A : Type) :=
| Ok (a : A)
| Raise (e : exc).
Arguments Ok {A} a.
Arguments Raise {A} e.

Definition bind {A B} (r : result A) (k : A -> result B) : result B :=
  match r with
  | Ok a => k a
  | Raise e => Raise e
  end.

Notation "x <- r ;; k" := (bind r (fun x => k))
  (at level 61, r at next level, right associativity).

Fixpoint mapM {A B} (f : A -> result B) (l : list A) : result (list B) :=
  match l with
  | [] => Ok []
  | a :: r => b <- f a ;; bs <- mapM f r ;; Ok (b :: bs)
  end.

(* ------------------------------------------------------------------ *)
(** ** DataFrames *)

Record DataFrame := mkDF {
  index : list nat;                       (* row labels *)
  cols : list (string * list cell)        (* label and values, per column *)
}.

Definition columns (df : DataFrame) : list string := map fst (cols df).

(** [len(df)] *)
Definition len (df : DataFrame) : nat := List.length (index df).

(** Every column is as long as the index. *)
Definition wf (df : DataFrame) : Prop :=
  Forall (fun kv => List.length (snd kv) = len df) (cols df).

Fixpoint lookup (c : string) (l : list (string * list cell)) : option (list cell) :=
  match l with
  | [] => None
  | (k, v) :: r => if String.eqb k c then Some v else lookup c r
  end.

(** [Some] exactly when [c in df.columns]; then the values of [df[c]]. *)
Definition find_column (c : string) (df : DataFrame) : option (list cell) :=
  lookup c (cols df).

Definition has_column (c : string) (df : DataFrame) : bool :=
  match find_column c df with Some _ => true | None => false end.

(** [df[c]] *)
Definition get_column (c : string) (df : DataFrame) : result (list cell) :=
  match find_column c df with
  | Some v => Ok v
  | None => Raise (KeyError [c])
  end.

Fixpoint assign (c : string) (v : list cell) (l : list (string * list cell)) :=
  match l with
  | [] => [(c, v)]
  | (k, x) :: r => if String.eqb k c then (k, v) :: r else (k, x) :: assign c v r
  end.

(** [df[c] = v]: overwrite the column, or append it. *)
Definition set_column (c : string) (v : list cell) (df : DataFrame) : DataFrame :=
  mkDF (index df) (assign c v (cols df)).

(** [df[[c1, ..., cn]].copy()]: a KeyError names every missing label. *)
Definition select_columns (cs : list string) (df : DataFrame) : result DataFrame :=
  match filter (fun c => negb (has_column c df)) cs with
  | [] => vs <- mapM (fun c => v <- get_column c df ;; Ok (c, v)) cs ;;
          Ok (mkDF (index df) vs)
  | missing => Raise (KeyError missing)
  end.

(** [df.columns = names] *)
Definition rename_columns (names : list string) (df : DataFrame) : result DataFrame :=
  if List.length names =? List.length (cols df)
  then Ok (mkDF (index df) (combine names (map snd (cols df))))
  else Raise (ValueError "Length mismatch").

Fixpoint mask_filter {A} (mask : list bool) (l : list A) : list A :=
  match mask, l with
  | b :: m, x :: r => if b then x :: mask_filter m r else mask_filter m r
  | _, _ => []
  end.

(** [df[mask]] for a boolean column [mask]. *)
Definition filter_rows (mask : list bool) (df : DataFrame) : DataFrame :=
  mkDF (mask_filter mask (index df))
       (map (fun kv => (fst kv, mask_filter mask (snd kv))) (cols df)).

Definition take_list {A} (d : A) (indexer : list nat) (l : list A) : list A :=
  map (fun i => nth i l d) indexer.

(** [df.take(indexer)]: the rows at the given positions, in that order. *)
Definition take (indexer : list nat) (df : DataFrame) : DataFrame :=
  mkDF (take_list 0 indexer (index df))
       (map (fun kv => (fst kv, take_list CNaN indexer (snd kv))) (cols df)).

(** [df.empty] *)
Definition empty (df : DataFrame) : bool :=
  (len df =? 0) || (List.length (cols df) =? 0).

(** [(col == s).sum()], and [value_counts().get(s, 0)]. *)
Definition count_eq (s : string) (v : list cell) : nat :=
  List.length (filter (fun c => cell_eqb c (CStr s)) v).

Definition row_at (df : DataFrame) (i : nat) : list cell :=
  map (fun kv => nth i (snd kv) CNaN) (cols df).

(** [df.values.tolist()] *)
Definition values (df : DataFrame) : list (list cell) :=
  map (row_at df) (seq 0 (len df)).

(** [df.columns.str.replace(r"\s+", " ", regex=True).str.strip()] *)
Definition clean_columns (df : DataFrame) : DataFrame :=
  mkDF (index df) (map (fun kv => (Text.clean_header (fst kv), snd kv)) (cols df)).

(* ------------------------------------------------------------------ *)
(** ** Aggregation *)

Definition is_int (c : cell) : bool := match c with CInt _ => true | _ => false end.
Definition is_str (c : cell) : bool := match c with CStr _ => true | _ => false end.

Definition Qsum (v : list cell) : Q :=
  fold_right (fun c acc => match cell_num c with Some q => (q + acc)%Q | None => acc end)
             0%Q v.

Definition Zsum (v : list cell) : Z :=
  fold_right (fun c acc => match c with CInt z => (z + acc)%Z | _ => acc end) 0%Z v.

(** A missing value. *)
Definition is_missing (c : cell) : bool :=
  match c with CNaN => true | _ => false end.

(** Wrap-around of a signed 64-bit integer. *)
Definition int64 (z : Z) : Z := ((z + 2 ^ 63) mod 2 ^ 64 - 2 ^ 63)%Z.

(** [Series.sum()].  A column of integers is an [int64] column: its sum
    is an integer, with wrap-around.  A column of numbers and missing
    values is a float column: it sums to a float, NaN skipped.  A column
    of text and missing values is a column of pandas' [str] dtype: its sum
    joins the texts, missing values skipped.  Text next to a number, which
    only an object column built by hand holds, raises.  (An empty column
    has no cell left to tell its dtype by; its sum is taken as the integer
    0, which the cards print like 0.0.) *)
Definition series_sum (v : list cell) : result cell :=
  if forallb is_int v then Ok (CInt (int64 (Zsum v)))
  else if forallb (fun c => negb (is_str c)) v then Ok (CFloat (Qred (Qsum v)))
  else if forallb (fun c => is_str c || is_missing c) v
       then Ok (CStr (String.concat "" (map (fun c => match c with CStr s => s | _ => "" end) v)))
       else Raise (TypeError "unsupported operand type(s) for +").

(** [safe_sum(df, col)] *)
Definition safe_sum (df : DataFrame) (col : string) : result cell :=
  match find_column col df with
  | Some v => series_sum v
  | None => Ok (CInt 0)
  end.

(** The [:,.0f] format of a metric card accepts numbers only; the number
    is kept as the card's value. *)
Definition format_f (x : cell) : result cell :=
  match x with
  | CStr _ => Raise (ValueError "Unknown format code 'f' for object of type 'str'")
  | _ => Ok x
  end.

(** [(part/total*100) if total else 0] *)
Definition percent (part total : nat) : Q :=
  if total =? 0 then 0%Q
  else Qred (inject_Z (Z.of_nat part) / inject_Z (Z.of_nat total) * 100)%Q.

(** [(total_net/total_income*100 if total_income else 0)] on two sums. *)
Definition net_percent (total_net total_income : cell) : cell :=
  match cell_num total_net, cell_num total_income with
  | Some n, Some i => if Qeq_bool i 0 then CInt 0 else CFloat (Qred (n / i * 100)%Q)
  | _, _ => CNaN
  end.

(** Nearest integer, ties to even: [numpy.rint] on a double. *)
Definition rint (q : Q) : Z :=
  let f := Qfloor q in
  match Qcompare (q - inject_Z f)%Q (1 # 2)%Q with
  | Lt => f
  | Gt => (f + 1)%Z
  | Eq => if Z.even f then f else (f + 1)%Z
  end.

(** Binary64 arithmetic: every operation returns the double nearest to
    the exact result. *)
Module Float64.

(** [floor(log2 |q|)], for [q] other than 0. *)
Definition ilog2 (q : Q) : Z :=
  let k := (Z.log2 (Z.abs (Qnum q)) - Z.log2 (Zpos (Qden q)))%Z in
  if Qle_bool (2 ^ k) (Qabs q) then k else (k - 1)%Z.

(** The exponent of the last of the 53 bits of the mantissa; the
    subnormal numbers share the exponent -1074. *)
Definition ulp_exp (q : Q) : Z := Z.max (ilog2 q - 52) (-1074).

(** The double nearest to [q], ties to the even mantissa. *)
Definition round (q : Q) : Q :=
  let q := Qred q in
  if Qeq_bool q 0 then 0%Q
  else let e := ulp_exp q in
       Qred (inject_Z (rint (q / 2 ^ e)) * 2 ^ e)%Q.

End Float64.

(** [x / d] on one cell of a column: the cell as a double ([int64] is
    converted), then the quotient as a double. *)
Definition cell_div (c : cell) (d : Z) : result cell :=
  match c with
  | CInt z => Ok (CFloat (Float64.round (Float64.round (inject_Z z) / inject_Z d)%Q))
  | CFloat q => Ok (CFloat (Float64.round (Float64.round q / inject_Z d)%Q))
  | CNaN => Ok CNaN
  | CStr _ => Raise (TypeError "unsupported operand type(s) for /: 'str' and 'int'")
  end.

(** [round(x, n)] as numpy computes it, three operations on doubles:
    [rint(x * 10^n) / 10^n]. *)
Definition round_to (q : Q) (n : nat) : Q :=
  Float64.round
    (inject_Z (rint (Float64.round (Float64.round q * inject_Z (10 ^ Z.of_nat n))%Q))
     / inject_Z (10 ^ Z.of_nat n))%Q.

Definition cell_round (n : nat) (c : cell) : cell :=
  match c with
  | CFloat q => CFloat (round_to q n)
  | _ => c
  end.

(** [(col / d).round(n)] *)
Definition div_round (d : Z) (n : nat) (v : list cell) : result (list cell) :=
  q <- mapM (fun c => cell_div c d) v ;; Ok (map (cell_round n) q).

(* ------------------------------------------------------------------ *)
(** ** The sorting routine behind [sort_values]

    The script calls [DataFrame.sort_values(by="Degree Group")] with the
    default [kind="quicksort"]; of the kinds pandas offers it documents only
    "mergesort" and "stable" as stable.  For a single key pandas takes the
    key column's values (for a Categorical, its integer codes) and calls
    numpy's [argsort(kind="quicksort")], an introsort over an array of row
    positions.  The routine is modelled as numpy writes it ([aquicksort_]
    and [aheapsort_] of its [npysort]): median-of-three partitions while a
    partition has more than 16 elements, insertion sort below, heapsort
    when the depth limit is used up.  Pointers are positions in the array;
    loops carry fuel, and the array length bounds every scan. *)

Module Numpy.

Definition SMALL_QUICKSORT : nat := 15.

Section Argsort.

(** The keys [v]; the array [a] being sorted holds positions into [v]. *)
Variable v : list nat.

Definition key_of (i : nat) : nat := nth i v 0.

(** [v[*p]] *)
Definition key (a : list nat) (p : nat) : nat := key_of (nth p a 0).

(** [*p = x] *)
Fixpoint put (p x : nat) (a : list nat) : list nat :=
  match a, p with
  | [], _ => []
  | _ :: r, 0 => x :: r
  | y :: r, S p' => y :: put p' x r
  end.

(** [INTP_SWAP] of the cells [p] and [q] *)
Definition swap (a : list nat) (p q : nat) : list nat :=
  put q (nth p a 0) (put p (nth q a 0) a).

Definition median3 (a : list nat) (pl pm pr : nat) : list nat :=
  let a := if key a pm <? key a pl then swap a pm pl else a in
  let a := if key a pr <? key a pm then swap a pr pm else a in
  let a := if key a pm <? key a pl then swap a pm pl else a in
  a.

(** [do { ++pi; } while (less(v[*pi], vp))], entered with [pi] already
    advanced once. *)
Fixpoint scan_up (fuel : nat) (a : list nat) (vp pi : nat) : nat :=
  match fuel with
  | 0 => pi
  | S f => if key a pi <? vp then scan_up f a vp (S pi) else pi
  end.

(** [do { --pj; } while (less(vp, v[*pj]))], entered with [pj] already
    moved once. *)
Fixpoint scan_down (fuel : nat) (a : list nat) (vp pj : nat) : nat :=
  match fuel with
  | 0 => pj
  | S f => if vp <? key a pj then scan_down f a vp (pj - 1) else pj
  end.

(** The [for (;;)] loop of the partition; returns the array and [pi]. *)
Fixpoint partition_loop (fuel : nat) (a : list nat) (vp pi pj : nat) : list nat * nat :=
  match fuel with
  | 0 => (a, pi)
  | S f =>
      let pi := scan_up (List.length a) a vp (S pi) in
      let pj := scan_down (List.length a) a vp (pj - 1) in
      if pj <=? pi then (a, pi)
      else partition_loop f (swap a pi pj) vp pi pj
  end.

(** [while (pj > pl && less(vp, v[*pk])) { *pj-- = *pk--; }] with
    [pk = pj - 1]. *)
Fixpoint shift (fuel : nat) (a : list nat) (vp pl pj : nat) : list nat * nat :=
  match fuel with
  | 0 => (a, pj)
  | S f =>
      if (pl <? pj) && (vp <? key a (pj - 1))
      then shift f (put pj (nth (pj - 1) a 0) a) vp pl (pj - 1)
      else (a, pj)
  end.

(** [for (pi = pl + 1; pi <= pr; ++pi)]: insertion sort of [pl..pr]. *)
Fixpoint insertion (fuel : nat) (a : list nat) (pl pi pr : nat) : list nat :=
  match fuel with
  | 0 => a
  | S f =>
      if pi <=? pr
      then let vi := nth pi a 0 in
           let '(a', pj) := shift (List.length a) a (key_of vi) pl pi in
           insertion f (put pj vi a') pl (S pi) pr
      else a
  end.

(** The sift-down of [aheapsort_], on the 1-based view [a[k]] of the
    partition that starts at [pl]: [a[k]] is the cell [pl + k - 1]. *)
Fixpoint sift (fuel : nat) (a : list nat) (pl n tmp i j : nat) : list nat :=
  match fuel with
  | 0 => put (pl + i - 1) tmp a
  | S f =>
      if j <=? n
      then let j := if (j <? n) && (key a (pl + j - 1) <? key a (pl + j))
                    then j + 1 else j in
           if key_of tmp <? key a (pl + j - 1)
           then sift f (put (pl + i - 1) (nth (pl + j - 1) a 0) a) pl n tmp j (j + j)
           else put (pl + i - 1) tmp a
      else put (pl + i - 1) tmp a
  end.

(** [for (l = n >> 1; l > 0; --l)] *)
Fixpoint heapify (l : nat) (a : list nat) (pl n : nat) : list nat :=
  match l with
  | 0 => a
  | S l' =>
      let a := sift n a pl n (nth (pl + l - 1) a 0) l (l + l) in
      heapify l' a pl n
  end.

(** [for (; n > 1;)] *)
Fixpoint extract (n : nat) (a : list nat) (pl : nat) : list nat :=
  match n with
  | 0 | 1 => a
  | S n' =>
      let tmp := nth (pl + n - 1) a 0 in
      let a := put (pl + n - 1) (nth pl a 0) a in
      extract n' (sift n' a pl n' tmp 1 2) pl
  end.

Definition aheapsort (a : list nat) (pl n : nat) : list nat :=
  extract n (heapify (n / 2) a pl n) pl.

(** The inner [while ((pr - pl) > SMALL_QUICKSORT)]: partition, push the
    larger side, go on with the smaller one. *)
Fixpoint quick_phase (fuel : nat) (a : list nat) (pl pr : nat)
    (stack : list (nat * nat)) (cdepth : Z) (depth : list Z)
  : list nat * nat * nat * list (nat * nat) * list Z :=
  match fuel with
  | 0 => (a, pl, pr, stack, depth)
  | S f =>
      if SMALL_QUICKSORT <? pr - pl
      then let pm := pl + (pr - pl) / 2 in
           let a := median3 a pl pm pr in
           let vp := key a pm in
           let a := swap a pm (pr - 1) in
           let '(a, pi) := partition_loop (List.length a) a vp pl (pr - 1) in
           let a := swap a pi (pr - 1) in
           let cdepth := (cdepth - 1)%Z in
           if pi - pl <? pr - pi
           then quick_phase f a pl (pi - 1) ((pi + 1, pr) :: stack) cdepth (cdepth :: depth)
           else quick_phase f a (pi + 1) pr ((pl, pi - 1) :: stack) cdepth (cdepth :: depth)
      else (a, pl, pr, stack, depth)
  end.

(** The outer [while (1)] with its [stack_pop]. *)
Fixpoint sort_loop (fuel : nat) (a : list nat) (pl pr : nat)
    (stack : list (nat * nat)) (cdepth : Z) (depth : list Z) : list nat :=
  match fuel with
  | 0 => a
  | S f =>
      let '(a, stack, depth) :=
        if (cdepth <? 0)%Z
        then (aheapsort a pl (pr - pl + 1), stack, depth)
        else let '(a, pl, pr, stack, depth) :=
               quick_phase (List.length a) a pl pr stack cdepth depth in
             (insertion (List.length a) a pl (pl + 1) pr, stack, depth) in
      match stack, depth with
      | (pl', pr') :: stack', d :: depth' => sort_loop f a pl' pr' stack' d depth'
      | _, _ => a
      end
  end.

End Argsort.

(** [numpy.argsort(v, kind="quicksort")]: starts from [arange(len(v))],
    with depth limit [2 * floor(log2(len(v)))]. *)
Definition argsort (v : list nat) : list nat :=
  let num := List.length v in
  sort_loop v (S num) (seq 0 num) 0 (num - 1) [] (2 * Z.of_nat (Nat.log2 num))%Z [].

End Numpy.

(* ------------------------------------------------------------------ *)
(** ** The PDF document *)

Inductive style := TitleStyle | HeaderStyle | Heading3.

(** The flowables [generate_pdf] appends; lengths are in inches.  Every
    table carries the same [TableStyle], which is left out. *)
Inductive flowable :=
| Paragraph (text : string) (st : style)
| Spacer (height : Q)
| Table (data : list (list cell)) (colWidths : option (list Q))
| PageBreak.

Inductive widget :=
| DownloadButton (label : string) (data : string) (file_name : string) (mime : string)
| ErrorBox (msg : string).

(** [[df.columns.tolist()] + df.values.tolist()] *)
Definition table_data (df : DataFrame) : list (list cell) :=
  map CStr (columns df) :: values df.

(* ------------------------------------------------------------------ *)
(** ** The application *)

Definition degree_order : list string :=
  ["Consultant"; "Specialist"; "Resident"; "Other"].

Fixpoint index_of (s : string) (l : list string) : option nat :=
  match l with
  | [] => None
  | x :: r => if String.eqb x s then Some 0
              else match index_of s r with Some k => Some (S k) | None => None end
  end.

(** The code of a value in [pd.Categorical(..., categories, ordered=True)];
    [None] stands for the code of a value outside the categories (NaN). *)
Definition categorical_code (categories : list string) (c : cell) : option nat :=
  match c with
  | CStr s => index_of s categories
  | _ => None
  end.

(** The value the Categorical shows: itself, or NaN outside the categories. *)
Definition to_categorical (categories : list string) (c : cell) : cell :=
  match categorical_code categories c with
  | Some _ => c
  | None => CNaN
  end.

(** The codes that are not missing. *)
Definition non_nans (codes : list (option nat)) : list nat :=
  flat_map (fun c => match c with Some k => [k] | None => [] end) codes.

Definition is_nan_code (codes : list (option nat)) (i : nat) : bool :=
  match nth i codes None with None => true | Some _ => false end.

(* ------------------------------------------------------------------ *)
(** ** The sidebar *)

(** [Series.dropna()] *)
Definition dropna (v : list cell) : list cell :=
  filter (fun c => match c with CNaN => false | _ => true end) v.

(** Two values as keys of [unique]: equal as under [==], and the missing
    values are one key. *)
Definition same_key (a b : cell) : bool :=
  match a, b with
  | CNaN, CNaN => true
  | _, _ => cell_eqb a b
  end.

(** [Series.unique()]: the distinct values in order of first appearance.
    [seen] holds the keys met so far. *)
Fixpoint unique_from (seen : list cell) (v : list cell) : list cell :=
  match v with
  | [] => []
  | c :: r => if existsb (same_key c) seen then unique_from seen r
              else c :: unique_from (c :: seen) r
  end.

Definition unique (v : list cell) : list cell := unique_from [] v.

Module Builtins.

Definition is_num (c : cell) : bool :=
  match c with CInt _ | CFloat _ => true | _ => false end.

(** [a < b] between two strings (by code point, which is the order of
    their bytes) or two numbers. *)
Definition lt (a b : cell) : bool :=
  match a, b with
  | CStr s, CStr t => String.ltb s t
  | _, _ =>
      match cell_num a, cell_num b with
      | Some x, Some y => match (x ?= y)%Q with Lt => true | _ => false end
      | _, _ => false
      end
  end.

(** One step of a stable sort: [x] goes before the first element that is
    not smaller. *)
Fixpoint insert (x : cell) (l : list cell) : list cell :=
  match l with
  | [] => [x]
  | y :: r => if lt y x then y :: insert x r else x :: l
  end.

(** [sorted(l)] on values none of which is missing (the script calls it
    behind [dropna]): strings sort among themselves and numbers among
    themselves; comparing a string with a number raises.  Python's sort is
    stable, and so is the insertion that computes the outcome here. *)
Definition sorted (l : list cell) : result (list cell) :=
  if forallb is_str l || forallb is_num l
  then Ok (fold_right insert [] l)
  else Raise (TypeError "'<' not supported between instances of 'str' and 'int'").

End Builtins.

(** Line 179: the options of the select box,
    [sorted(df["department"].dropna().unique())]. *)
Definition department_options (df : DataFrame) : result (list cell) :=
  d <- get_column "department" df ;;
  Builtins.sorted (unique (dropna d)).

(** Line 180: the card "Total Departments",
    [len(df["department"].unique())]. *)
Definition total_departments (df : DataFrame) : result nat :=
  d <- get_column "department" df ;;
  Ok (List.length (unique d)).

Section App.

(** [numpy.argsort(kind="quicksort")]: from keys to row positions. *)
Variable argsort : list nat -> list nat.

(** Python's [repr] of a float, which the model does not compute. *)
Variable float_repr : Q -> string.

(** reportlab's [doc.build(elements)] followed by reading the buffer:
    the bytes of the document, or the exception it raises. *)
Variable build : list flowable -> result string.

(** [str(x)] *)
Definition str (x : cell) : string :=
  match x with
  | CStr s => s
  | CInt z => str_int z
  | CFloat q => float_repr q
  | CNaN => "nan"
  end.

Definition classify_degree (x : cell) : string :=
  let x := Text.lower (str x) in
  if Text.contains "consult" x then "Consultant"
  else if Text.contains "special" x then "Specialist"
  else if Text.contains "resident" x then "Resident"
  else "Other".

(** Lines 172-176: the outcome of reading the upload.  [inl msg] is
    [st.error(msg); st.stop()] (the pictograph of the message left out). *)
Definition ingest (raw : DataFrame) : string + DataFrame :=
  let df := clean_columns raw in
  if negb (has_column "department" df)
  then inl "CSV must contain 'department' column"
  else inr df.

(** Lines 183-184: the slice of the selected department, classified. *)
Definition dept_df (df : DataFrame) (department : cell) : result DataFrame :=
  d <- get_column "department" df ;;
  let dept := filter_rows (map (fun c => cell_eqb c department) d) df in
  Ok (set_column "Degree Group"
        (match find_column "degree" dept with
         | Some deg => map (fun x => CStr (classify_degree x)) deg
         | None => repeat (CStr "Other") (len dept)
         end) dept).

(** Lines 188-203: the three manpower cards; [None] is the card "N/A". *)
Definition manpower (dept : DataFrame) : nat * option (nat * Q) * option (nat * Q) :=
  let total_staff := len dept in
  match find_column "Contract type" dept with
  | Some ct =>
      let cont_val := count_eq "Contracted" ct in
      let gen_val := count_eq "General" ct in
      (total_staff, Some (cont_val, percent cont_val total_staff),
                    Some (gen_val, percent gen_val total_staff))
  | None => (total_staff, None, None)
  end.

(** [dept_df[dept_df["Degree Group"] == degree]] *)
Definition rows_of_degree (degree : string) (dept : DataFrame) : result DataFrame :=
  g <- get_column "Degree Group" dept ;;
  Ok (filter_rows (map (fun c => cell_eqb c (CStr degree)) g) dept).

(** What one turn of the staff-breakdown loop shows: the three cards and
    the roster table. *)
Record breakdown_entry := mkEntry {
  entry_degree : string;
  entry_total : nat;
  entry_contracted : option nat;
  entry_general : option nat;
  entry_table : DataFrame
}.

(** Lines 210-233: one turn of the loop; [None] when [deg_df] is empty. *)
Definition breakdown_of (dept : DataFrame) (degree : string)
  : result (option breakdown_entry) :=
  deg_df <- rows_of_degree degree dept ;;
  if empty deg_df then Ok None
  else
    let total_deg := len deg_df in
    match find_column "Contract type" deg_df with
    | Some ct =>
        t <- select_columns ["staff name"; "Contract type"] deg_df ;;
        table_df <- rename_columns ["Staff Name"; "Contract Type"] t ;;
        Ok (Some (mkEntry degree total_deg (Some (count_eq "Contracted" ct))
                          (Some (count_eq "General" ct)) table_df))
    | None =>
        t <- select_columns ["staff name"] deg_df ;;
        table_df <- rename_columns ["Staff Name"] t ;;
        Ok (Some (mkEntry degree total_deg None None table_df))
    end.

Fixpoint breakdown_loop (dept : DataFrame) (degrees : list string)
  : result (list breakdown_entry) :=
  match degrees with
  | [] => Ok []
  | degree :: rest =>
      e <- breakdown_of dept degree ;;
      es <- breakdown_loop dept rest ;;
      Ok (match e with Some x => x :: es | None => es end)
  end.

(** Lines 207-234: [for degree in ["Consultant", "Specialist", "Resident"]]. *)
Definition staff_breakdown (dept : DataFrame) : result (list breakdown_entry) :=
  breakdown_loop dept ["Consultant"; "Specialist"; "Resident"].

(** The dict [detailed_tables], in insertion order. *)
Definition detailed_tables (dept : DataFrame) : result (list (string * DataFrame)) :=
  es <- staff_breakdown dept ;;
  Ok (map (fun e => (entry_degree e, entry_table e)) es).

(** A metric card [f"{safe_sum(dept_df, col):,.0f}"]. *)
Definition metric (dept : DataFrame) (col : string) : result cell :=
  x <- safe_sum dept col ;; format_f x.

(** Lines 246-247 and 258: the values of the "Operation Source" chart. *)
Definition operation_source_values (dept : DataFrame) : result (list cell) :=
  elective <- safe_sum dept "opr_elective" ;;
  emergency <- safe_sum dept "opr_emergency" ;;
  Ok [elective; emergency].

(** Lines 248-250 and 263: the values of the "Operation Value" chart. *)
Definition operation_value_values (dept : DataFrame) : result (list cell) :=
  high <- safe_sum dept "opr_high" ;;
  moderate <- safe_sum dept "opr_moderate" ;;
  low <- safe_sum dept "opr_low" ;;
  Ok [high; moderate; low].

(** [nargsort] of pandas: the positions of the non-missing keys in the
    order [argsort] gives, then the positions of the missing ones. *)
Definition nargsort (codes : list (option nat)) : list nat :=
  let idx := seq 0 (List.length codes) in
  let non_nan_idx := filter (fun i => negb (is_nan_code codes i)) idx in
  let nan_idx := filter (is_nan_code codes) idx in
  take_list 0 (argsort (non_nans codes)) non_nan_idx ++ nan_idx.

(** Lines 281-283: the column becomes an ordered Categorical over
    [degree_order], and [sort_values(by="Degree Group")] reorders the rows
    by its codes. *)
Definition staff_sorted_df (dept : DataFrame) : result DataFrame :=
  g <- get_column "Degree Group" dept ;;
  let dept := set_column "Degree Group" (map (to_categorical degree_order) g) dept in
  Ok (take (nargsort (map (categorical_code degree_order) g)) dept).

(** A ranked bar chart,
    [px.bar(df.sort_values(measure), y="staff name", x=measure,
            color="Degree Group")].  The drawing is outside the model; what
    is kept are the column lookups, which can raise. *)
Definition bar_chart (sorted : DataFrame) (measure : string) : result unit :=
  _ <- get_column measure sorted ;;
  if has_column "staff name" sorted && has_column "Degree Group" sorted
  then Ok tt
  else Raise (ValueError "Value of 'y' is not the name of a column in 'data_frame'").

(** Lines 330-333 *)
Definition perf_table (sorted : DataFrame) : result DataFrame :=
  t <- select_columns ["staff name"; "degree"; "total hours"; "opened clinic";
                       "Total visits"; "Operation total number"] sorted ;;
  t <- rename_columns ["Staff Name"; "Degree"; "Total Hours"; "Opened Clinics";
                       "Total Visits"; "Total Operations"] t ;;
  clinics <- get_column "Opened Clinics" t ;;
  avg_clinics <- div_round 10 2 clinics ;;
  let t := set_column "Avg. Clinics" avg_clinics t in
  operations <- get_column "Total Operations" t ;;
  avg_operations <- div_round 10 2 operations ;;
  Ok (set_column "Avg. Operations" avg_operations t).

(** Lines 338-339 *)
Definition op_source_table (sorted : DataFrame) : result DataFrame :=
  t <- select_columns ["staff name"; "degree"; "opr_elective"; "opr_emergency";
                       "Operation total number"] sorted ;;
  rename_columns ["Staff Name"; "Degree"; "Elective"; "Emergency"; "Total Operations"] t.

(** Lines 341-342 *)
Definition op_value_table (sorted : DataFrame) : result DataFrame :=
  t <- select_columns ["staff name"; "degree"; "opr_high"; "opr_moderate"; "opr_low";
                       "Operation total number"] sorted ;;
  rename_columns ["Staff Name"; "Degree"; "High"; "Moderate"; "Low"; "Total Operations"] t.

(** Lines 352-353 *)
Definition fin_table (sorted : DataFrame) : result DataFrame :=
  t <- select_columns ["staff name"; "degree"; "total slary"; "total income"; "Net"] sorted ;;
  rename_columns ["Staff Name"; "Degree"; "Total Salary"; "Total Income"; "Net Income"] t.

(** Everything one run of the script shows for the selected department. *)
Record dashboard := mkDashboard {
  d_manpower : nat * option (nat * Q) * option (nat * Q);
  d_breakdown : list breakdown_entry;
  d_performance : list cell;          (* hours, clinics, visits, operations *)
  d_operation_source : list cell;     (* elective, emergency *)
  d_operation_value : list cell;      (* high, moderate, low *)
  d_financial : list cell;            (* salary, income, net, net share *)
  d_perf_table : DataFrame;
  d_op_source_table : DataFrame;
  d_op_value_table : DataFrame;
  d_fin_table : DataFrame
}.

(** Lines 183-356, in the order the script runs them.  [department] is
    what the sidebar's select box returned. *)
Definition render (df : DataFrame) (department : cell) : result dashboard :=
  dept <- dept_df df department ;;
  let cards := manpower dept in
  breakdown <- staff_breakdown dept ;;
  hours <- metric dept "total hours" ;;
  clinics <- metric dept "opened clinic" ;;
  visits <- metric dept "Total visits" ;;
  operations <- metric dept "Operation total number" ;;
  source <- operation_source_values dept ;;
  value <- operation_value_values dept ;;
  total_salary <- safe_sum dept "total slary" ;;
  total_income <- safe_sum dept "total income" ;;
  total_net <- safe_sum dept "Net" ;;
  total_salary <- format_f total_salary ;;
  total_income <- format_f total_income ;;
  total_net <- format_f total_net ;;
  sorted <- staff_sorted_df dept ;;
  _ <- bar_chart sorted "opened clinic" ;;
  _ <- bar_chart sorted "Operation total number" ;;
  _ <- bar_chart sorted "Net" ;;
  perf <- perf_table sorted ;;
  op_source <- op_source_table sorted ;;
  op_value <- op_value_table sorted ;;
  fin <- fin_table sorted ;;
  Ok (mkDashboard cards breakdown [hours; clinics; visits; operations] source value
        [total_salary; total_income; total_net; net_percent total_net total_income]
        perf op_source op_value fin).

(** What the script does with an upload: it stops on the schema error,
    dies on an exception nobody catches, or shows the dashboard. *)
Inductive outcome :=
| Halted (msg : string)
| Uncaught (e : exc)
| Rendered (d : dashboard).

Definition app (raw : DataFrame) (department : cell) : outcome :=
  match ingest raw with
  | inl msg => Halted msg
  | inr df =>
      match render df department with
      | Ok d => Rendered d
      | Raise e => Uncaught e
      end
  end.

(** Lines 87-104: what one entry of [detailed_tables] adds to the report. *)
Definition breakdown_flowables (kv : string * DataFrame) : list flowable :=
  let '(degree, table_df) := kv in
  let total := len table_df in
  let contracted := match find_column "Contract Type" table_df with
                    | Some ct => count_eq "Contracted" ct
                    | None => 0
                    end in
  let general := match find_column "Contract Type" table_df with
                 | Some ct => count_eq "General" ct
                 | None => 0
                 end in
  [ Paragraph (degree ++ "s - Total: " ++ str_nat total
               ++ " | Contracted: " ++ str_nat contracted
               ++ " | General: " ++ str_nat general)%string Heading3;
    Table (table_data table_df)
          (Some (if has_column "Contract Type" table_df then [4; 2] else [6])%Q);
    Spacer (2 # 10) ].

(** Lines 86-104: the staff-breakdown section of the report. *)
Definition staff_breakdown_section (tables : list (string * DataFrame)) : list flowable :=
  Paragraph "Staff Breakdown by Degree" HeaderStyle :: flat_map breakdown_flowables tables.

(** Lines 125-138 *)
Definition operations_flowables (kv : string * DataFrame) : list flowable :=
  [ Paragraph (fst kv) Heading3; Table (table_data (snd kv)) None; Spacer (2 # 10) ].

(** Lines 75-154: the flowables of the whole report, in order. *)
Definition elements (department : cell) (tables : list (string * DataFrame))
    (perf op_source op_value fin : DataFrame) : list flowable :=
  [ Paragraph ("Surgical Department Report - " ++ str department)%string TitleStyle;
    Spacer (3 # 10) ]
  ++ staff_breakdown_section tables
  ++ [ PageBreak;
       Paragraph "Overall Performance" HeaderStyle;
       Table (table_data perf)
             (Some [15 # 10; 1; 8 # 10; 8 # 10; 8 # 10; 8 # 10; 8 # 10; 8 # 10]%Q);
       PageBreak;
       Paragraph "Operations Overview" HeaderStyle ]
  ++ flat_map operations_flowables
       [("Operation Source", op_source); ("Operation Value", op_value)]
  ++ [ PageBreak;
       Paragraph "Financial Performance" HeaderStyle;
       Table (table_data fin) (Some [2; 15 # 10; 15 # 10; 15 # 10; 15 # 10]%Q) ].

(** [generate_pdf]: the bytes of the built document, or what [doc.build]
    raised. *)
Definition generate_pdf (dept : DataFrame) (department : cell)
    (tables : list (string * DataFrame)) (perf op_source op_value fin : DataFrame)
  : result string :=
  build (elements department tables perf op_source op_value fin).

(** Lines 359-364: a click on "Generate PDF Report". *)
Definition on_generate (dept : DataFrame) (department : cell)
    (tables : list (string * DataFrame)) (perf op_source op_value fin : DataFrame)
  : list widget :=
  match generate_pdf dept department tables perf op_source op_value fin with
  | Ok pdf_buffer =>
      [DownloadButton "Download PDF" pdf_buffer
         (str department ++ "_report.pdf")%string "application/pdf"]
  | Raise e => [ErrorBox ("PDF generation failed: " ++ exc_message e)%string]
  end.

End App.

(** Line 289: the height of the ranked bar charts,
    [max(400, 200 + (len(staff_sorted_df) * 25))]. *)
Definition dynamic_height (staff_sorted_df : DataFrame) : nat :=
  Nat.max 400 (200 + len staff_sorted_df * 25).

(** Line 361: the flowables of the report for what the dashboard shows,
    [generate_pdf(dept_df, department, detailed_tables, perf_table,
    op_source_table, op_value_table, fin_table)]. *)
Definition report (float_repr : Q -> string) (department : cell) (d : dashboard)
  : list flowable :=
  elements float_repr department
           (map (fun e => (entry_degree e, entry_table e)) (d_breakdown d))
           (d_perf_table d) (d_op_source_table d) (d_op_value_table d) (d_fin_table d).

(* ------------------------------------------------------------------ *)
(** ** The vocabulary of the properties *)

(** One row of [(col / 10).round(2)]. *)
Definition tenth (c : cell) : result cell :=
  x <- cell_div c 10 ;; Ok (cell_round 2 x).

(** [k/100] is [x] rounded to two decimal places, as the spec words it:
    no hundredth is nearer to [x] (either neighbour when [x] lies midway
    between two). *)
Definition rounded_to_hundredths (x : Q) (k : Z) : Prop :=
  (Qabs (x - (k # 100)) <= 1 # 200)%Q.

(** Rounding of the exact value to [n] decimals, half to even: what
    [round_to] would be without the doubles. *)
Definition decimal_round (q : Q) (n : nat) : Q :=
  Qred (inject_Z (rint (q * inject_Z (10 ^ Z.of_nat n))%Q) / inject_Z (10 ^ Z.of_nat n))%Q.

(** The three tables list the same rows (row labels and staff names, in
    order) and carry the same Total Operations column. *)
Definition same_total_operations (perf op_source op_value : DataFrame) : Prop :=
  exists names operations,
    find_column "Total Operations" perf = Some operations /\
    find_column "Total Operations" op_source = Some operations /\
    find_column "Total Operations" op_value = Some operations /\
    find_column "Staff Name" perf = Some names /\
    find_column "Staff Name" op_source = Some names /\
    find_column "Staff Name" op_value = Some names /\
    index op_source = index perf /\
    index op_value = index perf.

(** Row by row, the two average columns are the tenth of their source
    columns. *)
Definition averages_by_ten (perf : DataFrame) : Prop :=
  exists clinics operations avg_clinics avg_operations,
    find_column "Opened Clinics" perf = Some clinics /\
    find_column "Total Operations" perf = Some operations /\
    find_column "Avg. Clinics" perf = Some avg_clinics /\
    find_column "Avg. Operations" perf = Some avg_operations /\
    Forall2 (fun c a => tenth c = Ok a) clinics avg_clinics /\
    Forall2 (fun c a => tenth c = Ok a) operations avg_operations.

(** The positions of the rows whose Degree Group is [degree]. *)
Definition members (degree : string) (dept : DataFrame) : list nat :=
  match find_column "Degree Group" dept with
  | Some g => filter (fun i => cell_eqb (nth i g CNaN) (CStr degree))
                     (seq 0 (List.length g))
  | None => []
  end.

(** The cell of row [i] under [col]; missing when there is no such column. *)
Definition cell_at (col : string) (dept : DataFrame) (i : nat) : cell :=
  match find_column col dept with
  | Some v => nth i v CNaN
  | None => CNaN
  end.

Definition count_contract (kind : string) (dept : DataFrame) (rows : list nat) : nat :=
  List.length (filter (fun i => cell_eqb (cell_at "Contract type" dept i) (CStr kind)) rows).

(** The roster of the given rows: a header row, then name (and contract
    type, when the slice has the column) of each row. *)
Definition roster (dept : DataFrame) (rows : list nat) : list (list cell) :=
  if has_column "Contract type" dept
  then [CStr "Staff Name"; CStr "Contract Type"]
       :: map (fun i => [cell_at "staff name" dept i; cell_at "Contract type" dept i]) rows
  else [CStr "Staff Name"] :: map (fun i => [cell_at "staff name" dept i]) rows.

(** What the report is to hold for one category, said row by row: nothing
    when the category has no row; otherwise the sub-heading with its three
    counts, the roster table, and the spacer that closes the entry. *)
Definition category_section (dept : DataFrame) (degree : string) : list flowable :=
  match members degree dept with
  | [] => []
  | rows =>
      [ Paragraph (degree ++ "s - Total: " ++ str_nat (List.length rows)
                   ++ " | Contracted: " ++ str_nat (count_contract "Contracted" dept rows)
                   ++ " | General: " ++ str_nat (count_contract "General" dept rows))%string
                  Heading3;
        Table (roster dept rows)
              (Some (if has_column "Contract type" dept then [4; 2] else [6])%Q);
        Spacer (2 # 10) ]
  end.

Definition has_members (dept : DataFrame) (degree : string) : bool :=
  match members degree dept with [] => false | _ => true end.

(** A contract card of a category on screen: the count, or [None] ("N/A")
    when the slice has no "Contract type". *)
Definition contract_card (kind : string) (dept : DataFrame) (rows : list nat) : option nat :=
  if has_column "Contract type" dept then Some (count_contract kind dept rows) else None.

(** What one on-screen entry of the breakdown shows, said row by row. *)
Definition entry_matches (dept : DataFrame) (e : breakdown_entry) : Prop :=
  entry_total e = List.length (members (entry_degree e) dept) /\
  entry_contracted e = contract_card "Contracted" dept (members (entry_degree e) dept) /\
  entry_general e = contract_card "General" dept (members (entry_degree e) dept) /\
  table_data (entry_table e) = roster dept (members (entry_degree e) dept).

(** The claim as the spec words it: every category of the taxonomy that
    has a row has its section in the report. *)
Definition breakdown_covers_taxonomy : Prop :=
  forall dept tables,
    wf dept ->
    detailed_tables dept = Ok tables ->
    forall degree,
      In degree degree_order ->
      members degree dept <> [] ->
      exists before after,
        staff_breakdown_section tables = before ++ category_section dept degree ++ after.

(** The keys [sort_values(by="Degree Group")] hands to [argsort]: the
    Categorical codes of the column. *)
Definition sort_keys (dept : DataFrame) : list nat :=
  match find_column "Degree Group" dept with
  | Some g => non_nans (map (categorical_code degree_order) g)
  | None => []
  end.

(** Consultant 0, Specialist 1, Resident 2, Other 3; 4 outside the
    taxonomy. *)
Definition degree_rank (c : cell) : nat :=
  match categorical_code degree_order c with
  | Some k => k
  | None => List.length degree_order
  end.

(** [p] lists each of the positions [0 .. n-1] once. *)
Definition is_permutation_of_range (p : list nat) (n : nat) : bool :=
  (List.length p =? n) && forallb (fun i => existsb (Nat.eqb i) p) (seq 0 n).

Fixpoint nondecreasing (l : list nat) : bool :=
  match l with
  | a :: (b :: _) as r => (a <=? b) && nondecreasing r
  | _ => true
  end.

(** What every sorting routine promises of its answer [p] on [keys]: it
    is a rearrangement of the positions, and the keys read in that order
    do not decrease. *)
Definition sorts (keys p : list nat) : bool :=
  is_permutation_of_range p (List.length keys) && nondecreasing (take_list 0 p keys).

(** What a stable routine promises besides: positions with equal keys
    stay in increasing order. *)
Fixpoint ties_in_order (keys p : list nat) : bool :=
  match p with
  | a :: (b :: _) as r =>
      (if nth a keys 0 =? nth b keys 0 then a <? b else true) && ties_in_order keys r
  | _ => true
  end.

(** Order by key, ties by position. *)
Definition lex_lt (keys : list nat) (a b : nat) : Prop :=
  nth a keys 0 < nth b keys 0 \/ (nth a keys 0 = nth b keys 0 /\ a < b).

(** No row of a later category stands before a row of an earlier one. *)
Definition in_category_order (sorted : DataFrame) : Prop :=
  exists g,
    find_column "Degree Group" sorted = Some g /\
    forall i j, i < j -> j < List.length g ->
                degree_rank (nth i g CNaN) <= degree_rank (nth j g CNaN).

(** A cell that names a category of the taxonomy. *)
Definition in_taxonomy (c : cell) : Prop :=
  exists s, c = CStr s /\ In s degree_order.

(** A slice as [dept_df] leaves it: well formed, with a Degree Group
    column whose every cell names a category. *)
Definition classified (dept : DataFrame) : Prop :=
  wf dept /\
  exists g, find_column "Degree Group" dept = Some g /\ Forall in_taxonomy g.

(** The claim as the spec words it, for a sorting routine [argsort]. *)
Definition category_sort_is_stable (argsort : list nat -> list nat) : Prop :=
  forall (float_repr : Q -> string) (df : DataFrame) (department : cell)
         (dept sorted : DataFrame),
    wf df ->
    dept_df float_repr df department = Ok dept ->
    staff_sorted_df argsort dept = Ok sorted ->
    in_category_order sorted /\
    (forall degree, rows_of_degree degree sorted = rows_of_degree degree dept) /\
    staff_sorted_df argsort sorted = Ok sorted.

(* The invariants of the sorting routine *)

(** The array [a'] agrees with [a] outside the cells [pl..pr]. *)
Definition same_outside (pl pr : nat) (a a' : list nat) : Prop :=
  forall i, i < pl \/ pr < i -> nth i a' 0 = nth i a 0.

(** The cells [i] and [j] lie in one pending partition. *)
Definition covered (segs : list (nat * nat)) (i j : nat) : Prop :=
  exists s, In s segs /\ fst s <= i /\ j <= snd s.

(** Two partitions share no cell. *)
Definition apart (s t : nat * nat) : Prop := snd s < fst t \/ snd t < fst s.

Fixpoint separate (segs : list (nat * nat)) : Prop :=
  match segs with
  | [] => True
  | s :: r => Forall (apart s) r /\ separate r
  end.

(** The state of the sorting loop: the array holds every position once,
    the pending partitions are non-empty, inside the array and apart, and
    two cells are in order by key unless one pending partition holds
    both. *)
Definition pending (v a : list nat) (segs : list (nat * nat)) : Prop :=
  Permutation (seq 0 (List.length v)) a /\
  Forall (fun s => fst s <= snd s /\ snd s < List.length a) segs /\
  separate segs /\
  forall i j, i < j -> j < List.length a ->
    Numpy.key v a i <= Numpy.key v a j \/ covered segs i j.

(** The outer iterations the pending partitions can still take: a
    partition of [k] cells is split at most [k] times. *)
Definition budget (segs : list (nat * nat)) : nat :=
  list_sum (map (fun s => snd s - fst s + 2) segs).

(** The cells [l..n] of the partition that starts at [pl], counted from 1,
    form a heap: no child holds a greater key than its parent. *)
Definition heap_from (v a : list nat) (pl l n : nat) : Prop :=
  forall k c, l <= k -> c = k + k \/ c = k + k + 1 -> c <= n ->
    Numpy.key v a (pl + c - 1) <= Numpy.key v a (pl + k - 1).

(** The positions of the rows of the upload whose department is
    [department], in upload order. *)
Definition rows_of_department (department : cell) (df : DataFrame) : list nat :=
  match find_column "department" df with
  | Some d => filter (fun i => cell_eqb (nth i d CNaN) department) (seq 0 (List.length d))
  | None => []
  end.

(** The number a contract card stands for: "N/A" counts as none. *)
Definition card_count (card : option nat) : nat :=
  match card with Some k => k | None => 0 end.

(** The columns of the upload that lines 294-353 read without asking
    whether they are there: the ranked charts and the four tables. *)
Definition required_columns : list string :=
  ["staff name"; "degree"; "total hours"; "opened clinic"; "Total visits";
   "Operation total number"; "opr_elective"; "opr_emergency"; "opr_high";
   "opr_moderate"; "opr_low"; "total slary"; "total income"; "Net"].



(** A table of the report is well shaped: every row has as many cells as
    there are column widths, or as the header row when no widths are
    given. *)
Definition widths_fit (f : flowable) : bool :=
  match f with
  | Table data (Some w) => forallb (fun row => List.length row =? List.length w) data
  | Table data None =>
      match data with
      | [] => true
      | header :: rows => forallb (fun row => List.length row =? List.length header) rows
      end
  | _ => true
  end.

Definition is_page_break (f : flowable) : bool :=
  match f with PageBreak => true | _ => false end.

Definition is_table (f : flowable) : bool :=
  match f with Table _ _ => true | _ => false end.

(** [pat] occurs in [s]: some text, then [pat], then some text. *)
Definition occurs (pat s : string) : Prop :=
  exists a b, s = String.append a (String.append pat b).

(** The blanks that the pattern [\s] and [strip] agree on in every pandas
    release: tab, line feed, form feed, carriage return and space. *)
Definition is_blank (c : ascii) : bool :=
  let n := nat_of_ascii c in
  (n =? 9) || (n =? 10) || (n =? 12) || (n =? 13) || (n =? 32).

Fixpoint blanks (s : string) : bool :=
  match s with
  | EmptyString => true
  | String c r => is_blank c && blanks r
  end.

(** [h] is the word [w] with blanks before and behind it. *)
Definition padded (w h : string) : Prop :=
  exists a b, blanks a = true /\ blanks b = true /\
              h = String.append a (String.append w b).


(** The card [card] totals the column [c] of the slice, and the column
    [c'] of the table holds the same cells in another order; when the
    total is an integer the column of the table has the very same total. *)
Definition totals_column (card : cell) (c : string) (dept : DataFrame)
    (c' : string) (table : DataFrame) : Prop :=
  exists v w,
    find_column c dept = Some v /\
    find_column c' table = Some w /\
    Permutation v w /\
    series_sum v = Ok card /\
    (is_int card = true -> series_sum w = Ok card).

(** Both are strings, or both are numbers. *)
Definition same_kind (a b : cell) : bool :=
  (is_str a && is_str b) || (Builtins.is_num a && Builtins.is_num b).

(** [a] stands before [b] in the order of [sorted]. *)
Definition precedes (a b : cell) : Prop := Builtins.lt a b = true.

(** Insertion sort of positions, read off the routine's insertion loop:
    the new position moves left past the positions with a greater key.
    [place_rev] works on the reversed prefix. *)
Fixpoint place_rev (keys : list nat) (vi : nat) (rp : list nat) : list nat :=
  match rp with
  | [] => [vi]
  | x :: r => if nth vi keys 0 <? nth x keys 0 then x :: place_rev keys vi r
              else vi :: rp
  end.

Definition place (keys : list nat) (vi : nat) (p : list nat) : list nat :=
  rev (place_rev keys vi (rev p)).

Definition insertion_order (keys : list nat) (n : nat) : list nat :=
  fold_left (fun p vi => place keys vi p) (seq 0 n) [].

(** A sorting routine that keeps the promise [sorts] and puts tied
    positions in decreasing order: an insertion sort that inserts behind
    the equal keys. *)
Fixpoint insert_behind (keys : list nat) (i : nat) (l : list nat) : list nat :=
  match l with
  | [] => [i]
  | j :: r => if nth i keys 0 <? nth j keys 0 then i :: l
              else j :: insert_behind keys i r
  end.

Definition reversing_argsort (keys : list nat) : list nat :=
  fold_right (insert_behind keys) [] (seq 0 (List.length keys)).

(** All key lists of length [n] over the four category codes. *)
Fixpoint all_keys (n : nat) : list (list nat) :=
  match n with
  | 0 => [[]]
  | S n' => flat_map (fun k => map (cons k) (all_keys n')) [0; 1; 2; 3]
  end.

(* ------------------------------------------------------------------ *)
(** ** Sample uploads and slices *)

(** The upload of the running example: A and B of Surgery, C elsewhere. *)
Definition sample_upload : DataFrame :=
  mkDF [0; 1; 2]
    [("department", [CStr "Surgery"; CStr "Surgery"; CStr "Urology"]);
     ("staff name", [CStr "A"; CStr "B"; CStr "C"]);
     ("degree", [CStr "Resident"; CStr "Consultant Surgeon"; CStr "Specialist"]);
     ("Contract type", [CStr "General"; CStr "Contracted"; CNaN]);
     ("total  hours", [CInt 50; CInt 100; CInt 80]);
     ("opened clinic", [CInt 5; CInt 10; CInt 7]);
     ("Total visits", [CInt 40; CInt 90; CInt 60]);
     ("Operation total number", [CInt 5; CInt 20; CInt 9]);
     ("opr_elective", [CInt 3; CInt 15; CInt 4]);
     ("opr_emergency", [CInt 2; CInt 5; CInt 5]);
     ("opr_high", [CInt 1; CInt 10; CInt 2]);
     ("opr_moderate", [CInt 2; CInt 6; CInt 3]);
     ("opr_low", [CInt 2; CInt 4; CInt 4]);
     ("total slary", [CFloat (25005 # 10); CInt 9000; CInt 5000]);
     ("total income", [CInt 4000; CInt 20000; CInt 8000]);
     ("Net", [CFloat (14995 # 10); CInt 11000; CInt 3000])].

(** The Surgery slice of the running example, classified. *)
Definition sample_slice : DataFrame :=
  Eval vm_compute in
    match dept_df (fun _ => "0.0") (clean_columns sample_upload) (CStr "Surgery") with
    | Ok d => d
    | Raise _ => mkDF [] []
    end.

(** An upload with fractional clinic counts: the cells 0.15 and 0.35 of
    the CSV. *)
Definition upload_with_fractions : DataFrame :=
  mkDF [0; 1]
    [("department", [CStr "Surgery"; CStr "Surgery"]);
     ("staff name", [CStr "A"; CStr "B"]);
     ("degree", [CStr "Consultant"; CStr "Consultant"]);
     ("total hours", [CInt 50; CInt 100]);
     ("opened clinic", [CFloat (15 # 100); CFloat (35 # 100)]);
     ("Total visits", [CInt 40; CInt 90]);
     ("Operation total number", [CInt 5; CInt 20]);
     ("opr_elective", [CInt 3; CInt 15]);
     ("opr_emergency", [CInt 2; CInt 5]);
     ("opr_high", [CInt 1; CInt 10]);
     ("opr_moderate", [CInt 2; CInt 6]);
     ("opr_low", [CInt 2; CInt 4]);
     ("total slary", [CInt 2500; CInt 9000]);
     ("total income", [CInt 4000; CInt 20000]);
     ("Net", [CInt 1500; CInt 11000])].

(** A slice that carries names and hours but no operation counts. *)
Definition slice_without_operations : DataFrame :=
  mkDF [0; 1]
       [("department", [CStr "Surgery"; CStr "Surgery"]);
        ("staff name", [CStr "A"; CStr "B"]);
        ("total hours", [CInt 100; CInt 50])].

(** A two-row upload whose headers need cleaning and name no degree. *)
Definition upload_without_degree : DataFrame :=
  mkDF [0; 1]
       [(" department ", [CStr "Surgery"; CStr "Surgery"]);
        ("staff   name", [CStr "A"; CStr "B"])].

(** An upload with the department column and nothing else. *)
Definition upload_department_only : DataFrame :=
  mkDF [0] [("department", [CStr "Surgery"])].

(** A Surgery slice with one nurse, as [dept_df] delivers it. *)
Definition nurse_slice : DataFrame :=
  mkDF [0]
       [("department", [CStr "Surgery"]);
        ("staff name", [CStr "N"]);
        ("degree", [CStr "Nurse"]);
        ("Degree Group", [CStr "Other"])].

(** Two residents of one department. *)
Definition two_residents : DataFrame :=
  mkDF [0; 1]
       [("department", [CStr "Surgery"; CStr "Surgery"]);
        ("staff name", [CStr "R0"; CStr "R1"]);
        ("degree", [CStr "Resident"; CStr "Resident"])].

(** Eighteen residents of one department. *)
Definition eighteen_residents : DataFrame :=
  mkDF (seq 0 18)
       [("department", repeat (CStr "Surgery") 18);
        ("staff name", map (fun i => CStr (String.append "R" (str_nat i))) (seq 0 18));
        ("degree", repeat (CStr "Resident") 18)].

(** An upload in which one member of staff has no department. *)
Definition upload_with_unassigned : DataFrame :=
  mkDF [0; 1; 2; 3]
       [("department", [CStr "Surgery"; CNaN; CStr "Cardiology"; CStr "Surgery"]);
        ("staff name", [CStr "A"; CStr "B"; CStr "C"; CStr "D"])].

(** A Surgery slice of one consultant whose upload names no staff. *)
Definition upload_without_names : DataFrame :=
  mkDF [0]
       [("department", [CStr "Surgery"]);
        ("degree", [CStr "Consultant"])].



(* ================================================================== *)
(** * Properties *)

(* ------------------------------------------------------------------ *)
(** ** Header normalisation: proofs *)

Section TextFacts.
Import Text.


Lemma replace_runs_single_spaced s : forall b, single_spaced b (replace_runs b s).
Proof.
  induction s as [|c r IH]; intros b; simpl; auto.
  destruct (is_space c) eqn:E.
  - destruct b; [apply IH|].
    simpl. repeat split; auto.
  - simpl. rewrite E. apply IH.
Qed.

Lemma single_spaced_fixed s : forall b, single_spaced b s -> replace_runs b s = s.
Proof.
  induction s as [|c r IH]; intros b; simpl; auto.
  destruct (is_space c) eqn:E.
  - intros (-> & -> & H). now rewrite (IH true H).
  - intros H. now rewrite (IH false H).
Qed.

Lemma lstrip_single_spaced s : forall b, single_spaced b s -> single_spaced false (lstrip s).
Proof.
  induction s as [|c r IH]; intros b; simpl; auto.
  destruct (is_space c) eqn:E.
  - intros (_ & _ & H). now apply (IH true).
  - intros H. simpl. now rewrite E.
Qed.

Lemma rstrip_single_spaced s : forall b, single_spaced b s -> single_spaced b (rstrip s).
Proof.
  induction s as [|c r IH]; intros b; simpl; auto.
  destruct (is_space c) eqn:E.
  - intros (Hc & Hb & H). specialize (IH true H).
    destruct (rstrip r) as [|c' r'] eqn:R; simpl; auto.
    rewrite E. repeat split; auto.
  - intros H. specialize (IH false H).
    destruct (rstrip r) as [|c' r'] eqn:R; simpl; rewrite E; auto.
Qed.

Lemma lstrip_no_leading s : no_leading_space (lstrip s).
Proof.
  induction s as [|c r IH]; simpl; auto.
  destruct (is_space c) eqn:E; simpl; auto.
Qed.

Lemma no_leading_lstrip s : no_leading_space s -> lstrip s = s.
Proof. destruct s as [|c r]; simpl; auto. now intros ->. Qed.

Lemma rstrip_no_leading s : no_leading_space s -> no_leading_space (rstrip s).
Proof.
  destruct s as [|c r]; simpl; auto.
  intros E. destruct (rstrip r); simpl; rewrite ?E; simpl; auto.
Qed.

Lemma rstrip_idem s : rstrip (rstrip s) = rstrip s.
Proof.
  induction s as [|c r IH]; simpl; auto.
  destruct (rstrip r) as [|c' r'] eqn:R.
  - destruct (is_space c) eqn:E; simpl; auto. now rewrite E.
  - change (rstrip (String c (String c' r')) = String c (String c' r')).
    cbn [rstrip] in *. rewrite IH. reflexivity.
Qed.

Lemma strip_idem s : strip (strip s) = strip s.
Proof.
  unfold strip.
  rewrite (no_leading_lstrip (rstrip (lstrip s))).
  - apply rstrip_idem.
  - apply rstrip_no_leading, lstrip_no_leading.
Qed.

Lemma words_replace_runs s :
  forall b w, (b = true -> w = EmptyString) ->
              words_from w (replace_runs b s) = words_from w s.
Proof.
  induction s as [|c r IH]; intros b w Hb; simpl; auto.
  destruct (is_space c) eqn:E.
  - destruct b.
    + rewrite (Hb eq_refl). now apply IH.
    + simpl. destruct w; rewrite (IH true EmptyString); auto.
  - simpl. rewrite E. apply IH. discriminate.
Qed.

Lemma words_lstrip s : words (lstrip s) = words s.
Proof.
  unfold words. induction s as [|c r IH]; simpl; auto.
  destruct (is_space c) eqn:E; auto.
  simpl. now rewrite E.
Qed.

Lemma words_rstrip s : forall w, words_from w (rstrip s) = words_from w s.
Proof.
  induction s as [|c r IH]; intros w; auto.
  cbn [rstrip].
  destruct (rstrip r) as [|c' r'] eqn:R.
  - destruct (is_space c) eqn:E; cbn [words_from]; rewrite E.
    + rewrite <- (IH EmptyString). simpl. destruct w; reflexivity.
    + rewrite <- IH. reflexivity.
  - rewrite <- R in *.
    change (words_from w (String c (rstrip r))) with
      (if is_space c
       then match w with
            | EmptyString => words_from EmptyString (rstrip r)
            | _ => w :: words_from EmptyString (rstrip r)
            end
       else words_from (String.append w (String c EmptyString)) (rstrip r)).
    rewrite !IH. reflexivity.
Qed.

Lemma clean_header_shape h :
  single_spaced false (clean_header h) /\
  no_leading_space (clean_header h) /\
  no_trailing_space (clean_header h).
Proof.
  unfold clean_header, strip, no_trailing_space. repeat split.
  - apply rstrip_single_spaced, (lstrip_single_spaced _ false), replace_runs_single_spaced.
  - apply rstrip_no_leading, lstrip_no_leading.
  - apply rstrip_idem.
Qed.

Lemma clean_header_idem h : clean_header (clean_header h) = clean_header h.
Proof.
  destruct (clean_header_shape h) as (Hs & _ & _).
  unfold clean_header at 1.
  rewrite (single_spaced_fixed _ false Hs).
  unfold clean_header. apply strip_idem.
Qed.

Lemma clean_header_words h : words (clean_header h) = words h.
Proof.
  unfold clean_header, strip, words.
  rewrite words_rstrip. fold (words (lstrip (replace_runs false h))).
  rewrite words_lstrip. unfold words.
  apply words_replace_runs. discriminate.
Qed.

Lemma append_empty_r s : String.append s EmptyString = s.
Proof. induction s as [|c r IH]; simpl; congruence. Qed.

Lemma append_snoc w c r :
  String.append (String.append w (String c EmptyString)) r = String.append w (String c r).
Proof. induction w as [|a w IH]; simpl; congruence. Qed.

Lemma rstrip_tail c r : rstrip (String c r) = String c r -> rstrip r = r.
Proof.
  cbn [rstrip]. destruct (rstrip r) as [|c' r'] eqn:R.
  - destruct (is_space c); [discriminate|]. now intros [= <-].
  - now intros [= <-].
Qed.

Lemma rstrip_space_last c : is_space c = true -> rstrip (String c EmptyString) <> String c EmptyString.
Proof. intros E. simpl. rewrite E. discriminate. Qed.

(** A header in normal form is its words joined by single spaces. *)
Lemma join_words s :
  forall w b, single_spaced b s -> no_trailing_space s ->
              (w = EmptyString -> no_leading_space s) ->
              String.concat " " (words_from w s) = String.append w s.
Proof.
  unfold no_trailing_space.
  induction s as [|c r IH]; intros w b Hs Ht Hw.
  - destruct w; simpl; [reflexivity|]. now rewrite append_empty_r.
  - cbn [words_from]. simpl in Hs. destruct (is_space c) eqn:E.
    + destruct Hs as (-> & _ & Hs).
      destruct w as [|a w]; [specialize (Hw eq_refl); simpl in Hw; congruence|].
      assert (Hr : rstrip r = r) by now apply rstrip_tail in Ht.
      assert (Hl : no_leading_space r).
      { destruct r as [|c' r']; simpl in *; auto.
        destruct (is_space c'); auto. now destruct Hs as (_ & ? & _). }
      specialize (IH EmptyString true Hs Hr (fun _ => Hl)). simpl in IH.
      destruct (words_from EmptyString r) as [|x xs] eqn:W.
      * simpl in IH. subst r. now apply rstrip_space_last in Ht.
      * change (String.concat " " (String a w :: x :: xs))
          with (String.append (String a w)
                  (String.append " " (String.concat " " (x :: xs)))).
        rewrite IH. reflexivity.
    + rewrite (IH _ false Hs (rstrip_tail _ _ Ht)).
      * apply append_snoc.
      * destruct w; discriminate.
Qed.

Lemma clean_header_join h : clean_header h = String.concat " " (words h).
Proof.
  destruct (clean_header_shape h) as (Hs & Hl & Ht).
  rewrite <- (clean_header_words h). unfold words.
  now rewrite (join_words _ EmptyString false Hs Ht (fun _ => Hl)).
Qed.

End TextFacts.

(* ------------------------------------------------------------------ *)
(** ** Frames: lookups and row selections *)

Section FrameFacts.

Lemma lookup_none c l : lookup c l = None <-> ~ In c (map fst l).
Proof.
  induction l as [|[k v] r IH]; simpl.
  - tauto.
  - destruct (String.eqb_spec k c) as [->|N].
    + split; [discriminate|]. intros H. exfalso. apply H. now left.
    + rewrite IH. tauto.
Qed.

Lemma find_column_none c df : find_column c df = None <-> ~ In c (columns df).
Proof. apply lookup_none. Qed.

Lemma has_column_false c df : has_column c df = false <-> ~ In c (columns df).
Proof.
  unfold has_column. rewrite <- find_column_none.
  destruct (find_column c df); split; congruence.
Qed.

Lemma lookup_map_values (f : list cell -> list cell) c l :
  lookup c (map (fun kv => (fst kv, f (snd kv))) l) = option_map f (lookup c l).
Proof.
  induction l as [|[k v] r IH]; simpl; auto.
  destruct (String.eqb k c); auto.
Qed.

Lemma lookup_assign_same c v l : lookup c (assign c v l) = Some v.
Proof.
  induction l as [|[k x] r IH]; simpl.
  - now rewrite String.eqb_refl.
  - destruct (String.eqb k c) eqn:E; simpl; rewrite E; auto.
Qed.


Lemma assign_same c v l : lookup c l = Some v -> assign c v l = l.
Proof.
  induction l as [|[k x] r IH]; simpl; [discriminate|].
  destruct (String.eqb k c).
  - now intros [= ->].
  - intros H. now rewrite IH.
Qed.

Lemma find_filter_rows c mask df :
  find_column c (filter_rows mask df) = option_map (mask_filter mask) (find_column c df).
Proof. apply lookup_map_values. Qed.

Lemma find_take c p df :
  find_column c (take p df) = option_map (take_list CNaN p) (find_column c df).
Proof. apply lookup_map_values. Qed.


Lemma clean_columns_idem df : clean_columns (clean_columns df) = clean_columns df.
Proof.
  unfold clean_columns. simpl. f_equal.
  rewrite map_map. apply map_ext. intros [k v]. simpl.
  now rewrite clean_header_idem.
Qed.

Lemma columns_clean_columns df :
  columns (clean_columns df) = map Text.clean_header (columns df).
Proof. unfold columns, clean_columns. simpl. now rewrite !map_map. Qed.

End FrameFacts.

(* ------------------------------------------------------------------ *)
(** ** Header normalisation (C9) *)

(** C9: header normalisation replaces each run of whitespace by one space
    and trims both ends, nothing else (the header becomes its words joined
    by single spaces; the cells are untouched), and normalising twice is
    the same as normalising once, for a header and for a table. *)
Theorem clean_columns_idempotent :
  forall (h : string) (df : DataFrame),
    Text.clean_header (Text.clean_header h) = Text.clean_header h /\
    Text.clean_header h = String.concat " " (Text.words h) /\
    Text.words (Text.clean_header h) = Text.words h /\
    clean_columns (clean_columns df) = clean_columns df /\
    columns (clean_columns df) = map Text.clean_header (columns df) /\
    map snd (cols (clean_columns df)) = map snd (cols df) /\
    index (clean_columns df) = index df.
Proof.
  intros h df. repeat split.
  - apply clean_header_idem.
  - apply clean_header_join.
  - apply clean_header_words.
  - apply clean_columns_idem.
  - apply columns_clean_columns.
  - unfold clean_columns. simpl. now rewrite map_map.
Qed.

(* ------------------------------------------------------------------ *)
(** ** The role classifier (C5) *)

Section ClassifierFacts.

Variable float_repr : Q -> string.

Lemma prefix_lower p : forall s,
  prefix p s = true -> prefix (Text.lower p) (Text.lower s) = true.
Proof.
  induction p as [|a p IH]; intros [|b s]; simpl; auto.
  destruct (ascii_dec a b) as [->|]; [|discriminate].
  intros H. destruct (ascii_dec (Text.lower_char b) (Text.lower_char b)); [auto|congruence].
Qed.

Lemma contains_lower p s :
  Text.contains p s = true -> Text.contains (Text.lower p) (Text.lower s) = true.
Proof.
  induction s as [|b s IH]; simpl.
  - rewrite !orb_false_r. apply (prefix_lower p EmptyString).
  - intros H. apply orb_true_iff in H. apply orb_true_iff.
    destruct H as [H|H]; [left|right; auto].
    apply (prefix_lower p (String b s) H).
Qed.


Lemma classify_degree_in_order x : In (classify_degree float_repr x) degree_order.
Proof.
  unfold classify_degree, degree_order.
  destruct (Text.contains "consult" _); [simpl; auto|].
  destruct (Text.contains "special" _); [simpl; auto|].
  destruct (Text.contains "resident" _); simpl; auto.
Qed.

End ClassifierFacts.

(** C5: the classifier answers, for every value, one of the four labels,
    chosen on the lower-cased text of the value by the first of "consult",
    "special", "resident" it contains, "Other" when it contains none; a
    string containing "consult" and "special" is a Consultant; the answer
    does not depend on letter case; a missing value is classified through
    its text "nan". *)
Theorem classify_degree_first_match :
  forall (float_repr : Q -> string) (x : cell),
    In (classify_degree float_repr x) degree_order /\
    (Text.contains "consult" (Text.lower (str float_repr x)) = true ->
       classify_degree float_repr x = "Consultant") /\
    (Text.contains "consult" (Text.lower (str float_repr x)) = false ->
     Text.contains "special" (Text.lower (str float_repr x)) = true ->
       classify_degree float_repr x = "Specialist") /\
    (Text.contains "consult" (Text.lower (str float_repr x)) = false ->
     Text.contains "special" (Text.lower (str float_repr x)) = false ->
     Text.contains "resident" (Text.lower (str float_repr x)) = true ->
       classify_degree float_repr x = "Resident") /\
    (Text.contains "consult" (Text.lower (str float_repr x)) = false ->
     Text.contains "special" (Text.lower (str float_repr x)) = false ->
     Text.contains "resident" (Text.lower (str float_repr x)) = false ->
       classify_degree float_repr x = "Other") /\
    (forall s, Text.contains "consult" s = true -> Text.contains "special" s = true ->
       classify_degree float_repr (CStr s) = "Consultant") /\
    (forall s s', Text.lower s = Text.lower s' ->
       classify_degree float_repr (CStr s) = classify_degree float_repr (CStr s')) /\
    classify_degree float_repr CNaN = "Other".
Proof.
  intros fr x. split; [apply classify_degree_in_order|].
  unfold classify_degree. repeat split.
  - now intros ->.
  - now intros -> ->.
  - now intros -> -> ->.
  - now intros -> -> ->.
  - intros s H _. pose proof (contains_lower "consult" s H) as H'.
    change (Text.lower "consult") with "consult" in H'.
    unfold str. now rewrite H'.
  - intros s s' E. simpl. now rewrite E.
Qed.

(** The precedence law at a title that names both roles, in capitals. *)
Lemma classify_degree_first_match_witness :
  classify_degree (fun _ => "0.0") (CStr "SPECIAL CARE CONSULTANT") = "Consultant".
Proof.
  destruct (classify_degree_first_match (fun _ => "0.0") (CStr "SPECIAL CARE CONSULTANT"))
    as (_ & H & _).
  apply H. reflexivity.
Defined.

(* ------------------------------------------------------------------ *)
(** ** Safe sums (C6) *)

(** C6: [safe_sum] over a frame that lacks the column returns 0 and does
    not raise; so a slice with neither [opr_elective] nor [opr_emergency]
    gives the Operation Source chart the values [0, 0]. *)
Theorem safe_sum_absent_column :
  forall (df : DataFrame),
    (forall col, ~ In col (columns df) -> safe_sum df col = Ok (CInt 0)) /\
    (~ In "opr_elective" (columns df) -> ~ In "opr_emergency" (columns df) ->
     operation_source_values df = Ok [CInt 0; CInt 0]).
Proof.
  intros df.
  assert (H : forall col, ~ In col (columns df) -> safe_sum df col = Ok (CInt 0)).
  { intros col N. unfold safe_sum. apply find_column_none in N. now rewrite N. }
  split; [exact H|].
  intros N1 N2. unfold operation_source_values.
  now rewrite (H _ N1), (H _ N2).
Qed.

Lemma safe_sum_absent_column_witness :
  safe_sum slice_without_operations "opr_elective" = Ok (CInt 0) /\
  operation_source_values slice_without_operations = Ok [CInt 0; CInt 0].
Proof.
  destruct (safe_sum_absent_column slice_without_operations) as [H1 H2].
  split.
  - apply H1. simpl. intros [H|[H|[H|[]]]]; discriminate H.
  - apply H2; simpl; intros [H|[H|[H|[]]]]; discriminate H.
Defined.

(* ------------------------------------------------------------------ *)
(** ** The generation boundary (C8) *)

(** C8: a click on the report button ends in exactly one of two ways.
    Either the composer returned, and the one widget shown is the download
    of the bytes built from the complete list of flowables; or the composer
    raised, and the one widget shown is the error message, with no
    download. *)
Theorem on_generate_all_or_nothing :
  forall (float_repr : Q -> string) (build : list flowable -> result string)
         (dept : DataFrame) (department : cell) (tables : list (string * DataFrame))
         (perf op_source op_value fin : DataFrame),
    (exists pdf,
        generate_pdf float_repr build dept department tables perf op_source op_value fin
          = Ok pdf /\
        build (elements float_repr department tables perf op_source op_value fin) = Ok pdf /\
        on_generate float_repr build dept department tables perf op_source op_value fin
          = [DownloadButton "Download PDF" pdf
               (String.append (str float_repr department) "_report.pdf") "application/pdf"])
    \/
    (exists e,
        generate_pdf float_repr build dept department tables perf op_source op_value fin
          = Raise e /\
        on_generate float_repr build dept department tables perf op_source op_value fin
          = [ErrorBox (String.append "PDF generation failed: " (exc_message e))] /\
        forall label data name mime,
          ~ In (DownloadButton label data name mime)
               (on_generate float_repr build dept department tables perf
                  op_source op_value fin)).
Proof.
  intros fr build dept department tables perf src val fin.
  unfold on_generate, generate_pdf.
  destruct (build _) as [pdf|e].
  - left. exists pdf. auto.
  - right. exists e. repeat split; auto.
    intros label data name mime [H|[]]. discriminate H.
Qed.

(** Both outcomes, on the running example's title and empty tables. *)
Example on_generate_success :
  on_generate (fun _ => "0.0") (fun _ => Ok "%PDF-1.4") (mkDF [] []) (CStr "Surgery") []
              (mkDF [] []) (mkDF [] []) (mkDF [] []) (mkDF [] [])
  = [DownloadButton "Download PDF" "%PDF-1.4" "Surgery_report.pdf" "application/pdf"].
Proof. reflexivity. Qed.

Example on_generate_failure :
  on_generate (fun _ => "0.0") (fun _ => Raise (RenderError "too large on page 2"))
              (mkDF [] []) (CStr "Surgery") []
              (mkDF [] []) (mkDF [] []) (mkDF [] []) (mkDF [] [])
  = [ErrorBox "PDF generation failed: too large on page 2"].
Proof. reflexivity. Qed.

(* ------------------------------------------------------------------ *)
(** ** A table without a degree column (C10) *)

Section NoDegree.

Variable float_repr : Q -> string.




End NoDegree.



(* ------------------------------------------------------------------ *)
(** ** Missing optional columns (C1) *)

Lemma ingest_stops_iff raw :
  (exists msg, ingest raw = inl msg) <-> ~ In "department" (columns (clean_columns raw)).
Proof.
  unfold ingest. rewrite <- has_column_false.
  destruct (has_column "department" (clean_columns raw)); simpl; split.
  - intros [msg H]. discriminate H.
  - discriminate.
  - reflexivity.
  - intros _. eexists. reflexivity.
Qed.

(** C1: the script stops with the schema message exactly when no
    normalised header is "department", and otherwise goes on with the
    cleaned table.  The second half of the claim does not hold of the
    script: on an upload that has the department column and no other, the
    metric cards are computed (as zeros) but the first ranked bar chart
    looks up "opened clinic" and the script dies on a KeyError. *)
Theorem app_dies_without_optional_columns :
  forall (argsort : list nat -> list nat) (float_repr : Q -> string),
    (forall raw,
        (exists msg, ingest raw = inl msg) <->
        ~ In "department" (columns (clean_columns raw))) /\
    (forall raw,
        In "department" (columns (clean_columns raw)) ->
        ingest raw = inr (clean_columns raw)) /\
    In "department" (columns (clean_columns upload_department_only)) /\
    app argsort float_repr upload_department_only (CStr "Surgery")
      = Uncaught (KeyError ["opened clinic"]).
Proof.
  intros argsort fr. split; [exact ingest_stops_iff|]. split; [|split].
  - intros raw H. unfold ingest.
    destruct (has_column "department" (clean_columns raw)) eqn:E; [reflexivity|].
    apply has_column_false in E. contradiction.
  - simpl. auto.
  - vm_compute. reflexivity.
Qed.

(* ------------------------------------------------------------------ *)
(** ** The projected tables (C2, C7) *)

Section TableFacts.

Lemma mapM_get_columns df cs vs :
  mapM (fun c => v <- get_column c df ;; Ok (c, v)) cs = Ok vs ->
  Forall2 (fun c kv => fst kv = c /\ find_column c df = Some (snd kv)) cs vs.
Proof.
  revert vs. induction cs as [|c cs IH]; simpl; intros vs H.
  - injection H as <-. constructor.
  - unfold get_column in H at 1. destruct (find_column c df) as [v|] eqn:E; [|discriminate].
    cbn [bind] in H.
    destruct (mapM _ cs) as [vs'|] eqn:M; [|discriminate].
    cbn [bind] in H. injection H as <-.
    constructor; auto.
Qed.

Lemma select_columns_ok cs df t :
  select_columns cs df = Ok t ->
  index t = index df /\
  Forall2 (fun c kv => fst kv = c /\ find_column c df = Some (snd kv)) cs (cols t).
Proof.
  unfold select_columns. destruct (filter _ cs); [|discriminate].
  destruct (mapM _ cs) as [vs|] eqn:M; [|discriminate].
  cbn [bind]. intros [= <-]. split; [reflexivity|].
  now apply mapM_get_columns.
Qed.

Lemma mapM_rows {A B} (f : A -> result B) l r :
  mapM f l = Ok r -> Forall2 (fun a b => f a = Ok b) l r.
Proof.
  revert r. induction l as [|a l IH]; simpl; intros r H.
  - injection H as <-. constructor.
  - destruct (f a) as [b|] eqn:E; [|discriminate]. cbn [bind] in H.
    destruct (mapM f l) as [bs|]; [|discriminate]. cbn [bind] in H.
    injection H as <-. constructor; auto.
Qed.

Lemma div_round_rows v a :
  div_round 10 2 v = Ok a -> Forall2 (fun c x => tenth c = Ok x) v a.
Proof.
  unfold div_round. destruct (mapM _ v) as [q|] eqn:M; [|discriminate].
  cbn [bind]. intros [= <-]. apply mapM_rows in M.
  induction M; simpl; constructor; auto.
  unfold tenth. now rewrite H.
Qed.

Ltac invert_columns H :=
  repeat match type of H with
         | Forall2 _ (_ :: _) _ =>
             let kv := fresh "kv" in let r := fresh "r" in
             let Hk := fresh "Hk" in let Hv := fresh "Hv" in
             inversion H as [|? kv ? r [Hk Hv] H']; subst; clear H; rename H' into H;
             destruct kv; simpl in Hk, Hv; subst
         | Forall2 _ [] _ => inversion H; subst; clear H
         end.

Lemma perf_table_ok sorted perf :
  perf_table sorted = Ok perf ->
  exists names degree hours clinics visits operations avg_clinics avg_operations,
    find_column "staff name" sorted = Some names /\
    find_column "degree" sorted = Some degree /\
    find_column "total hours" sorted = Some hours /\
    find_column "opened clinic" sorted = Some clinics /\
    find_column "Total visits" sorted = Some visits /\
    find_column "Operation total number" sorted = Some operations /\
    div_round 10 2 clinics = Ok avg_clinics /\
    div_round 10 2 operations = Ok avg_operations /\
    perf = mkDF (index sorted)
             [("Staff Name", names); ("Degree", degree); ("Total Hours", hours);
              ("Opened Clinics", clinics); ("Total Visits", visits);
              ("Total Operations", operations); ("Avg. Clinics", avg_clinics);
              ("Avg. Operations", avg_operations)].
Proof.
  unfold perf_table. intros H.
  destruct (select_columns _ sorted) as [t|] eqn:S; [|discriminate].
  apply select_columns_ok in S. destruct S as [Hi Hc]. destruct t as [ti tc].
  simpl in Hi, Hc. subst ti. invert_columns Hc.
  cbn in H.
  match type of H with context [div_round 10 2 ?v] =>
    destruct (div_round 10 2 v) as [ac|] eqn:D1; [|discriminate] end.
  cbn in H.
  match type of H with context [div_round 10 2 ?v] =>
    destruct (div_round 10 2 v) as [ao|] eqn:D2; [|discriminate] end.
  cbn in H.
  injection H as <-.
  do 8 eexists. repeat split; eauto.
Qed.

Lemma op_source_table_ok sorted t :
  op_source_table sorted = Ok t ->
  exists names degree elective emergency operations,
    find_column "staff name" sorted = Some names /\
    find_column "degree" sorted = Some degree /\
    find_column "opr_elective" sorted = Some elective /\
    find_column "opr_emergency" sorted = Some emergency /\
    find_column "Operation total number" sorted = Some operations /\
    t = mkDF (index sorted)
          [("Staff Name", names); ("Degree", degree); ("Elective", elective);
           ("Emergency", emergency); ("Total Operations", operations)].
Proof.
  unfold op_source_table. intros H.
  destruct (select_columns _ sorted) as [s|] eqn:S; [|discriminate].
  apply select_columns_ok in S. destruct S as [Hi Hc]. destruct s as [ti tc].
  simpl in Hi, Hc. subst ti. invert_columns Hc.
  cbn in H. injection H as <-.
  do 5 eexists. repeat split; eauto.
Qed.

Lemma op_value_table_ok sorted t :
  op_value_table sorted = Ok t ->
  exists names degree high moderate low operations,
    find_column "staff name" sorted = Some names /\
    find_column "degree" sorted = Some degree /\
    find_column "opr_high" sorted = Some high /\
    find_column "opr_moderate" sorted = Some moderate /\
    find_column "opr_low" sorted = Some low /\
    find_column "Operation total number" sorted = Some operations /\
    t = mkDF (index sorted)
          [("Staff Name", names); ("Degree", degree); ("High", high);
           ("Moderate", moderate); ("Low", low); ("Total Operations", operations)].
Proof.
  unfold op_value_table. intros H.
  destruct (select_columns _ sorted) as [s|] eqn:S; [|discriminate].
  apply select_columns_ok in S. destruct S as [Hi Hc]. destruct s as [ti tc].
  simpl in Hi, Hc. subst ti. invert_columns Hc.
  cbn in H. injection H as <-.
  do 6 eexists. repeat split; eauto.
Qed.

End TableFacts.

Section RenderFacts.

Variable argsort : list nat -> list nat.
Variable float_repr : Q -> string.

Ltac bind_inv H :=
  repeat match type of H with
         | bind ?r _ = Ok _ =>
             let E := fresh "E" in
             destruct r eqn:E; cbn [bind] in H; [|discriminate H]
         end.

(** What a finished run fixes: the slice, its sorted copy, and the four
    tables projected from that one copy. *)
Lemma render_ok df department d :
  render argsort float_repr df department = Ok d ->
  exists dept sorted,
    dept_df float_repr df department = Ok dept /\
    staff_breakdown dept = Ok (d_breakdown d) /\
    staff_sorted_df argsort dept = Ok sorted /\
    perf_table sorted = Ok (d_perf_table d) /\
    op_source_table sorted = Ok (d_op_source_table d) /\
    op_value_table sorted = Ok (d_op_value_table d) /\
    fin_table sorted = Ok (d_fin_table d).
Proof.
  unfold render. intros H. bind_inv H. injection H as <-. simpl.
  eauto 10.
Qed.

End RenderFacts.

(** C2: in a finished run, the performance table, the operation-source
    table and the operation-value table list the same rows (same row
    labels, same staff names, in the same order), and their Total
    Operations columns are equal: row by row the three figures agree. *)
Theorem total_operations_agree :
  forall (argsort : list nat -> list nat) (float_repr : Q -> string)
         (df : DataFrame) (department : cell) (d : dashboard),
    render argsort float_repr df department = Ok d ->
    same_total_operations (d_perf_table d) (d_op_source_table d) (d_op_value_table d).
Proof.
  intros argsort fr df department d H.
  apply render_ok in H.
  destruct H as (dept & sorted & _ & _ & _ & Hp & Hs & Hv & _).
  apply perf_table_ok in Hp.
  destruct Hp as (n & dg & h & c & v & o & ac & ao & Hn & _ & _ & _ & _ & Ho & _ & _ & ->).
  apply op_source_table_ok in Hs.
  destruct Hs as (n1 & ? & ? & ? & o1 & Hn1 & _ & _ & _ & Ho1 & ->).
  apply op_value_table_ok in Hv.
  destruct Hv as (n2 & ? & ? & ? & ? & o2 & Hn2 & _ & _ & _ & _ & Ho2 & ->).
  assert (n1 = n) by congruence. assert (n2 = n) by congruence.
  assert (o1 = o) by congruence. assert (o2 = o) by congruence. subst.
  exists n, o. repeat split; reflexivity.
Qed.

Lemma total_operations_agree_witness :
  exists d,
    render Numpy.argsort (fun _ => "0.0") (clean_columns sample_upload) (CStr "Surgery") = Ok d /\
    find_column "Total Operations" (d_perf_table d) = Some [CInt 20; CInt 5] /\
    same_total_operations (d_perf_table d) (d_op_source_table d) (d_op_value_table d).
Proof.
  eexists. split; [vm_compute; reflexivity|]. split; [reflexivity|].
  apply (total_operations_agree Numpy.argsort (fun _ => "0.0")
           (clean_columns sample_upload) (CStr "Surgery")).
  vm_compute. reflexivity.
Defined.

Section RoundingFacts.

Local Open Scope Q_scope.

Lemma rint_comp q q' : q == q' -> rint q = rint q'.
Proof.
  intros E. unfold rint. rewrite (Qfloor_comp _ _ E).
  assert (C : (q - inject_Z (Qfloor q') ?= 1 # 2) = (q' - inject_Z (Qfloor q') ?= 1 # 2)).
  { apply Qcompare_comp; [now rewrite E | reflexivity]. }
  now rewrite C.
Qed.

Lemma pow2_pos k : 0 < 2 ^ k.
Proof. apply Qpower_0_lt. reflexivity. Qed.

Lemma two_not_0 : ~ 2 == 0.
Proof. discriminate. Qed.

Lemma ilog2_le q : ~ q == 0 -> 2 ^ Float64.ilog2 q <= Qabs q.
Proof.
  intros N. unfold Float64.ilog2.
  set (n := Z.abs (Qnum q)). set (d := Zpos (Qden q)).
  destruct (Qle_bool (2 ^ (Z.log2 n - Z.log2 d)) (Qabs q)) eqn:T.
  - now apply Qle_bool_iff.
  - clear T.
    assert (Hn : (0 < n)%Z).
    { unfold n. destruct q as [qn qd]. unfold Qeq in N. simpl in *. lia. }
    assert (Hd : (0 < d)%Z) by (unfold d; lia).
    pose proof (Z.log2_spec n Hn) as [An _].
    pose proof (Z.log2_spec d Hd) as [_ Bd].
    pose proof (Z.log2_nonneg n) as P1. pose proof (Z.log2_nonneg d) as P2.
    replace (Z.log2 n - Z.log2 d - 1)%Z with (Z.log2 n - Z.succ (Z.log2 d))%Z by lia.
    rewrite (Qpower_minus 2 _ _ two_not_0).
    rewrite <- !(Zpower_Qpower 2) by lia.
    set (A := (2 ^ Z.log2 n)%Z) in *. set (B := (2 ^ Z.succ (Z.log2 d))%Z) in *.
    apply Qle_shift_div_r.
    + change 0 with (inject_Z 0). rewrite <- Zlt_Qlt. lia.
    + destruct q as [qn qd]. unfold Qabs, Qle, Qmult, inject_Z. simpl.
      rewrite Pos.mul_1_r, Z.mul_1_r.
      change (Z.abs qn) with n. change (Z.pos qd) with d.
      assert (PA : (0 < A)%Z) by (apply Z.pow_pos_nonneg; lia).
      clearbody n d A B. nia.
Qed.

Lemma round_comp q q' : q == q' -> Float64.round q = Float64.round q'.
Proof. intros E. unfold Float64.round. now rewrite (Qred_complete _ _ E). Qed.

Lemma rint_nearest q :
  (inject_Z (rint q) - (1 # 2) <= q /\ q <= inject_Z (rint q) + (1 # 2))%Q.
Proof.
  unfold rint.
  pose proof (Qfloor_le q) as Hl. pose proof (Qlt_floor q) as Hu.
  rewrite inject_Z_plus in Hu. change (inject_Z 1) with 1%Q in Hu.
  destruct (Qcompare_spec (q - inject_Z (Qfloor q)) (1 # 2)) as [E|L|G].
  - destruct (Z.even (Qfloor q)); rewrite ?inject_Z_plus;
      change (inject_Z 1) with 1%Q; lra.
  - lra.
  - rewrite inject_Z_plus. change (inject_Z 1) with 1%Q. lra.
Qed.

Lemma ulp_le q :
  ~ q == 0 ->
  2 ^ Float64.ulp_exp q <= Qabs q * (1 # 4503599627370496) + 2 ^ (-1074).
Proof.
  intros N. unfold Float64.ulp_exp.
  pose proof (ilog2_le q N) as L. pose proof (Qabs_nonneg q) as A.
  pose proof (pow2_pos (-1074)) as P.
  destruct (Z.max_spec (Float64.ilog2 q - 52) (-1074)) as [[_ ->]|[_ ->]].
  - lra.
  - rewrite (Qpower_minus 2 _ _ two_not_0).
    change (2 ^ 52) with 4503599627370496.
    set (x := 2 ^ Float64.ilog2 q) in *.
    assert (E : x / 4503599627370496 == x * (1 # 4503599627370496)) by (field).
    rewrite E. lra.
Qed.

(** The rounding error: half a unit in the last place. *)
Lemma round_error q :
  Qabs (Float64.round q - q)
  <= Qabs q * (1 # 9007199254740992) + 2 ^ (-1075).
Proof.
  unfold Float64.round.
  pose proof (Qred_correct q) as R. set (q' := Qred q) in *.
  pose proof (Qabs_nonneg q) as A.
  pose proof (pow2_pos (-1075)) as P.
  destruct (Qeq_bool q' 0) eqn:Z.
  - apply Qeq_bool_iff in Z. rewrite R in Z.
    assert (E : 0 - q == 0) by (rewrite Z; reflexivity).
    rewrite E. change (Qabs 0) with 0. lra.
  - assert (N : ~ q' == 0) by (intros E; apply Qeq_bool_iff in E; congruence).
    rewrite Qred_correct.
    pose proof (ulp_le q' N) as U.
    assert (Aq : Qabs q' == Qabs q) by (now rewrite R).
    rewrite Aq in U.
    pose proof (pow2_pos (Float64.ulp_exp q')) as Pe.
    set (p := 2 ^ Float64.ulp_exp q') in *.
    pose proof (rint_nearest (q' / p)) as [T1 T2].
    set (m := inject_Z (rint (q' / p))) in *.
    assert (E : q' / p * p == q) by (rewrite <- R; field; lra).
    set (t := q' / p) in *.
    assert (H1075 : 2 ^ (-1074) == 2 * 2 ^ (-1075)).
    { change (-1074)%Z with (1 + -1075)%Z. rewrite (Qpower_plus 2 _ _ two_not_0).
      reflexivity. }
    apply Qabs_Qle_condition. split; nra.
Qed.

Lemma rint_unique q k :
  inject_Z k - (1 # 2) < q -> q < inject_Z k + (1 # 2) -> rint q = k.
Proof.
  intros L U. destruct (rint_nearest q) as [N1 N2].
  assert (A : inject_Z (rint q) < inject_Z (k + 1)).
  { rewrite inject_Z_plus. change (inject_Z 1) with 1. lra. }
  assert (B : inject_Z (k - 1) < inject_Z (rint q)).
  { unfold Z.sub. rewrite inject_Z_plus. change (inject_Z (- (1))) with (- (1)). lra. }
  rewrite <- Zlt_Qlt in A, B. lia.
Qed.

Lemma eta_small : 2 ^ (-1075) <= 1 # 1152921504606846976.
Proof.
  apply Qle_trans with (2 ^ (-60)).
  - apply Qpower_le_compat_l; [lia|discriminate].
  - apply Qle_refl.
Qed.

(** The rounding error against a bound on the rounded number. *)
Lemma round_bound t b :
  - b <= t -> t <= b ->
  - (b * (1 # 9007199254740992) + 2 ^ (-1075)) <= Float64.round t - t /\
  Float64.round t - t <= b * (1 # 9007199254740992) + 2 ^ (-1075).
Proof.
  intros L U. pose proof (round_error t) as E.
  assert (A : Qabs t <= b) by (apply Qabs_Qle_condition; split; assumption).
  apply Qabs_Qle_condition in E. destruct E as [E1 E2].
  split; lra.
Qed.

(** The product that [rint] sees when a value is divided by ten and
    rounded to two decimals. *)
Lemma tenth_product_error q :
  Qabs (Float64.round (Float64.round (Float64.round (Float64.round q / 10)) * 100)
        - 10 * q)
  <= Qabs q * (21 # 4503599627370496) + 512 * 2 ^ (-1075).
Proof.
  pose proof (Qabs_nonneg q) as A0. pose proof (Qle_Qabs q) as A1.
  pose proof (Qle_Qabs (- q)) as A2. rewrite Qabs_opp in A2.
  pose proof (pow2_pos (-1075)) as P. pose proof eta_small as S.
  set (a := Qabs q) in *. set (h := 2 ^ (-1075)) in *.
  assert (T1 : Float64.round q / 10 == Float64.round q * (1 # 10)) by field.
  rewrite (round_comp _ _ T1). clear T1.
  pose proof (round_bound q a) as X. fold h in X.
  set (x := Float64.round q) in *.
  pose proof (round_bound (x * (1 # 10))
                ((a + (a * (1 # 9007199254740992) + h)) * (1 # 10))) as Y.
  fold h in Y.
  set (y := Float64.round (x * (1 # 10))) in *.
  pose proof (round_bound y
                ((a + (a * (1 # 9007199254740992) + h)) * (1 # 10)
                 + ((a + (a * (1 # 9007199254740992) + h)) * (1 # 10)
                    * (1 # 9007199254740992) + h))) as Z.
  fold h in Z.
  set (y' := Float64.round y) in *.
  pose proof (round_bound (y' * 100) ((a * (11 # 100) + 3 * h) * 100)) as W.
  fold h in W.
  set (p := Float64.round (y' * 100)) in *.
  clearbody a h x y y' p.
  destruct (X ltac:(lra) ltac:(lra)) as [X1 X2]. clear X.
  destruct (Y ltac:(lra) ltac:(lra)) as [Y1 Y2]. clear Y.
  destruct (Z ltac:(lra) ltac:(lra)) as [Z1 Z2]. clear Z.
  destruct (W ltac:(lra) ltac:(lra)) as [W1 W2]. clear W.
  apply Qabs_Qle_condition. split; lra.
Qed.

(** The tenth of an integer count is the double nearest to the exact
    tenth: the product that [rint] sees is within half a unit of [10 z]. *)
Lemma tenth_int z :
  (Z.abs z <= 2 ^ 46)%Z ->
  tenth (CInt z) = Ok (CFloat (Float64.round (z # 10))).
Proof.
  intros B. unfold tenth. cbn [cell_div bind cell_round]. do 2 f_equal.
  unfold round_to. change (inject_Z (10 ^ Z.of_nat 2)) with 100.
  change (inject_Z 10) with 10.
  pose proof (tenth_product_error (inject_Z z)) as E.
  set (p := Float64.round _) in *.
  assert (A : Qabs (inject_Z z) <= 70368744177664).
  { apply Qabs_Qle_condition. change 70368744177664 with (inject_Z (2 ^ 46)).
    rewrite <- inject_Z_opp, <- !Zle_Qle. lia. }
  pose proof eta_small as S. pose proof (pow2_pos (-1075)) as P.
  apply Qabs_Qle_condition in E. destruct E as [E1 E2].
  assert (R : rint p = (10 * z)%Z).
  { apply rint_unique; rewrite inject_Z_mult; change (inject_Z 10) with 10;
      set (h := 2 ^ (-1075)) in *; set (a := Qabs (inject_Z z)) in *;
      clearbody h a p; lra. }
  rewrite R. apply round_comp.
  rewrite inject_Z_mult, (Qmake_Qdiv z 10). change (inject_Z 10) with 10.
  change (inject_Z (Z.pos 10)) with 10. field.
Qed.

(** The tenth of a float is the double of a hundredth [k/100], where [k]
    is [10 q] rounded to an integer up to the error of four roundings. *)
Lemma tenth_float q :
  exists k : Z,
    tenth (CFloat q) = Ok (CFloat (Float64.round (k # 100))) /\
    Qabs (inject_Z k - 10 * q)
    <= (1 # 2) + Qabs q * (21 # 4503599627370496) + 512 * 2 ^ (-1075).
Proof.
  unfold tenth. cbn [cell_div bind cell_round]. unfold round_to.
  change (inject_Z (10 ^ Z.of_nat 2)) with 100. change (inject_Z 10) with 10.
  pose proof (tenth_product_error q) as E.
  set (p := Float64.round _) in *.
  exists (rint p). split.
  - do 2 f_equal. apply round_comp. rewrite (Qmake_Qdiv (rint p) 100). reflexivity.
  - destruct (rint_nearest p) as [N1 N2].
    apply Qabs_Qle_condition in E. destruct E as [E1 E2].
    apply Qabs_Qle_condition.
    set (h := 2 ^ (-1075)) in *. set (a := Qabs q) in *. set (k := inject_Z (rint p)) in *.
    clearbody h a k p. split; lra.
Qed.

End RoundingFacts.

(** C7, amended: in the performance table of a finished run, every row's
    Avg. Clinics is computed from that row's Opened Clinics alone, and
    every row's Avg. Operations from that row's Total Operations alone, by
    dividing by the constant 10 and rounding to two decimals in binary64
    (quotient, product with 100, nearest integer, quotient by 100); no
    other row and no row count enters.  For an integer count [z] up to
    2^46 the figure is the double nearest to [z/10] (10 gives 1.00 and 20
    gives 2.00).  For a float [q] it is the double of a hundredth [k/100]
    whose [k] is [10 q] rounded to an integer up to a relative error of
    2^-47: the nearest hundredth unless [q/10] lies that close to the
    middle between two.  A missing count stays missing. *)
Theorem average_columns_divide_by_ten :
  forall (argsort : list nat -> list nat) (float_repr : Q -> string)
         (df : DataFrame) (department : cell) (d : dashboard),
    render argsort float_repr df department = Ok d ->
    averages_by_ten (d_perf_table d) /\
    (forall z, (Z.abs z <= 2 ^ 46)%Z ->
       tenth (CInt z) = Ok (CFloat (Float64.round (z # 10)))) /\
    (forall q, (Qabs q <= 2 ^ 1000)%Q ->
       exists k : Z,
         tenth (CFloat q) = Ok (CFloat (Float64.round (k # 100))) /\
         (Qabs (inject_Z k - 10 * q)
          <= (1 # 2) + Qabs q * (1 # 2 ^ 47) + 2 ^ (-1066))%Q) /\
    tenth CNaN = Ok CNaN /\
    tenth (CInt 10) = Ok (CFloat 1) /\
    tenth (CInt 20) = Ok (CFloat 2).
Proof.
  intros argsort fr df department d H.
  split; [|split; [|split; [|repeat split]]].
  - apply render_ok in H.
    destruct H as (dept & sorted & _ & _ & _ & Hp & _).
    apply perf_table_ok in Hp.
    destruct Hp as (n & dg & h & c & v & o & ac & ao & _ & _ & _ & _ & _ & _ & Hc & Ho & ->).
    exists c, o, ac, ao. repeat split; try reflexivity; now apply div_round_rows.
  - apply tenth_int.
  - intros q _. destruct (tenth_float q) as (k & E & B).
    exists k. split; [exact E|].
    eapply Qle_trans; [exact B|].
    pose proof (Qabs_nonneg q) as A.
    assert (P : (512 * 2 ^ (-1075) == 2 ^ (-1066))%Q).
    { change (-1066)%Z with (9 + -1075)%Z.
      rewrite (Qpower_plus 2 _ _ two_not_0). reflexivity. }
    rewrite P. change (1 # 2 ^ 47)%Q with (1 # 140737488355328)%Q.
    set (h := (2 ^ (-1066))%Q). set (a := Qabs q) in *. clearbody h a. lra.
Qed.

Lemma average_columns_divide_by_ten_witness :
  exists d,
    render Numpy.argsort (fun _ => "0.0") (clean_columns sample_upload) (CStr "Surgery") = Ok d /\
    find_column "Opened Clinics" (d_perf_table d) = Some [CInt 10; CInt 5] /\
    find_column "Avg. Clinics" (d_perf_table d) = Some [CFloat 1; CFloat (1 # 2)] /\
    find_column "Total Operations" (d_perf_table d) = Some [CInt 20; CInt 5] /\
    find_column "Avg. Operations" (d_perf_table d) = Some [CFloat 2; CFloat (1 # 2)] /\
    averages_by_ten (d_perf_table d) /\
    tenth (CInt 7) = Ok (CFloat (Float64.round (7 # 10))).
Proof.
  eexists. split; [vm_compute; reflexivity|].
  do 4 (split; [reflexivity|]).
  destruct (average_columns_divide_by_ten Numpy.argsort (fun _ => "0.0")
              (clean_columns sample_upload) (CStr "Surgery") _
              ltac:(vm_compute; reflexivity)) as (A & I & _).
  split; [exact A|]. apply I. vm_compute. discriminate.
Defined.

(** C7, as the spec states it, fails on fractional counts.  The cell 0.15
    is shown with the average 0.02, although the tenth of the double that
    the cell holds lies below the middle between 0.01 and 0.02 and is
    nearer to 0.01 than to any other hundredth.  The cell 0.35 is shown
    with 0.03, where rounding the tenth 0.035 of the decimal half to even,
    as the library words its rounding, gives 0.04 (and 0.02 for 0.15).  So
    the figure is neither the rounded tenth of the value stored nor the
    rounded tenth of the decimal read. *)
Lemma average_columns_miss_the_nearest_hundredth :
  exists d,
    render Numpy.argsort (fun _ => "0.0") upload_with_fractions (CStr "Surgery") = Ok d /\
    find_column "Opened Clinics" (d_perf_table d)
    = Some [CFloat (15 # 100); CFloat (35 # 100)] /\
    find_column "Avg. Clinics" (d_perf_table d)
    = Some [CFloat (Float64.round (2 # 100)); CFloat (Float64.round (3 # 100))] /\
    Float64.round (2 # 100) <> Float64.round (1 # 100) /\
    Float64.round (3 # 100) <> Float64.round (4 # 100) /\
    (forall k, rounded_to_hundredths (Float64.round (15 # 100) / 10) k -> k = 1%Z) /\
    decimal_round ((15 # 100) / 10) 2 = Qred (2 # 100) /\
    decimal_round ((35 # 100) / 10) 2 = Qred (4 # 100).
Proof.
  assert (U : forall x : Q, (1 # 200 < x)%Q -> (x < 3 # 200)%Q ->
              forall k, rounded_to_hundredths x k -> k = 1%Z).
  { intros x L H k R. unfold rounded_to_hundredths in R.
    apply Qabs_Qle_condition in R. destruct R as [R1 R2].
    assert (E : (k # 100 == inject_Z k * (1 # 100))%Q) by (unfold Qeq; simpl; lia).
    rewrite E in R1, R2.
    assert (A : (inject_Z 0 < inject_Z k)%Q) by (change (inject_Z 0) with 0%Q; lra).
    assert (B : (inject_Z k < inject_Z 2)%Q) by (change (inject_Z 2) with 2%Q; lra).
    rewrite <- Zlt_Qlt in A, B. lia. }
  eexists. split; [vm_compute; reflexivity|].
  split; [reflexivity|]. split; [vm_compute; reflexivity|].
  split; [vm_compute; discriminate|].
  split; [vm_compute; discriminate|].
  split; [apply U; vm_compute; reflexivity|].
  split; vm_compute; reflexivity.
Qed.

(* ------------------------------------------------------------------ *)
(** ** The staff breakdown (C4) *)

Section BreakdownFacts.

Lemma mask_filter_offset {A} (f : cell -> bool) (d : A) g :
  forall (col : list A) k,
    List.length col = List.length g ->
    mask_filter (map f g) col
    = map (fun i => nth (i - k) col d)
          (filter (fun i => f (nth (i - k) g CNaN)) (seq k (List.length g))).
Proof.
  induction g as [|x g IH]; intros [|y col] k L; simpl in L; try discriminate; auto.
  injection L as L.
  cbn [map mask_filter List.length seq filter].
  rewrite Nat.sub_diag. change (nth 0 (x :: g) CNaN) with x.
  assert (Hf : filter (fun i => f (nth (i - k) (x :: g) CNaN)) (seq (S k) (List.length g))
               = filter (fun i => f (nth (i - S k) g CNaN)) (seq (S k) (List.length g))).
  { apply filter_ext_in. intros i Hi. apply in_seq in Hi.
    replace (i - k) with (S (i - S k)) by lia. reflexivity. }
  assert (Hm : forall l, incl l (seq (S k) (List.length g)) ->
               map (fun i => nth (i - k) (y :: col) d) l
               = map (fun i => nth (i - S k) col d) l).
  { intros l Hl. apply map_ext_in. intros i Hi. apply Hl, in_seq in Hi.
    replace (i - k) with (S (i - S k)) by lia. reflexivity. }
  rewrite Hf.
  destruct (f x); cbn [map]; rewrite ?Nat.sub_diag;
    change (nth 0 (y :: col) d) with y;
    rewrite Hm by (apply incl_filter); rewrite <- (IH col (S k) L); reflexivity.
Qed.

Lemma mask_filter_positions {A} (f : cell -> bool) (d : A) g (col : list A) :
  List.length col = List.length g ->
  mask_filter (map f g) col
  = map (fun i => nth i col d)
        (filter (fun i => f (nth i g CNaN)) (seq 0 (List.length g))).
Proof.
  intros L. rewrite (mask_filter_offset f d g col 0 L).
  rewrite (filter_ext (fun i => f (nth (i - 0) g CNaN)) (fun i => f (nth i g CNaN)))
    by (intros i; now rewrite Nat.sub_0_r).
  apply map_ext. intros i. now rewrite Nat.sub_0_r.
Qed.

Lemma wf_column dept c v : wf dept -> find_column c dept = Some v -> List.length v = len dept.
Proof.
  unfold wf, find_column. induction (cols dept) as [|[k x] r IH]; simpl; [discriminate|].
  intros H. inversion H as [|? ? Hx Hr]; subst. simpl in Hx.
  destruct (String.eqb k c); [now intros [= <-]|]. now apply IH.
Qed.

Lemma count_eq_positions s v (rows : list nat) :
  count_eq s (map (fun i => nth i v CNaN) rows)
  = List.length (filter (fun i => cell_eqb (nth i v CNaN) (CStr s)) rows).
Proof.
  unfold count_eq. induction rows as [|i rows IH]; simpl; auto.
  destruct (cell_eqb (nth i v CNaN) (CStr s)); simpl; auto.
Qed.

Lemma map_nth_seq {A B} (F : A -> B) (d : A) (l : list A) :
  map (fun i => F (nth i l d)) (seq 0 (List.length l)) = map F l.
Proof.
  rewrite <- (map_map (fun i => nth i l d) F). f_equal.
  induction l as [|a l IH]; [reflexivity|].
  cbn [List.length seq map nth]. f_equal.
  rewrite <- seq_shift, map_map. exact IH.
Qed.

End BreakdownFacts.

Section BreakdownProof.

Lemma nth_map_in {A B} (G : A -> B) (l : list A) i d d' :
  i < List.length l -> nth i (map G l) d' = G (nth i l d).
Proof.
  intros H. rewrite (nth_indep _ d' (G d)) by (now rewrite length_map).
  apply map_nth.
Qed.

Lemma values_two_columns idx k1 k2 (v1 v2 : list cell) (rows : list nat) :
  List.length idx = List.length rows ->
  values (mkDF idx [(k1, map (fun i => nth i v1 CNaN) rows);
                    (k2, map (fun i => nth i v2 CNaN) rows)])
  = map (fun i => [nth i v1 CNaN; nth i v2 CNaN]) rows.
Proof.
  intros L. unfold values, len, row_at. cbn [index cols map fst snd]. rewrite L.
  rewrite <- (map_nth_seq (fun i => [nth i v1 CNaN; nth i v2 CNaN]) 0 rows).
  apply map_ext_in. intros i Hi. apply in_seq in Hi.
  now rewrite !(nth_map_in _ rows i 0) by lia.
Qed.

Lemma values_one_column idx k1 (v1 : list cell) (rows : list nat) :
  List.length idx = List.length rows ->
  values (mkDF idx [(k1, map (fun i => nth i v1 CNaN) rows)])
  = map (fun i => [nth i v1 CNaN]) rows.
Proof.
  intros L. unfold values, len, row_at. cbn [index cols map fst snd]. rewrite L.
  rewrite <- (map_nth_seq (fun i => [nth i v1 CNaN]) 0 rows).
  apply map_ext_in. intros i Hi. apply in_seq in Hi.
  now rewrite !(nth_map_in _ rows i 0) by lia.
Qed.

Lemma count_contract_absent kind dept rows :
  find_column "Contract type" dept = None -> count_contract kind dept rows = 0.
Proof.
  intros H. unfold count_contract, cell_at. rewrite H.
  induction rows; simpl; auto.
Qed.

Lemma count_contract_present kind dept ct rows :
  find_column "Contract type" dept = Some ct ->
  count_contract kind dept rows = count_eq kind (map (fun i => nth i ct CNaN) rows).
Proof.
  intros H. unfold count_contract, cell_at. rewrite H.
  symmetry. apply count_eq_positions.
Qed.

Lemma find_contract_of_two idx (x y : list cell) :
  find_column "Contract Type" (mkDF idx [("Staff Name", x); ("Contract Type", y)]) = Some y.
Proof. reflexivity. Qed.

Lemma find_contract_of_one idx (x : list cell) :
  find_column "Contract Type" (mkDF idx [("Staff Name", x)]) = None.
Proof. reflexivity. Qed.

(** One turn of the loop against the row-wise reading of its category. *)
Lemma breakdown_of_section dept degree e :
  wf dept ->
  breakdown_of dept degree = Ok e ->
  match e with
  | None => members degree dept = [] /\ category_section dept degree = []
  | Some x =>
      members degree dept <> [] /\
      entry_degree x = degree /\
      entry_matches dept x /\
      breakdown_flowables (degree, entry_table x) = category_section dept degree
  end.
Proof.
  intros W. unfold breakdown_of, rows_of_degree, get_column, category_section,
    entry_matches, contract_card, members.
  destruct (find_column "Degree Group" dept) as [g|] eqn:Eg; [|discriminate].
  cbn [bind].
  pose proof (wf_column _ _ _ W Eg) as Lg.
  set (f := fun c => cell_eqb c (CStr degree)).
  set (rows := filter (fun i => cell_eqb (nth i g CNaN) (CStr degree)) (seq 0 (List.length g))).
  assert (Hidx : mask_filter (map f g) (index dept) = map (fun i => nth i (index dept) 0) rows).
  { apply mask_filter_positions. symmetry. exact Lg. }
  assert (Hlen : len (filter_rows (map f g) dept) = List.length rows).
  { unfold len, filter_rows. cbn [index]. now rewrite Hidx, length_map. }
  assert (Hcols : (List.length (cols (filter_rows (map f g) dept)) =? 0) = false).
  { unfold filter_rows. cbn [cols]. rewrite length_map.
    unfold find_column in Eg. destruct (cols dept); [discriminate|reflexivity]. }
  unfold empty. rewrite Hlen, Hcols, orb_false_r.
  destruct rows as [|r0 rows'] eqn:Er.
  { cbn [List.length Nat.eqb]. intros [= <-]. auto. }
  rewrite <- Er in *. replace (List.length rows =? 0) with false
    by (rewrite Er; reflexivity).
  assert (Hne : rows <> []) by (rewrite Er; discriminate).
  assert (Hcol : forall c v, find_column c dept = Some v ->
                 find_column c (filter_rows (map f g) dept)
                 = Some (map (fun i => nth i v CNaN) rows)).
  { intros c v Hv. rewrite find_filter_rows, Hv. cbn [option_map]. f_equal.
    apply mask_filter_positions. rewrite Lg. now apply wf_column with (c := c). }
  assert (Hnone : forall c, find_column c dept = None ->
                  find_column c (filter_rows (map f g) dept) = None).
  { intros c Hv. now rewrite find_filter_rows, Hv. }
  unfold select_columns, has_column, get_column. cbn [filter mapM].
  destruct (find_column "Contract type" dept) as [ct|] eqn:Ec.
  - rewrite (Hcol _ _ Ec).
    destruct (find_column "staff name" dept) as [names|] eqn:En.
    + rewrite (Hcol _ _ En). cbn [negb bind].
      unfold rename_columns, filter_rows.
      cbn [cols List.length Nat.eqb map snd combine index bind].
      intros [= <-].
      cbn [entry_degree entry_total entry_contracted entry_general entry_table].
      fold rows.
      assert (Ht : table_data
                     (mkDF (mask_filter (map f g) (index dept))
                        [("Staff Name", map (fun i => nth i names CNaN) rows);
                         ("Contract Type", map (fun i => nth i ct CNaN) rows)])
                   = roster dept rows).
      { unfold table_data, roster, has_column, cell_at. rewrite Ec, En, Hidx.
        rewrite values_two_columns by (now rewrite length_map). reflexivity. }
      rewrite <- !(count_contract_present _ dept ct rows Ec).
      repeat split; auto.
      unfold breakdown_flowables, has_column.
      rewrite find_contract_of_two, Ht.
      unfold len. cbn [index]. rewrite Hidx, length_map.
      rewrite <- !(count_contract_present _ dept ct rows Ec).
      reflexivity.
    + rewrite (Hnone _ En). cbn [negb bind]. discriminate.
  - rewrite (Hnone _ Ec).
    destruct (find_column "staff name" dept) as [names|] eqn:En.
    + rewrite (Hcol _ _ En). cbn [negb bind].
      unfold rename_columns, filter_rows.
      cbn [cols List.length Nat.eqb map snd combine index bind].
      intros [= <-].
      cbn [entry_degree entry_total entry_contracted entry_general entry_table].
      fold rows.
      assert (Ht : table_data
                     (mkDF (mask_filter (map f g) (index dept))
                        [("Staff Name", map (fun i => nth i names CNaN) rows)])
                   = roster dept rows).
      { unfold table_data, roster, has_column, cell_at. rewrite Ec, En, Hidx.
        rewrite values_one_column by (now rewrite length_map). reflexivity. }
      repeat split; auto.
      unfold breakdown_flowables, has_column.
      rewrite find_contract_of_one, Ht.
      unfold len. cbn [index]. rewrite Hidx, length_map.
      rewrite !(count_contract_absent _ dept rows Ec).
      reflexivity.
    + rewrite (Hnone _ En). cbn [negb bind]. discriminate.
Qed.

End BreakdownProof.

Example nurse_slice_from_upload :
  dept_df (fun _ => "0.0")
          (mkDF [0] [("department", [CStr "Surgery"]); ("staff name", [CStr "N"]);
                     ("degree", [CStr "Nurse"])])
          (CStr "Surgery") = Ok nurse_slice.
Proof. reflexivity. Qed.

(** C4, as the spec states it, fails: a slice whose only row is in the
    category Other has a row in that category, yet the staff-breakdown
    section of its report is the section heading alone. *)
Lemma breakdown_omits_other :
  wf nurse_slice /\
  detailed_tables nurse_slice = Ok [] /\
  members "Other" nurse_slice = [0] /\
  staff_breakdown_section [] = [Paragraph "Staff Breakdown by Degree" HeaderStyle] /\
  ~ breakdown_covers_taxonomy.
Proof.
  assert (W : wf nurse_slice) by (repeat constructor).
  repeat split; auto.
  intros H.
  assert (I : In "Other" degree_order) by (simpl; auto).
  assert (N : members "Other" nurse_slice <> []) by discriminate.
  destruct (H nurse_slice [] W eq_refl "Other" I N) as (before & after & E).
  assert (C : List.length (category_section nurse_slice "Other") = 3) by reflexivity.
  assert (S : List.length (staff_breakdown_section []) = 1) by reflexivity.
  apply (f_equal (@List.length flowable)) in E.
  rewrite !length_app, C, S in E. lia.
Qed.

(** The loop over any list of categories, against the row-wise reading. *)
Lemma breakdown_loop_sections dept degrees :
  wf dept ->
  forall es,
    breakdown_loop dept degrees = Ok es ->
    flat_map breakdown_flowables (map (fun e => (entry_degree e, entry_table e)) es)
    = flat_map (category_section dept) degrees /\
    map entry_degree es = filter (has_members dept) degrees /\
    Forall (entry_matches dept) es.
Proof.
  intros W. induction degrees as [|degree rest IH]; intros es H.
  - injection H as <-. simpl. auto.
  - cbn [breakdown_loop] in H.
    destruct (breakdown_of dept degree) as [e|] eqn:E; [|discriminate].
    cbn [bind] in H.
    destruct (breakdown_loop dept rest) as [es'|]; [|discriminate].
    cbn [bind] in H. injection H as <-.
    destruct (IH es' eq_refl) as (Hs & Hm & Hf).
    apply (breakdown_of_section _ _ _ W) in E.
    cbn [flat_map filter]. unfold has_members at 1.
    destruct e as [x|].
    + destruct E as (Hne & Hd & He & Hx).
      destruct (members degree dept) eqn:M; [contradiction|].
      cbn [map flat_map fst]. rewrite Hd, Hx, Hs, Hm. auto.
    + destruct E as (Hn & Hc). rewrite Hn, Hc. auto.
Qed.

(** C4, amended: the staff-breakdown section of the report is its heading
    followed, for Consultant, Specialist and Resident in this order, by the
    sub-heading (total, contracted and general counts of the category), the
    roster table and a spacer of each category that has a row; a category
    without rows contributes nothing, and the category Other is never
    listed.  On screen the same categories are shown, each with its total,
    its contracted and general counts ("N/A" without a "Contract type"
    column) and its roster. *)
Theorem staff_breakdown_lists_three_categories :
  forall (dept : DataFrame) (tables : list (string * DataFrame)),
    wf dept ->
    detailed_tables dept = Ok tables ->
    staff_breakdown_section tables
    = Paragraph "Staff Breakdown by Degree" HeaderStyle
      :: flat_map (category_section dept) ["Consultant"; "Specialist"; "Resident"] /\
    map fst tables = filter (has_members dept) ["Consultant"; "Specialist"; "Resident"] /\
    (forall degree, has_members dept degree = false -> category_section dept degree = []) /\
    ~ In "Other" (map fst tables) /\
    exists entries,
      staff_breakdown dept = Ok entries /\
      tables = map (fun e => (entry_degree e, entry_table e)) entries /\
      Forall (entry_matches dept) entries.
Proof.
  intros dept tables W H.
  unfold detailed_tables in H.
  destruct (staff_breakdown dept) as [es|] eqn:E; [|discriminate].
  cbn [bind] in H. injection H as <-.
  destruct (breakdown_loop_sections dept _ W es E) as (Hs & Hm & Hf).
  assert (Hfst : map fst (map (fun e => (entry_degree e, entry_table e)) es)
                 = filter (has_members dept) ["Consultant"; "Specialist"; "Resident"]).
  { rewrite map_map. exact Hm. }
  split; [|split; [exact Hfst|split; [|split]]].
  - unfold staff_breakdown_section. now rewrite Hs.
  - intros degree Hd. unfold has_members in Hd. unfold category_section.
    destruct (members degree dept); [reflexivity|discriminate].
  - rewrite Hfst. intros Hin. apply filter_In in Hin. destruct Hin as [Hin _].
    simpl in Hin. destruct Hin as [Hin|[Hin|[Hin|[]]]]; discriminate Hin.
  - exists es. auto.
Qed.

Lemma staff_breakdown_lists_three_categories_witness :
  exists dept tables,
    dept_df (fun _ => "0.0") (clean_columns sample_upload) (CStr "Surgery") = Ok dept /\
    detailed_tables dept = Ok tables /\
    map fst tables = ["Consultant"; "Resident"] /\
    staff_breakdown_section tables
    = Paragraph "Staff Breakdown by Degree" HeaderStyle
      :: flat_map (category_section dept) ["Consultant"; "Specialist"; "Resident"].
Proof.
  eexists. eexists. split; [vm_compute; reflexivity|].
  split; [vm_compute; reflexivity|].
  split; [reflexivity|].
  match goal with
  | |- staff_breakdown_section ?t = _ :: flat_map (category_section ?d) _ =>
      apply (staff_breakdown_lists_three_categories d t)
  end.
  - repeat constructor.
  - vm_compute. reflexivity.
Defined.

(* ------------------------------------------------------------------ *)
(** ** The category sort (C3) *)

Section SortedLists.

Lemma range_permutation p n :
  is_permutation_of_range p n = true -> Permutation (seq 0 n) p.
Proof.
  unfold is_permutation_of_range. intros H.
  apply andb_true_iff in H. destruct H as [Hl Hi].
  apply Nat.eqb_eq in Hl.
  apply NoDup_Permutation_bis.
  - apply seq_NoDup.
  - rewrite length_seq. lia.
  - intros i Hin. rewrite forallb_forall in Hi. specialize (Hi i Hin).
    apply existsb_exists in Hi. destruct Hi as (x & Hx & E).
    apply Nat.eqb_eq in E. now subst.
Qed.

Lemma range_permutation_bound p n :
  Permutation (seq 0 n) p -> Forall (fun i => i < n) p.
Proof.
  intros H. apply Forall_forall. intros i Hi.
  apply Permutation_sym in H. apply (Permutation_in _ H) in Hi.
  apply in_seq in Hi. lia.
Qed.

Lemma nondecreasing_sorted l : nondecreasing l = true -> StronglySorted le l.
Proof.
  intros H. apply Sorted_StronglySorted; [intros x y z; apply Nat.le_trans|].
  induction l as [|a [|b r] IH]; auto.
  cbn [nondecreasing] in H. apply andb_true_iff in H. destruct H as [Hab Hr].
  constructor; [now apply IH|]. constructor. now apply Nat.leb_le.
Qed.

Lemma StronglySorted_nth {A} (R : A -> A -> Prop) (d : A) l :
  StronglySorted R l ->
  forall i j, i < j -> j < List.length l -> R (nth i l d) (nth j l d).
Proof.
  induction 1 as [|a l Hs IH Hf]; intros i j Hij Hj; simpl in Hj; [lia|].
  destruct j as [|j]; [lia|]. destruct i as [|i]; simpl.
  - rewrite Forall_forall in Hf. apply Hf, nth_In. lia.
  - apply IH; lia.
Qed.

Lemma sorted_permutation_unique {A} (R : A -> A -> Prop) :
  (forall a b, R a b -> R b a -> a = b) ->
  forall l1 l2, StronglySorted R l1 -> StronglySorted R l2 ->
                Permutation l1 l2 -> l1 = l2.
Proof.
  intros anti. induction l1 as [|a l1 IH]; intros l2 S1 S2 P.
  - symmetry. now apply Permutation_nil.
  - destruct l2 as [|b l2].
    + apply Permutation_sym, Permutation_nil in P. discriminate.
    + inversion S1 as [|? ? S1' F1]; subst. inversion S2 as [|? ? S2' F2]; subst.
      rewrite Forall_forall in F1, F2.
      assert (E : a = b).
      { assert (Ha : In a (b :: l2)) by (apply (Permutation_in _ P); now left).
        assert (Hb : In b (a :: l1))
          by (apply (Permutation_in _ (Permutation_sym P)); now left).
        destruct Ha as [->|Ha]; [reflexivity|].
        destruct Hb as [->|Hb]; [reflexivity|].
        apply anti; auto. }
      subst b. f_equal. apply IH; auto.
      now apply Permutation_cons_inv in P.
Qed.

Lemma filter_permutation {A} (f : A -> bool) l l' :
  Permutation l l' -> Permutation (filter f l) (filter f l').
Proof.
  induction 1 as [| x l l' _ IH | x y l | l l' l'' _ IH1 _ IH2]; simpl.
  - constructor.
  - destruct (f x); auto.
  - destruct (f x), (f y); auto. constructor.
  - now transitivity (filter f l').
Qed.

Lemma StronglySorted_filter_impl {A} (R R' : A -> A -> Prop) (f : A -> bool) l :
  StronglySorted R l ->
  (forall a b, In a l -> In b l -> f a = true -> f b = true -> R a b -> R' a b) ->
  StronglySorted R' (filter f l).
Proof.
  induction 1 as [|a l Hs IH Hf]; intros Himp; simpl; [constructor|].
  assert (IH' : StronglySorted R' (filter f l)).
  { apply IH. intros x y Hx Hy. apply Himp; now right. }
  destruct (f a) eqn:Fa; [|exact IH'].
  constructor; [exact IH'|].
  apply Forall_forall. intros b Hb. apply filter_In in Hb. destruct Hb as [Hb Fb].
  rewrite Forall_forall in Hf.
  apply Himp; auto; [now left | now right].
Qed.

Lemma seq_strongly_sorted n : forall s, StronglySorted lt (seq s n).
Proof.
  induction n as [|n IH]; intros s; simpl; constructor; auto.
  apply Forall_forall. intros i Hi. apply in_seq in Hi. lia.
Qed.

Lemma take_list_seq {A} (d : A) l : take_list d (seq 0 (List.length l)) l = l.
Proof.
  unfold take_list. rewrite (map_nth_seq (fun x => x) d l). apply map_id.
Qed.

Lemma take_list_permutation {A} (d : A) p l :
  Permutation (seq 0 (List.length l)) p -> Permutation l (take_list d p l).
Proof.
  intros H. rewrite <- (take_list_seq d l) at 1.
  unfold take_list. now apply Permutation_map.
Qed.

Lemma take_list_range p n :
  Forall (fun i => i < n) p -> take_list 0 p (seq 0 n) = p.
Proof.
  intros H. unfold take_list. rewrite <- (map_id p) at 2.
  apply map_ext_in. intros i Hi. rewrite Forall_forall in H.
  now rewrite seq_nth by auto.
Qed.

Lemma take_list_map {A B} (F : A -> B) (d : A) (d' : B) p l :
  Forall (fun i => i < List.length l) p ->
  map F (take_list d p l) = take_list d' p (map F l).
Proof.
  intros H. unfold take_list. rewrite map_map.
  apply map_ext_in. intros i Hi. rewrite Forall_forall in H.
  symmetry. apply nth_map_in. auto.
Qed.

Lemma mask_take {A} (f : cell -> bool) (d : A) g col p :
  mask_filter (map f (take_list CNaN p g)) (take_list d p col)
  = take_list d (filter (fun i => f (nth i g CNaN)) p) col.
Proof.
  unfold take_list. induction p as [|i p IH]; simpl; auto.
  destruct (f (nth i g CNaN)); simpl; now rewrite IH.
Qed.

Lemma length_take_list {A} (d : A) p l : List.length (take_list d p l) = List.length p.
Proof. apply length_map. Qed.

End SortedLists.

Section ClassifiedFrames.

Variable float_repr : Q -> string.

Lemma length_mask_filter {A B} (m : list bool) :
  forall (l1 : list A) (l2 : list B),
    List.length l1 = List.length l2 ->
    List.length (mask_filter m l1) = List.length (mask_filter m l2).
Proof.
  induction m as [|b m IH]; intros [|x l1] [|y l2] L; simpl in *; try discriminate; auto.
  injection L as L. destruct b; simpl; auto.
Qed.

Lemma wf_filter_rows m df : wf df -> wf (filter_rows m df).
Proof.
  unfold wf, filter_rows, len. cbn [index cols].
  intros H. apply Forall_map. apply Forall_impl with (2 := H).
  intros [k v] L. cbn [snd fst] in *. now apply length_mask_filter.
Qed.

Lemma wf_set_column c v df : wf df -> List.length v = len df -> wf (set_column c v df).
Proof.
  unfold wf, set_column, len. cbn [index cols]. intros H L.
  induction (cols df) as [|[k x] r IH]; simpl.
  - constructor; auto.
  - inversion H; subst. destruct (String.eqb k c); constructor; auto.
Qed.

Lemma dept_df_classified df department dept :
  wf df -> dept_df float_repr df department = Ok dept -> classified dept.
Proof.
  intros W. unfold dept_df, get_column.
  destruct (find_column "department" df) as [d|]; [|discriminate].
  cbn [bind]. set (slice := filter_rows _ df). intros [= <-].
  assert (Ws : wf slice) by (apply wf_filter_rows, W).
  destruct (find_column "degree" slice) as [deg|] eqn:Ed.
  - split.
    + apply wf_set_column; auto. rewrite length_map. now apply wf_column with (c := "degree").
    + eexists. split; [apply lookup_assign_same|].
      apply Forall_map, Forall_forall. intros x _. eexists. split; [reflexivity|].
      apply classify_degree_in_order.
  - split.
    + apply wf_set_column; auto. apply repeat_length.
    + eexists. split; [apply lookup_assign_same|].
      apply Forall_forall. intros x Hx. apply repeat_spec in Hx. subst x.
      exists "Other". split; [reflexivity|]. simpl. auto.
Qed.

Lemma taxonomy_code c :
  in_taxonomy c -> categorical_code degree_order c = Some (degree_rank c).
Proof.
  intros (s & -> & Hs). unfold degree_rank.
  simpl in Hs. destruct Hs as [<-|[<-|[<-|[<-|[]]]]]; reflexivity.
Qed.

Lemma taxonomy_rank_injective c c' :
  in_taxonomy c -> in_taxonomy c' -> degree_rank c = degree_rank c' -> c = c'.
Proof.
  intros (s & -> & Hs) (s' & -> & Hs'). simpl in Hs, Hs'.
  destruct Hs as [<-|[<-|[<-|[<-|[]]]]]; destruct Hs' as [<-|[<-|[<-|[<-|[]]]]];
    intros E; try reflexivity; discriminate E.
Qed.

Lemma taxonomy_ranks_injective g g' :
  Forall in_taxonomy g -> Forall in_taxonomy g' ->
  map degree_rank g = map degree_rank g' -> g = g'.
Proof.
  intros H. revert g'. induction H as [|c g Hc Hg IH]; intros [|c' g'] H' E;
    simpl in E; try discriminate; auto.
  inversion H'; subst. injection E as E1 E2.
  f_equal; [now apply taxonomy_rank_injective | now apply IH].
Qed.

Lemma taxonomy_codes g :
  Forall in_taxonomy g ->
  map (categorical_code degree_order) g = map (fun c => Some (degree_rank c)) g.
Proof.
  intros H. apply map_ext_in. intros c Hc. rewrite Forall_forall in H.
  now apply taxonomy_code, H.
Qed.

Lemma non_nans_some {A} (F : A -> nat) g : non_nans (map (fun c => Some (F c)) g) = map F g.
Proof. unfold non_nans. induction g as [|c g IH]; simpl; congruence. Qed.

Lemma taxonomy_keys g :
  Forall in_taxonomy g ->
  non_nans (map (categorical_code degree_order) g) = map degree_rank g.
Proof. intros H. now rewrite taxonomy_codes, non_nans_some. Qed.

Lemma taxonomy_categorical g :
  Forall in_taxonomy g -> map (to_categorical degree_order) g = g.
Proof.
  intros H. rewrite <- (map_id g) at 2. apply map_ext_in. intros c Hc.
  rewrite Forall_forall in H. unfold to_categorical.
  now rewrite (taxonomy_code c (H c Hc)).
Qed.

Lemma filter_all {A} (f : A -> bool) l :
  (forall x, In x l -> f x = true) -> filter f l = l.
Proof.
  induction l as [|a l IH]; simpl; intros H; auto.
  rewrite (H a) by now left. f_equal. apply IH. intros x Hx. apply H. now right.
Qed.

Lemma filter_none {A} (f : A -> bool) l :
  (forall x, In x l -> f x = false) -> filter f l = [].
Proof.
  induction l as [|a l IH]; simpl; intros H; auto.
  rewrite (H a) by now left. apply IH. intros x Hx. apply H. now right.
Qed.

Lemma taxonomy_no_nan g i :
  Forall in_taxonomy g -> i < List.length g ->
  is_nan_code (map (categorical_code degree_order) g) i = false.
Proof.
  intros H Hi. unfold is_nan_code.
  rewrite (nth_map_in _ g i CNaN) by auto.
  rewrite Forall_forall in H.
  now rewrite (taxonomy_code _ (H _ (nth_In g CNaN Hi))).
Qed.

Lemma classified_keys dept g :
  find_column "Degree Group" dept = Some g -> Forall in_taxonomy g ->
  sort_keys dept = map degree_rank g.
Proof. intros E H. unfold sort_keys. rewrite E. now apply taxonomy_keys. Qed.

Lemma set_column_same c v df : find_column c df = Some v -> set_column c v df = df.
Proof.
  intros H. unfold set_column. rewrite (assign_same _ _ _ H). now destruct df.
Qed.

End ClassifiedFrames.

Section CategorySort.

Variable argsort : list nat -> list nat.

Lemma cell_eqb_str c s : cell_eqb c (CStr s) = true -> c = CStr s.
Proof.
  destruct c as [t| | |]; simpl; try discriminate.
  intros H. apply String.eqb_eq in H. now subst.
Qed.

Lemma sorts_permutation keys p :
  sorts keys p = true -> Permutation (seq 0 (List.length keys)) p.
Proof.
  unfold sorts. intros H. apply andb_true_iff in H. now apply range_permutation.
Qed.

Lemma sorts_sorted keys p :
  sorts keys p = true -> StronglySorted le (take_list 0 p keys).
Proof.
  unfold sorts. intros H. apply andb_true_iff in H. now apply nondecreasing_sorted.
Qed.

(** On a classified slice the sort is the [take] of what [argsort]
    answers on the ranks of the Degree Group column. *)
Lemma staff_sorted_df_take dept g :
  find_column "Degree Group" dept = Some g -> Forall in_taxonomy g ->
  sorts (sort_keys dept) (argsort (sort_keys dept)) = true ->
  staff_sorted_df argsort dept = Ok (take (argsort (sort_keys dept)) dept).
Proof.
  intros Eg Hg Hs. unfold staff_sorted_df, get_column. rewrite Eg. cbn [bind].
  rewrite (taxonomy_categorical g Hg), (set_column_same _ _ _ Eg).
  do 2 f_equal. unfold nargsort.
  pose proof (sorts_permutation _ _ Hs) as P.
  unfold sort_keys in *. rewrite Eg in *.
  rewrite (taxonomy_keys g Hg) in *. rewrite length_map in *.
  rewrite filter_all, filter_none, app_nil_r.
  - apply take_list_range. now apply range_permutation_bound.
  - intros i Hi. apply in_seq in Hi. apply taxonomy_no_nan; auto. lia.
  - intros i Hi. apply in_seq in Hi. rewrite taxonomy_no_nan; auto. lia.
Qed.

Lemma find_degree_group_take p dept g :
  find_column "Degree Group" dept = Some g ->
  find_column "Degree Group" (take p dept) = Some (take_list CNaN p g).
Proof. intros E. now rewrite find_take, E. Qed.

Lemma classified_take p dept g :
  wf dept -> find_column "Degree Group" dept = Some g -> Forall in_taxonomy g ->
  Permutation (seq 0 (List.length g)) p ->
  classified (take p dept) /\
  Forall in_taxonomy (take_list CNaN p g) /\
  sort_keys (take p dept) = take_list 0 p (sort_keys dept).
Proof.
  intros W Eg Hg P.
  pose proof (range_permutation_bound _ _ P) as B.
  assert (Hg' : Forall in_taxonomy (take_list CNaN p g)).
  { apply Forall_map. apply Forall_impl with (2 := B).
    intros i Hi. rewrite Forall_forall in Hg. now apply Hg, nth_In. }
  split; [split|split; [exact Hg'|]].
  - unfold wf, take, len. cbn [index cols]. apply Forall_map.
    apply Forall_forall. intros kv _. cbn [snd]. now rewrite !length_take_list.
  - exists (take_list CNaN p g). split; [now apply find_degree_group_take|exact Hg'].
  - rewrite (classified_keys _ _ (find_degree_group_take p dept g Eg) Hg').
    rewrite (classified_keys _ _ Eg Hg).
    now apply take_list_map.
Qed.

Lemma take_identity df : wf df -> take (seq 0 (len df)) df = df.
Proof.
  intros W. unfold take. destruct df as [idx cs]. unfold wf, len in *. cbn [index cols] in *.
  f_equal; [apply take_list_seq|].
  rewrite <- (map_id cs) at 2. apply map_ext_in. intros [k v] Hkv.
  rewrite Forall_forall in W. specialize (W _ Hkv). cbn [fst snd] in *.
  now rewrite <- W, take_list_seq.
Qed.

Lemma lex_lt_trans keys a b c : lex_lt keys a b -> lex_lt keys b c -> lex_lt keys a c.
Proof. unfold lex_lt. lia. Qed.

Lemma lex_lt_asym keys a b : lex_lt keys a b -> lex_lt keys b a -> a = b.
Proof. unfold lex_lt. lia. Qed.

Lemma lex_sorted keys p :
  nondecreasing (take_list 0 p keys) = true -> ties_in_order keys p = true ->
  StronglySorted (lex_lt keys) p.
Proof.
  intros H T. apply Sorted_StronglySorted.
  { intros x y z. apply lex_lt_trans. }
  induction p as [|a [|b r] IH]; auto.
  cbn [take_list map nondecreasing] in H. cbn [ties_in_order] in T.
  apply andb_true_iff in H. destruct H as [Hab Hr].
  apply andb_true_iff in T. destruct T as [Tab Tr].
  constructor; [apply IH; auto|]. constructor.
  apply Nat.leb_le in Hab. unfold lex_lt.
  destruct (Nat.eqb_spec (nth a keys 0) (nth b keys 0)) as [E|N].
  - right. apply Nat.ltb_lt in Tab. auto.
  - left. lia.
Qed.

(** A stable answer keeps, for every label, the positions that carry it
    in their original order. *)
Lemma stable_positions keys p g degree :
  keys = map degree_rank g ->
  sorts keys p = true -> ties_in_order keys p = true ->
  filter (fun i => cell_eqb (nth i g CNaN) (CStr degree)) p
  = filter (fun i => cell_eqb (nth i g CNaN) (CStr degree)) (seq 0 (List.length g)).
Proof.
  intros K Hs Ht.
  pose proof (sorts_permutation _ _ Hs) as P.
  assert (L : List.length keys = List.length g) by (subst keys; apply length_map).
  rewrite L in P.
  pose proof (range_permutation_bound _ _ P) as B. rewrite Forall_forall in B.
  unfold sorts in Hs. apply andb_true_iff in Hs. destruct Hs as [_ Hn].
  pose proof (lex_sorted _ _ Hn Ht) as S.
  apply (sorted_permutation_unique lt).
  - intros a b. lia.
  - apply (StronglySorted_filter_impl (lex_lt keys)); auto.
    intros a b Ha Hb Fa Fb [Hlt|[_ Hlt]]; auto.
    apply cell_eqb_str in Fa, Fb. subst keys.
    rewrite !(nth_map_in degree_rank g _ CNaN) in Hlt by auto.
    rewrite Fa, Fb in Hlt. lia.
  - apply (StronglySorted_filter_impl lt); auto. apply seq_strongly_sorted.
  - apply filter_permutation. now apply Permutation_sym.
Qed.

End CategorySort.

(** Every roster of up to six rows, whatever its categories: the routine
    answers with a sorting rearrangement that keeps ties in order (below
    the partition threshold it is an insertion sort). *)
Example argsort_small_rosters :
  forallb (fun keys => sorts keys (Numpy.argsort keys)
                       && ties_in_order keys (Numpy.argsort keys))
          (flat_map all_keys (seq 0 7)) = true.
Proof. vm_compute. reflexivity. Qed.

(** A roster of forty rows in mixed categories: the routine sorts it
    (through two partitions), and does not keep ties in order. *)
Example argsort_forty_rows :
  let keys := map (fun i => (i * 7 + 3) mod 4) (seq 0 40) in
  sorts keys (Numpy.argsort keys) = true /\
  ties_in_order keys (Numpy.argsort keys) = false.
Proof. vm_compute. split; reflexivity. Qed.

(** Seventeen rows of one category: the routine partitions once, and the
    rows come out in another order. *)
Example argsort_seventeen_ties :
  Numpy.argsort (repeat 2 17)
  = [0; 14; 13; 12; 11; 10; 9; 15; 8; 6; 5; 4; 3; 2; 1; 7; 16].
Proof. vm_compute. reflexivity. Qed.

Section CategorySortProof.

Variable argsort : list nat -> list nat.

Lemma StronglySorted_impl_in {A} (R R' : A -> A -> Prop) l :
  StronglySorted R l ->
  (forall a b, In a l -> In b l -> R a b -> R' a b) ->
  StronglySorted R' l.
Proof.
  intros S H. rewrite <- (filter_all (fun _ => true) l) by reflexivity.
  apply (StronglySorted_filter_impl R); auto.
Qed.

Lemma sorted_in_category_order p dept g :
  find_column "Degree Group" dept = Some g -> Forall in_taxonomy g ->
  sorts (sort_keys dept) p = true ->
  in_category_order (take p dept).
Proof.
  intros Eg Hg Hs. exists (take_list CNaN p g).
  split; [now apply find_degree_group_take|].
  pose proof (sorts_sorted _ _ Hs) as S.
  pose proof (sorts_permutation _ _ Hs) as P.
  rewrite (classified_keys _ _ Eg Hg) in S, P. rewrite length_map in P.
  rewrite <- (take_list_map degree_rank CNaN 0 p g) in S
    by (now apply range_permutation_bound).
  intros i j Hij Hj.
  rewrite <- !(map_nth degree_rank).
  apply StronglySorted_nth; auto. now rewrite length_map.
Qed.

Lemma sorted_again_same_categories p dept g :
  find_column "Degree Group" dept = Some g -> Forall in_taxonomy g ->
  StronglySorted le (sort_keys dept) ->
  sorts (sort_keys dept) p = true ->
  find_column "Degree Group" (take p dept) = Some g.
Proof.
  intros Eg Hg S0 Hs.
  rewrite (find_degree_group_take p dept g Eg). f_equal.
  pose proof (sorts_sorted _ _ Hs) as S.
  pose proof (sorts_permutation _ _ Hs) as P.
  rewrite (classified_keys _ _ Eg Hg) in *.
  assert (B : Forall (fun i => i < List.length g) p).
  { apply range_permutation_bound. now rewrite length_map in P. }
  apply taxonomy_ranks_injective; auto.
  - apply Forall_map. apply Forall_impl with (2 := B).
    intros i Hi. rewrite Forall_forall in Hg. now apply Hg, nth_In.
  - rewrite (take_list_map degree_rank CNaN 0 p g B).
    apply (sorted_permutation_unique le Nat.le_antisymm); auto.
    apply Permutation_sym. now apply take_list_permutation.
Qed.

Lemma stable_rows p dept g :
  wf dept -> find_column "Degree Group" dept = Some g -> Forall in_taxonomy g ->
  sorts (sort_keys dept) p = true -> ties_in_order (sort_keys dept) p = true ->
  forall degree, rows_of_degree degree (take p dept) = rows_of_degree degree dept.
Proof.
  intros W Eg Hg Hs Ht degree.
  unfold rows_of_degree, get_column.
  rewrite (find_degree_group_take p dept g Eg), Eg. cbn [bind]. f_equal.
  pose proof (stable_positions _ p g degree (classified_keys _ _ Eg Hg) Hs Ht) as F.
  pose proof (wf_column _ _ _ W Eg) as Lg.
  unfold filter_rows, take. cbn [index cols]. f_equal.
  - rewrite (mask_take (fun c => cell_eqb c (CStr degree)) 0 g (index dept) p).
    rewrite (mask_filter_positions (fun c => cell_eqb c (CStr degree)) 0 g (index dept))
      by (symmetry; exact Lg).
    unfold take_list. now rewrite F.
  - rewrite map_map. apply map_ext_in. intros [k v] Hkv. cbn [fst snd]. f_equal.
    rewrite (mask_take (fun c => cell_eqb c (CStr degree)) CNaN g v p).
    rewrite (mask_filter_positions (fun c => cell_eqb c (CStr degree)) CNaN g v).
    + unfold take_list. now rewrite F.
    + unfold wf in W. rewrite Forall_forall in W. rewrite Lg. exact (W _ Hkv).
Qed.

Lemma sorted_again_identity p dept g :
  wf dept -> find_column "Degree Group" dept = Some g -> Forall in_taxonomy g ->
  StronglySorted le (sort_keys dept) ->
  sorts (sort_keys dept) p = true -> ties_in_order (sort_keys dept) p = true ->
  take p dept = dept.
Proof.
  intros W Eg Hg S0 Hs Ht.
  pose proof (sorts_permutation _ _ Hs) as P.
  assert (Hp : p = seq 0 (List.length (sort_keys dept))).
  { apply (sorted_permutation_unique (lex_lt (sort_keys dept)) (lex_lt_asym _)).
    - unfold sorts in Hs. apply andb_true_iff in Hs. destruct Hs as [_ Hn].
      now apply lex_sorted.
    - apply (StronglySorted_impl_in lt); [apply seq_strongly_sorted|].
      intros a b Ha Hb Hab. apply in_seq in Ha, Hb.
      pose proof (StronglySorted_nth le 0 _ S0 a b Hab ltac:(lia)) as Hk.
      unfold lex_lt. lia.
    - now apply Permutation_sym. }
  rewrite Hp, (classified_keys _ _ Eg Hg), length_map, (wf_column _ _ _ W Eg).
  now apply take_identity.
Qed.

End CategorySortProof.

Section SmallRosters.

Variable v : list nat.

Lemma put_middle (l l' : list nat) a x :
  Numpy.put (List.length l) x (l ++ a :: l') = l ++ x :: l'.
Proof. induction l as [|y l IH]; simpl; congruence. Qed.

Lemma StronglySorted_app {A} (R : A -> A -> Prop) l1 l2 :
  StronglySorted R l1 -> StronglySorted R l2 ->
  (forall x y, In x l1 -> In y l2 -> R x y) ->
  StronglySorted R (l1 ++ l2).
Proof.
  induction 1 as [|a l S IH F]; intros S2 H; simpl; auto.
  constructor.
  - apply IH; auto. intros x y Hx. apply H. now right.
  - apply Forall_app. split; auto.
    apply Forall_forall. intros y Hy. apply H; auto. now left.
Qed.

Lemma StronglySorted_app_inv {A} (R : A -> A -> Prop) l1 l2 :
  StronglySorted R (l1 ++ l2) ->
  StronglySorted R l1 /\ StronglySorted R l2 /\
  (forall x y, In x l1 -> In y l2 -> R x y).
Proof.
  induction l1 as [|a l1 IH]; simpl; intros S.
  - repeat split; auto. constructor. intros x y [].
  - apply StronglySorted_inv in S. destruct S as [S F].
    destruct (IH S) as (S1 & S2 & H). apply Forall_app in F. destruct F as [F1 F2].
    repeat split; auto.
    + constructor; auto.
    + intros x y [<-|Hx] Hy; [|now apply H].
      rewrite Forall_forall in F2. now apply F2.
Qed.

(** Where [place] puts the new position. *)
Lemma place_split vi p :
  exists l1 l2,
    p = l1 ++ l2 /\
    place v vi p = l1 ++ vi :: l2 /\
    Forall (fun j => nth vi v 0 < nth j v 0) l2 /\
    (l1 = [] \/ exists l x, l1 = l ++ [x] /\ nth x v 0 <= nth vi v 0).
Proof.
  unfold place. induction p as [|x p IH] using rev_ind.
  - exists [], []. simpl. auto.
  - rewrite rev_unit. cbn [place_rev].
    destruct (Nat.ltb_spec (nth vi v 0) (nth x v 0)) as [L|G].
    + destruct IH as (l1 & l2 & -> & E & F & H).
      exists l1, (l2 ++ [x]). cbn [rev]. rewrite E.
      repeat split; auto.
      * now rewrite app_assoc.
      * now rewrite <- app_assoc.
      * apply Forall_app. split; auto.
    + exists (p ++ [x]), []. cbn [rev]. rewrite rev_involutive, app_nil_r.
      repeat split; auto. right. eauto.
Qed.

(** The shifting loop of the insertion sort: the positions with a greater
    key move one cell to the right, and the loop stops at the cell where
    the new position belongs. *)
Lemma shift_spec vp l1 :
  (l1 = [] \/ exists l x, l1 = l ++ [x] /\ nth x v 0 <= vp) ->
  forall l2 h b fuel,
    Forall (fun j => vp < nth j v 0) l2 ->
    List.length l2 < fuel ->
    Numpy.shift v fuel (l1 ++ l2 ++ h :: b) vp 0 (List.length l1 + List.length l2)
    = (l1 ++ hd h l2 :: l2 ++ b, List.length l1).
Proof.
  intros H1. induction l2 as [|x l2 IH] using rev_ind; intros h b fuel F Hf.
  - destruct fuel as [|f]; [simpl in Hf; lia|].
    cbn [Numpy.shift List.length app hd]. rewrite Nat.add_0_r.
    destruct H1 as [->|(l & x & -> & Hx)].
    + reflexivity.
    + replace (0 <? List.length (l ++ [x])) with true
        by (symmetry; apply Nat.ltb_lt; rewrite length_app; simpl; lia).
      unfold Numpy.key, Numpy.key_of.
      replace (List.length (l ++ [x]) - 1) with (List.length l)
        by (rewrite length_app; simpl; lia).
      assert (En : nth (List.length l) ((l ++ [x]) ++ [] ++ h :: b) 0 = x).
      { rewrite <- app_assoc. apply nth_middle. }
      rewrite En.
      replace (vp <? nth x v 0) with false by (symmetry; apply Nat.ltb_ge; lia).
      reflexivity.
  - destruct fuel as [|f]; [lia|].
    rewrite length_app in Hf. cbn [List.length] in Hf.
    apply Forall_app in F. destruct F as [F Fx]. inversion Fx as [|? ? Hx _]; subst.
    cbn [Numpy.shift].
    assert (Hp : List.length l1 + List.length (l2 ++ [x])
                 = S (List.length (l1 ++ l2)))
      by (rewrite !length_app; simpl; lia).
    rewrite Hp. change (0 <? S (List.length (l1 ++ l2))) with true. cbn [andb].
    replace (S (List.length (l1 ++ l2)) - 1) with (List.length (l1 ++ l2)) by lia.
    assert (Ea : l1 ++ (l2 ++ [x]) ++ h :: b = (l1 ++ l2) ++ x :: h :: b)
      by (now rewrite <- !app_assoc).
    rewrite Ea. unfold Numpy.key, Numpy.key_of. rewrite nth_middle.
    replace (vp <? nth x v 0) with true by (symmetry; apply Nat.ltb_lt; lia).
    assert (Eb : (l1 ++ l2) ++ x :: h :: b = ((l1 ++ l2) ++ [x]) ++ h :: b)
      by (now rewrite <- !app_assoc).
    assert (Lb : S (List.length (l1 ++ l2)) = List.length ((l1 ++ l2) ++ [x]))
      by (rewrite !length_app; simpl; lia).
    rewrite Eb, Lb, put_middle.
    assert (Ec : ((l1 ++ l2) ++ [x]) ++ x :: b = l1 ++ l2 ++ x :: x :: b)
      by (now rewrite <- !app_assoc).
    rewrite Ec, length_app, (IH x (x :: b) f F ltac:(lia)).
    f_equal. f_equal. rewrite <- app_assoc. cbn [app].
    now destruct l2.
Qed.

(** The insertion loop places the positions of the unsorted part one
    after the other. *)
Lemma insertion_spec :
  forall r p fuel,
    p <> [] -> List.length r <= fuel ->
    Numpy.insertion v fuel (p ++ r) 0 (List.length p)
                    (List.length p + List.length r - 1)
    = fold_left (fun p vi => place v vi p) r p.
Proof.
  induction r as [|vi r IH]; intros p fuel Hp Hf.
  - rewrite app_nil_r. cbn [fold_left List.length].
    destruct fuel as [|f]; [reflexivity|]. cbn [Numpy.insertion].
    replace (List.length p <=? List.length p + 0 - 1) with false; [reflexivity|].
    symmetry. apply Nat.leb_gt. destruct p; [contradiction|simpl; lia].
  - destruct fuel as [|f]; [simpl in Hf; lia|].
    cbn [Numpy.insertion fold_left List.length] in *.
    replace (List.length p <=? List.length p + S (List.length r) - 1) with true
      by (symmetry; apply Nat.leb_le; lia).
    rewrite nth_middle.
    destruct (place_split vi p) as (l1 & l2 & Ep & E & F & H).
    rewrite Ep at 1 2. rewrite <- app_assoc.
    assert (El : List.length p = List.length l1 + List.length l2)
      by (rewrite Ep; apply length_app).
    rewrite El at 1.
    unfold Numpy.key_of.
    rewrite (shift_spec (nth vi v 0) l1 H l2 vi r); auto.
    2:{ rewrite !length_app. simpl. lia. }
    rewrite put_middle.
    replace (l1 ++ vi :: l2 ++ r) with (place v vi p ++ r)
      by (rewrite E, <- app_assoc; reflexivity).
    assert (Lp : List.length (place v vi p) = S (List.length p)).
    { rewrite E, Ep, !length_app. simpl. lia. }
    rewrite <- Lp.
    replace (List.length p + S (List.length r) - 1)
      with (List.length (place v vi p) + List.length r - 1) by lia.
    apply IH; [|lia].
    rewrite E. now destruct l1.
Qed.

(** Up to sixteen rows the routine never partitions: it is the
    insertion sort. *)
Lemma argsort_small : List.length v <= 16 -> Numpy.argsort v = insertion_order v (List.length v).
Proof.
  intros L. unfold Numpy.argsort, insertion_order.
  destruct (List.length v) as [|n] eqn:E; [reflexivity|].
  cbn [Numpy.sort_loop].
  replace (2 * Z.of_nat (Nat.log2 (S n)) <? 0)%Z with false
    by (symmetry; apply Z.ltb_ge; lia).
  rewrite length_seq.
  cbn [Numpy.quick_phase].
  replace (Numpy.SMALL_QUICKSORT <? S n - 1 - 0) with false
    by (symmetry; apply Nat.ltb_ge; unfold Numpy.SMALL_QUICKSORT; lia).
  cbn [seq fold_left].
  change (place v 0 []) with [0].
  change (0 :: seq 1 n) with ([0] ++ seq 1 n).
  replace (S n - 1) with (List.length [0] + List.length (seq 1 n) - 1)
    by (rewrite length_seq; simpl; lia).
  change (0 + 1) with (List.length [0]).
  rewrite insertion_spec; [reflexivity|discriminate|].
  rewrite length_app. lia.
Qed.

End SmallRosters.

Section ReversingSort.

Lemma is_permutation_of_range_complete p n :
  Permutation (seq 0 n) p -> is_permutation_of_range p n = true.
Proof.
  intros P. unfold is_permutation_of_range. apply andb_true_iff. split.
  - apply Nat.eqb_eq. rewrite <- (Permutation_length P). apply length_seq.
  - apply forallb_forall. intros i Hi. apply existsb_exists.
    exists i. split; [now apply (Permutation_in _ P)|apply Nat.eqb_refl].
Qed.

Lemma nondecreasing_complete l : Sorted le l -> nondecreasing l = true.
Proof.
  induction 1 as [|a l S IH H]; [reflexivity|].
  destruct l as [|b r]; [reflexivity|].
  cbn [nondecreasing]. apply andb_true_iff. split; [|exact IH].
  inversion H; subst. now apply Nat.leb_le.
Qed.

Lemma insert_behind_permutation keys i l : Permutation (i :: l) (insert_behind keys i l).
Proof.
  induction l as [|j r IH]; simpl; [reflexivity|].
  destruct (nth i keys 0 <? nth j keys 0); [reflexivity|].
  rewrite perm_swap. now apply perm_skip.
Qed.

Lemma insert_behind_sorted keys i l :
  Sorted le (map (fun k => nth k keys 0) l) ->
  Sorted le (map (fun k => nth k keys 0) (insert_behind keys i l)).
Proof.
  induction l as [|j r IH]; intros S; simpl.
  - repeat constructor.
  - destruct (Nat.ltb_spec (nth i keys 0) (nth j keys 0)) as [L|G]; simpl.
    + constructor; [exact S|]. constructor. lia.
    + inversion S as [|? ? S' H']; subst.
      constructor; [now apply IH|].
      destruct r as [|k r']; simpl.
      * constructor. exact G.
      * destruct (nth i keys 0 <? nth k keys 0); simpl; constructor;
          [exact G | inversion H'; subst; assumption].
Qed.

Lemma reversing_argsort_sorts keys : sorts keys (reversing_argsort keys) = true.
Proof.
  unfold sorts, reversing_argsort. apply andb_true_iff. split.
  - apply is_permutation_of_range_complete.
    induction (seq 0 (List.length keys)) as [|i l IH]; simpl; [reflexivity|].
    rewrite <- insert_behind_permutation. now apply perm_skip.
  - apply nondecreasing_complete. unfold take_list.
    induction (seq 0 (List.length keys)) as [|i l IH]; simpl; [constructor|].
    now apply insert_behind_sorted.
Qed.

End ReversingSort.

Section SmallRostersSorted.

Variable keys : list nat.

Lemma insertion_order_sorted n :
  Permutation (seq 0 n) (insertion_order keys n) /\
  StronglySorted (lex_lt keys) (insertion_order keys n).
Proof.
  unfold insertion_order. induction n as [|n [P S]]; [split; constructor|].
  rewrite seq_S, fold_left_app. cbn [fold_left plus].
  set (p := fold_left (fun p vi => place keys vi p) (seq 0 n) []) in *.
  destruct (place_split keys n p) as (l1 & l2 & Ep & E & F & H).
  rewrite E. split.
  - rewrite P, Ep. rewrite <- Permutation_cons_append. apply Permutation_middle.
  - rewrite Ep in S. apply StronglySorted_app_inv in S. destruct S as (S1 & S2 & H12).
    assert (B : forall x, In x l1 -> x < n).
    { intros x Hx. assert (Hin : In x (seq 0 n)).
      { apply (Permutation_in _ (Permutation_sym P)). rewrite Ep.
        apply in_or_app. now left. }
      apply in_seq in Hin. lia. }
    rewrite Forall_forall in F.
    apply StronglySorted_app; auto.
    + constructor; auto. apply Forall_forall. intros y Hy. left. now apply F.
    + intros x y Hx [<-|Hy]; [|now apply H12].
      assert (K : nth x keys 0 <= nth n keys 0).
      { destruct H as [->|(l & x0 & -> & Hx0)]; [destruct Hx|].
        apply in_app_or in Hx. destruct Hx as [Hx|[<-|[]]]; [|exact Hx0].
        apply StronglySorted_app_inv in S1. destruct S1 as (_ & _ & Hl).
        specialize (Hl x x0 Hx ltac:(now left)). unfold lex_lt in Hl. lia. }
      specialize (B x Hx). unfold lex_lt. lia.
Qed.

Lemma lex_sorted_complete p :
  StronglySorted (lex_lt keys) p ->
  nondecreasing (take_list 0 p keys) = true /\ ties_in_order keys p = true.
Proof.
  induction 1 as [|a p S [IH1 IH2] F]; [split; reflexivity|].
  destruct p as [|b r]; [split; reflexivity|].
  inversion F as [|? ? Hab _]; subst.
  unfold lex_lt in Hab. split.
  - change (nondecreasing (take_list 0 (a :: b :: r) keys))
      with ((nth a keys 0 <=? nth b keys 0) &&
            nondecreasing (take_list 0 (b :: r) keys)).
    rewrite IH1, andb_true_r. apply Nat.leb_le. lia.
  - change (ties_in_order keys (a :: b :: r))
      with ((if nth a keys 0 =? nth b keys 0 then a <? b else true) &&
            ties_in_order keys (b :: r)).
    rewrite IH2, andb_true_r.
    destruct (Nat.eqb_spec (nth a keys 0) (nth b keys 0)); [|reflexivity].
    apply Nat.ltb_lt. lia.
Qed.

(** Rosters of at most sixteen rows: the routine sorts them and keeps
    ties in order. *)
Lemma argsort_small_stable :
  List.length keys <= 16 ->
  sorts keys (Numpy.argsort keys) = true /\
  ties_in_order keys (Numpy.argsort keys) = true.
Proof.
  intros L. rewrite (argsort_small keys L).
  destruct (insertion_order_sorted (List.length keys)) as [P S].
  destruct (lex_sorted_complete _ S) as [N T].
  split; [|exact T].
  unfold sorts. now rewrite (is_permutation_of_range_complete _ _ P), N.
Qed.

End SmallRostersSorted.

(* ------------------------------------------------------------------ *)
(** ** The routine behind the sort returns a sorted rearrangement

    Whatever the roster: the partitions, the insertion sort of the short
    partitions and the heapsort at the depth limit each rearrange their
    partition in place, and the loop ends with every pair of cells in order
    by key. *)

Section Arrays.

Lemma length_put p x a : List.length (Numpy.put p x a) = List.length a.
Proof.
  revert p. induction a as [|y a IH]; intros [|p]; simpl; auto.
Qed.

Lemma nth_put_same p x a d : p < List.length a -> nth p (Numpy.put p x a) d = x.
Proof.
  revert p. induction a as [|y a IH]; intros [|p] H; simpl in *; try lia; auto.
  apply IH. lia.
Qed.

Lemma nth_put_other p q x a d : p <> q -> nth q (Numpy.put p x a) d = nth q a d.
Proof.
  revert p q. induction a as [|y a IH]; intros [|p] [|q] H; simpl; auto; try lia.
Qed.

Lemma put_put p x y a : Numpy.put p x (Numpy.put p y a) = Numpy.put p x a.
Proof.
  revert p. induction a as [|z a IH]; intros [|p]; simpl; auto. now rewrite IH.
Qed.

Lemma put_nth p a : Numpy.put p (nth p a 0) a = a.
Proof.
  revert p. induction a as [|z a IH]; intros [|p]; simpl; auto. now rewrite IH.
Qed.

Lemma put_perm p x a :
  p < List.length a -> Permutation (x :: a) (nth p a 0 :: Numpy.put p x a).
Proof.
  revert p. induction a as [|y a IH]; intros [|p] H; simpl in *; try lia.
  - apply perm_swap.
  - rewrite perm_swap. rewrite (IH p) by lia. apply perm_swap.
Qed.

Lemma length_swap a p q : List.length (Numpy.swap a p q) = List.length a.
Proof. unfold Numpy.swap. now rewrite !length_put. Qed.

Lemma nth_swap_l a p q :
  p < List.length a -> q < List.length a ->
  nth p (Numpy.swap a p q) 0 = nth q a 0.
Proof.
  intros Hp Hq. unfold Numpy.swap.
  destruct (Nat.eq_dec p q) as [->|N].
  - now rewrite nth_put_same by (rewrite length_put; lia).
  - rewrite nth_put_other by congruence. now apply nth_put_same.
Qed.

Lemma nth_swap_r a p q :
  p < List.length a -> q < List.length a ->
  nth q (Numpy.swap a p q) 0 = nth p a 0.
Proof.
  intros Hp Hq. unfold Numpy.swap.
  now rewrite nth_put_same by (rewrite length_put; lia).
Qed.

Lemma nth_swap_other a p q i :
  i <> p -> i <> q -> nth i (Numpy.swap a p q) 0 = nth i a 0.
Proof.
  intros Hp Hq. unfold Numpy.swap.
  now rewrite !nth_put_other by congruence.
Qed.

Lemma swap_perm a p q :
  p < List.length a -> q < List.length a -> Permutation a (Numpy.swap a p q).
Proof.
  intros Hp Hq. unfold Numpy.swap.
  apply Permutation_cons_inv with (a := nth q a 0).
  rewrite (put_perm p (nth q a 0) a Hp).
  rewrite (put_perm q (nth p a 0) (Numpy.put p (nth q a 0) a)) by (rewrite length_put; lia).
  destruct (Nat.eq_dec p q) as [->|N].
  - now rewrite nth_put_same by lia.
  - now rewrite nth_put_other by congruence.
Qed.

Lemma same_outside_refl pl pr a : same_outside pl pr a a.
Proof. intros i _. reflexivity. Qed.

Lemma same_outside_trans pl pr a b c :
  same_outside pl pr a b -> same_outside pl pr b c -> same_outside pl pr a c.
Proof. intros H1 H2 i Hi. now rewrite H2, H1. Qed.

Lemma same_outside_wider pl pr pl' pr' a b :
  pl' <= pl -> pr <= pr' -> same_outside pl pr a b -> same_outside pl' pr' a b.
Proof. intros L R H i Hi. apply H. lia. Qed.

(** A rearrangement inside [pl..pr] takes every cell of the partition
    from the partition. *)
Lemma stays_inside pl pr a a' :
  NoDup a -> Permutation a a' -> same_outside pl pr a a' ->
  forall i, pl <= i -> i <= pr -> i < List.length a ->
    exists k, pl <= k /\ k <= pr /\ k < List.length a /\ nth i a' 0 = nth k a 0.
Proof.
  intros N P S i Hl Hr Hi.
  assert (L : List.length a' = List.length a) by (symmetry; now apply Permutation_length).
  assert (I : In (nth i a' 0) a).
  { apply (Permutation_in _ (Permutation_sym P)). apply nth_In. lia. }
  destruct (In_nth _ _ 0 I) as (k & Hk & E).
  destruct (le_lt_dec pl k) as [A|A]; [destruct (le_lt_dec k pr) as [B|B]|].
  - exists k. auto.
  - exfalso. assert (K : nth k a' 0 = nth k a 0) by (apply S; lia).
    assert (N' : NoDup a') by (now apply (Permutation_NoDup P)).
    pose proof (proj1 (NoDup_nth a' 0) N' k i ltac:(lia) ltac:(lia)) as Q.
    assert (k = i) by (apply Q; congruence). lia.
  - exfalso. assert (K : nth k a' 0 = nth k a 0) by (apply S; lia).
    assert (N' : NoDup a') by (now apply (Permutation_NoDup P)).
    pose proof (proj1 (NoDup_nth a' 0) N' k i ltac:(lia) ltac:(lia)) as Q.
    assert (k = i) by (apply Q; congruence). lia.
Qed.

Lemma separate_app l1 l2 :
  separate l1 -> separate l2 ->
  (forall s t, In s l1 -> In t l2 -> apart s t) ->
  separate (l1 ++ l2).
Proof.
  induction l1 as [|s l1 IH]; simpl; auto.
  intros [F S1] S2 H. split.
  - apply Forall_app. split; [exact F|].
    apply Forall_forall. intros t Ht. apply H; auto.
  - apply IH; auto.
Qed.

End Arrays.

Section LoopState.

Variable v : list nat.

(** One partition of the pending ones is worked on: what is left of it
    takes its place. *)
Lemma process_step a a' s rest news :
  pending v a (s :: rest) ->
  Permutation a a' ->
  same_outside (fst s) (snd s) a a' ->
  (forall i j, fst s <= i -> i < j -> j <= snd s ->
     Numpy.key v a' i <= Numpy.key v a' j \/ covered news i j) ->
  Forall (fun t => fst s <= fst t /\ fst t <= snd t /\ snd t <= snd s) news ->
  separate news ->
  pending v a' (news ++ rest).
Proof.
  intros (P & B & (Fs & Sr) & O) Pa So Hin Fn Sn.
  apply Forall_cons_iff in B. destruct B as [[Bs1 Bs2] Br].
  assert (L : List.length a' = List.length a) by (symmetry; now apply Permutation_length).
  assert (N : NoDup a).
  { apply (Permutation_NoDup P). apply seq_NoDup. }
  rewrite Forall_forall in Fs, Fn.
  split; [|split; [|split]].
  - now rewrite P.
  - apply Forall_app. split.
    + apply Forall_forall. intros t Ht. specialize (Fn t Ht). lia.
    + rewrite L. exact Br.
  - apply separate_app; auto.
    intros t r Ht Hr. specialize (Fn t Ht). specialize (Fs r Hr).
    unfold apart in *. lia.
  - intros i j Hij Hj. rewrite L in Hj.
    assert (C : forall x y, covered rest x y -> covered (news ++ rest) x y).
    { intros x y (r & Hr & H1 & H2). exists r. split; [|auto].
      apply in_or_app. now right. }
    assert (X : forall k x y, fst s <= k -> k <= snd s -> x <= k -> k <= y ->
                  (x < fst s \/ snd s < y) -> ~ covered (s :: rest) x y).
    { intros k x y K1 K2 K3 K4 K5 (r & [<-|Hr] & H1 & H2); [lia|].
      specialize (Fs r Hr). unfold apart in Fs. lia. }
    unfold Numpy.key in *.
    destruct (le_lt_dec (fst s) i) as [I1|I1];
      [destruct (le_lt_dec i (snd s)) as [I2|I2]|];
      (destruct (le_lt_dec (fst s) j) as [J1|J1];
       [destruct (le_lt_dec j (snd s)) as [J2|J2]|]); try lia.
    + destruct (Hin i j I1 Hij J2) as [H|(t & Ht & H1 & H2)]; [now left|].
      right. exists t. split; [|auto]. apply in_or_app. now left.
    + destruct (stays_inside _ _ _ _ N Pa So i I1 I2 ltac:(lia)) as (k & K1 & K2 & K3 & ->).
      rewrite (So j) by lia.
      destruct (O k j ltac:(lia) Hj) as [H|H]; [now left|].
      exfalso. apply (X k k j); auto; lia.
    + rewrite (So i), (So j) by lia.
      destruct (O i j Hij Hj) as [H|(r & [<-|Hr] & H1 & H2)]; [now left|lia|].
      right. apply C. now exists r.
    + destruct (stays_inside _ _ _ _ N Pa So j J1 J2 ltac:(lia)) as (k & K1 & K2 & K3 & ->).
      rewrite (So i) by lia.
      destruct (O i k ltac:(lia) K3) as [H|H]; [now left|].
      exfalso. apply (X k i k); auto; lia.
    + rewrite (So i), (So j) by lia.
      destruct (O i j Hij Hj) as [H|(r & [<-|Hr] & H1 & H2)]; [now left|lia|].
      right. apply C. now exists r.
    + rewrite (So i), (So j) by lia.
      destruct (O i j Hij Hj) as [H|(r & [<-|Hr] & H1 & H2)]; [now left|lia|].
      right. apply C. now exists r.
Qed.

End LoopState.

Section Partition.

Variable v : list nat.

Lemma key_swap_l a p q :
  p < List.length a -> q < List.length a ->
  Numpy.key v (Numpy.swap a p q) p = Numpy.key v a q.
Proof. intros. unfold Numpy.key. now rewrite nth_swap_l. Qed.

Lemma key_swap_r a p q :
  p < List.length a -> q < List.length a ->
  Numpy.key v (Numpy.swap a p q) q = Numpy.key v a p.
Proof. intros. unfold Numpy.key. now rewrite nth_swap_r. Qed.

Lemma key_swap_other a p q i :
  i <> p -> i <> q -> Numpy.key v (Numpy.swap a p q) i = Numpy.key v a i.
Proof. intros. unfold Numpy.key. now rewrite nth_swap_other. Qed.

(** One compare-and-swap of the median of three. *)
Lemma compare_swap a p q :
  p <> q -> p < List.length a -> q < List.length a ->
  let a' := if Numpy.key v a p <? Numpy.key v a q then Numpy.swap a p q else a in
  Permutation a a' /\
  List.length a' = List.length a /\
  (forall i, i <> p -> i <> q -> nth i a' 0 = nth i a 0) /\
  Numpy.key v a' p = Nat.max (Numpy.key v a p) (Numpy.key v a q) /\
  Numpy.key v a' q = Nat.min (Numpy.key v a p) (Numpy.key v a q).
Proof.
  intros N Hp Hq. cbv zeta.
  destruct (Nat.ltb_spec (Numpy.key v a p) (Numpy.key v a q)) as [L|G].
  - split; [now apply swap_perm|]. split; [apply length_swap|].
    split; [intros; now apply nth_swap_other|].
    rewrite key_swap_l, key_swap_r by assumption. lia.
  - split; [reflexivity|]. split; [reflexivity|]. split; [reflexivity|]. lia.
Qed.

Lemma median3_spec a pl pm pr :
  pl < pm -> pm < pr -> pr < List.length a ->
  let a' := Numpy.median3 v a pl pm pr in
  Permutation a a' /\
  List.length a' = List.length a /\
  same_outside pl pr a a' /\
  Numpy.key v a' pl <= Numpy.key v a' pm /\
  Numpy.key v a' pm <= Numpy.key v a' pr.
Proof.
  intros H1 H2 H3. unfold Numpy.median3.
  destruct (compare_swap a pm pl) as (P1 & L1 & O1 & M1 & N1); try lia.
  set (a1 := if Numpy.key v a pm <? Numpy.key v a pl then Numpy.swap a pm pl else a) in *.
  destruct (compare_swap a1 pr pm) as (P2 & L2 & O2 & M2 & N2); try lia.
  set (a2 := if Numpy.key v a1 pr <? Numpy.key v a1 pm then Numpy.swap a1 pr pm else a1) in *.
  destruct (compare_swap a2 pm pl) as (P3 & L3 & O3 & M3 & N3); try lia.
  set (a3 := if Numpy.key v a2 pm <? Numpy.key v a2 pl then Numpy.swap a2 pm pl else a2) in *.
  cbv zeta.
  assert (K2 : Numpy.key v a2 pl = Numpy.key v a1 pl).
  { unfold Numpy.key. rewrite O2 by lia. reflexivity. }
  assert (K3 : Numpy.key v a3 pr = Numpy.key v a2 pr).
  { unfold Numpy.key. rewrite O3 by lia. reflexivity. }
  split; [now rewrite P1, P2|]. split; [lia|]. split.
  - intros i Hi. rewrite O3, O2, O1 by lia. reflexivity.
  - lia.
Qed.

Lemma scan_up_spec : forall fuel a vp p q,
  p <= q -> q - p < fuel -> vp <= Numpy.key v a q ->
  let p' := Numpy.scan_up v fuel a vp p in
  p <= p' /\ p' <= q /\ vp <= Numpy.key v a p' /\
  forall i, p <= i -> i < p' -> Numpy.key v a i < vp.
Proof.
  induction fuel as [|f IH]; intros a vp p q Hpq Hf Hq; [lia|].
  cbn [Numpy.scan_up].
  destruct (Nat.ltb_spec (Numpy.key v a p) vp) as [L|G].
  - assert (p <> q) by (intros ->; lia).
    destruct (IH a vp (S p) q) as (A & B & C & D); try lia.
    cbv zeta in *. repeat split; try lia.
    intros i Hi1 Hi2. destruct (Nat.eq_dec i p) as [->|]; [exact L|]. apply D; lia.
  - cbv zeta. repeat split; try lia.
Qed.

Lemma scan_down_spec : forall fuel a vp p q,
  q <= p -> p - q < fuel -> Numpy.key v a q <= vp ->
  let p' := Numpy.scan_down v fuel a vp p in
  q <= p' /\ p' <= p /\ Numpy.key v a p' <= vp /\
  forall j, p' < j -> j <= p -> vp < Numpy.key v a j.
Proof.
  induction fuel as [|f IH]; intros a vp p q Hpq Hf Hq; [lia|].
  cbn [Numpy.scan_down].
  destruct (Nat.ltb_spec vp (Numpy.key v a p)) as [L|G].
  - assert (p <> q) by (intros ->; lia).
    destruct (IH a vp (p - 1) q) as (A & B & C & D); try lia.
    cbv zeta in *. repeat split; try lia.
    intros j Hj1 Hj2. destruct (Nat.eq_dec j p) as [->|]; [exact L|]. apply D; lia.
  - cbv zeta. repeat split; try lia.
Qed.

(** The partition loop: the cells up to the returned place hold keys up to
    the pivot's, the cells from there on keys from the pivot's on. *)
Lemma partition_loop_spec lo hi : forall fuel a vp pi pj,
  lo <= pi -> pi < pj -> pj <= hi -> hi < List.length a -> pj - pi <= fuel ->
  (forall i, lo <= i -> i <= pi -> Numpy.key v a i <= vp) ->
  (forall j, pj <= j -> j <= hi -> vp <= Numpy.key v a j) ->
  exists a' pi',
    Numpy.partition_loop v fuel a vp pi pj = (a', pi') /\
    Permutation a a' /\
    (forall i, i <= pi \/ pj <= i -> nth i a' 0 = nth i a 0) /\
    pi < pi' /\ pi' <= pj /\
    (forall i, lo <= i -> i < pi' -> Numpy.key v a' i <= vp) /\
    (forall j, pi' <= j -> j <= hi -> vp <= Numpy.key v a' j).
Proof.
  induction fuel as [|f IH]; intros a vp pi pj H1 H2 H3 H4 Hf P2 P3; [lia|].
  cbn [Numpy.partition_loop].
  destruct (scan_up_spec (List.length a) a vp (S pi) pj) as (U1 & U2 & U3 & U4);
    try lia; [apply P3; lia|].
  destruct (scan_down_spec (List.length a) a vp (pj - 1) pi) as (D1 & D2 & D3 & D4);
    try lia; [apply P2; lia|].
  cbv zeta in U1, U2, U3, U4, D1, D2, D3, D4.
  set (pi1 := Numpy.scan_up v (List.length a) a vp (S pi)) in *.
  set (pj1 := Numpy.scan_down v (List.length a) a vp (pj - 1)) in *.
  destruct (Nat.leb_spec pj1 pi1) as [L|G].
  - exists a, pi1. split; [reflexivity|]. split; [reflexivity|].
    split; [reflexivity|]. split; [lia|]. split; [lia|]. split.
    + intros i Hi1 Hi2. destruct (le_lt_dec i pi) as [A|A]; [now apply P2|].
      apply Nat.lt_le_incl. apply U4; lia.
    + intros j Hj1 Hj2. destruct (le_lt_dec pj j) as [A|A]; [now apply P3|].
      destruct (Nat.eq_dec j pi1) as [->|N]; [exact U3|].
      apply Nat.lt_le_incl. apply D4; lia.
  - destruct (IH (Numpy.swap a pi1 pj1) vp pi1 pj1) as (a' & pi' & E & P & O & I1 & I2 & Q2 & Q3);
      try lia.
    + rewrite length_swap. lia.
    + intros i Hi1 Hi2. destruct (Nat.eq_dec i pi1) as [->|N].
      * rewrite key_swap_l by lia. exact D3.
      * rewrite key_swap_other by lia.
        destruct (le_lt_dec i pi) as [A|A]; [now apply P2|].
        apply Nat.lt_le_incl. apply U4; lia.
    + intros j Hj1 Hj2. destruct (Nat.eq_dec j pj1) as [->|N].
      * rewrite key_swap_r by lia. exact U3.
      * rewrite key_swap_other by lia.
        destruct (le_lt_dec pj j) as [A|A]; [now apply P3|].
        apply Nat.lt_le_incl. apply D4; lia.
    + exists a', pi'. split; [exact E|]. split.
      * rewrite <- P. apply swap_perm; lia.
      * split; [|repeat split; auto; lia].
        intros i Hi. rewrite O by lia. apply nth_swap_other; lia.
Qed.

(** One round of the partitioning loop of the routine. *)
Lemma partition_spec a pl pr :
  Numpy.SMALL_QUICKSORT < pr - pl -> pr < List.length a ->
  let pm := pl + (pr - pl) / 2 in
  let a1 := Numpy.median3 v a pl pm pr in
  let vp := Numpy.key v a1 pm in
  let a2 := Numpy.swap a1 pm (pr - 1) in
  exists a3 pi,
    Numpy.partition_loop v (List.length a2) a2 vp pl (pr - 1) = (a3, pi) /\
    let a4 := Numpy.swap a3 pi (pr - 1) in
    Permutation a a4 /\
    same_outside pl pr a a4 /\
    pl < pi /\ pi < pr /\
    (forall i, pl <= i -> i < pi -> Numpy.key v a4 i <= Numpy.key v a4 pi) /\
    (forall j, pi < j -> j <= pr -> Numpy.key v a4 pi <= Numpy.key v a4 j).
Proof.
  unfold Numpy.SMALL_QUICKSORT. intros S Hr. cbv zeta.
  set (pm := pl + (pr - pl) / 2).
  assert (M1 : pl < pm) by (unfold pm; pose proof (Nat.div_mod_eq (pr - pl) 2);
                            pose proof (Nat.mod_upper_bound (pr - pl) 2); lia).
  assert (M2 : pm < pr - 1) by (unfold pm; pose proof (Nat.div_mod_eq (pr - pl) 2);
                                pose proof (Nat.mod_upper_bound (pr - pl) 2); lia).
  destruct (median3_spec a pl pm pr) as (P1 & L1 & O1 & K1 & K2); try lia.
  cbv zeta in P1, L1, O1, K1, K2.
  set (a1 := Numpy.median3 v a pl pm pr) in *.
  set (vp := Numpy.key v a1 pm) in *.
  set (a2 := Numpy.swap a1 pm (pr - 1)) in *.
  assert (L2 : List.length a2 = List.length a) by (unfold a2; rewrite length_swap; lia).
  destruct (partition_loop_spec pl pr (List.length a2) a2 vp pl (pr - 1))
    as (a3 & pi & E & P3 & O3 & I1 & I2 & Q2 & Q3); try lia.
  - intros i Hi1 Hi2. replace i with pl by lia.
    unfold a2. rewrite key_swap_other by lia. exact K1.
  - intros j Hj1 Hj2. destruct (Nat.eq_dec j pr) as [->|N].
    + unfold a2. rewrite key_swap_other by lia. exact K2.
    + replace j with (pr - 1) by lia. unfold a2. rewrite key_swap_r by lia. lia.
  - exists a3, pi. split; [exact E|].
    assert (L3 : List.length a3 = List.length a).
    { rewrite <- (Permutation_length P3). exact L2. }
    assert (Kp : Numpy.key v a3 (pr - 1) = vp).
    { unfold Numpy.key. rewrite O3 by lia. unfold a2.
      rewrite nth_swap_r by lia. reflexivity. }
    assert (K4 : Numpy.key v (Numpy.swap a3 pi (pr - 1)) pi = vp).
    { rewrite key_swap_l by lia. exact Kp. }
    split; [|split; [|split; [lia|split; [lia|split]]]].
    + rewrite P1. unfold a2 in P3. rewrite <- swap_perm, <- P3 by lia.
      apply swap_perm; lia.
    + intros i Hi. rewrite nth_swap_other by lia. rewrite O3 by lia.
      unfold a2. rewrite nth_swap_other by lia. apply O1. lia.
    + intros i Hi1 Hi2. rewrite K4. rewrite key_swap_other by lia. apply Q2; lia.
    + intros j Hj1 Hj2. rewrite K4. destruct (Nat.eq_dec j (pr - 1)) as [->|N].
      * rewrite key_swap_r by lia. apply Q3; lia.
      * rewrite key_swap_other by lia. apply Q3; lia.
Qed.

End Partition.

Section InsertionSort.

Variable v : list nat.

Lemma nth_prefix (L a : list nat) k : nth (List.length L + k) (L ++ a) 0 = nth k a 0.
Proof. induction L as [|x L IH]; simpl; auto. Qed.

Lemma put_prefix (L a : list nat) k x :
  Numpy.put (List.length L + k) x (L ++ a) = L ++ Numpy.put k x a.
Proof. induction L as [|y L IH]; simpl; [reflexivity|]. now rewrite IH. Qed.

(** The shifting loop does not look at the cells before the partition. *)
Lemma shift_prefix (L : list nat) : forall fuel a vp pl pj,
  Numpy.shift v fuel (L ++ a) vp (List.length L + pl) (List.length L + pj)
  = (L ++ fst (Numpy.shift v fuel a vp pl pj),
     List.length L + snd (Numpy.shift v fuel a vp pl pj)).
Proof.
  induction fuel as [|f IH]; intros a vp pl pj; cbn [Numpy.shift]; [reflexivity|].
  destruct (Nat.ltb_spec pl pj) as [H|H].
  - replace (List.length L + pl <? List.length L + pj) with true
      by (symmetry; apply Nat.ltb_lt; lia).
    cbn [andb]. unfold Numpy.key.
    replace (List.length L + pj - 1) with (List.length L + (pj - 1)) by lia.
    rewrite nth_prefix.
    destruct (vp <? Numpy.key_of v (nth (pj - 1) a 0)); [|reflexivity].
    rewrite put_prefix. apply IH.
  - replace (List.length L + pl <? List.length L + pj) with false
      by (symmetry; apply Nat.ltb_ge; lia).
    reflexivity.
Qed.

(** The insertion loop on a partition that stands between the cells [L]
    and the cells [R]. *)
Lemma insertion_segment (L R : list nat) : forall r p fuel,
  p <> [] -> List.length r <= fuel ->
  Numpy.insertion v fuel (L ++ p ++ r ++ R) (List.length L)
                  (List.length L + List.length p)
                  (List.length L + List.length p + List.length r - 1)
  = L ++ fold_left (fun p vi => place v vi p) r p ++ R.
Proof.
  induction r as [|vi r IH]; intros p fuel Hp Hf.
  - cbn [fold_left List.length app].
    destruct fuel as [|f]; [reflexivity|]. cbn [Numpy.insertion].
    replace (List.length L + List.length p <=? List.length L + List.length p + 0 - 1)
      with false; [reflexivity|].
    symmetry. apply Nat.leb_gt. destruct p; [contradiction|simpl; lia].
  - destruct fuel as [|f]; [simpl in Hf; lia|].
    cbn [Numpy.insertion fold_left List.length] in *.
    replace (List.length L + List.length p
             <=? List.length L + List.length p + S (List.length r) - 1) with true
      by (symmetry; apply Nat.leb_le; lia).
    assert (En : nth (List.length L + List.length p) (L ++ p ++ (vi :: r) ++ R) 0 = vi).
    { rewrite nth_prefix. cbn [app]. apply nth_middle. }
    rewrite En.
    pose proof (shift_prefix L (List.length (L ++ p ++ (vi :: r) ++ R))
                  (p ++ (vi :: r) ++ R) (Numpy.key_of v vi) 0 (List.length p)) as Sp.
    rewrite Nat.add_0_r in Sp. rewrite Sp. clear Sp.
    destruct (place_split v vi p) as (l1 & l2 & Ep & E & F & H).
    assert (Es : Numpy.shift v (List.length (L ++ p ++ (vi :: r) ++ R))
                   (p ++ (vi :: r) ++ R) (Numpy.key_of v vi) 0 (List.length p)
                 = (l1 ++ hd vi l2 :: l2 ++ r ++ R, List.length l1)).
    { rewrite Ep. rewrite <- (app_assoc l1 l2), (length_app l1 l2). cbn [app].
      unfold Numpy.key_of. apply shift_spec; auto.
      rewrite !length_app. simpl. lia. }
    rewrite Es. cbn [fst snd]. rewrite put_prefix, put_middle.
    replace (L ++ l1 ++ vi :: l2 ++ r ++ R) with (L ++ place v vi p ++ r ++ R)
      by (rewrite E, <- app_assoc; reflexivity).
    assert (Lp : List.length (place v vi p) = S (List.length p)).
    { rewrite E, Ep, !length_app. simpl. lia. }
    replace (S (List.length L + List.length p))
      with (List.length L + List.length (place v vi p)) by lia.
    replace (List.length L + List.length p + S (List.length r) - 1)
      with (List.length L + List.length (place v vi p) + List.length r - 1) by lia.
    apply IH; [|lia].
    rewrite E. now destruct l1.
Qed.

Lemma place_sorted vi p :
  StronglySorted (fun x y => nth x v 0 <= nth y v 0) p ->
  StronglySorted (fun x y => nth x v 0 <= nth y v 0) (place v vi p) /\
  Permutation (p ++ [vi]) (place v vi p).
Proof.
  intros S. destruct (place_split v vi p) as (l1 & l2 & Ep & E & F & H).
  rewrite E. split.
  - rewrite Ep in S. apply StronglySorted_app_inv in S. destruct S as (S1 & S2 & H12).
    rewrite Forall_forall in F.
    apply StronglySorted_app; auto.
    + constructor; auto. apply Forall_forall. intros y Hy.
      apply Nat.lt_le_incl. now apply F.
    + intros x y Hx [<-|Hy]; [|now apply H12].
      destruct H as [->|(l & x0 & -> & Hx0)]; [destruct Hx|].
      apply in_app_or in Hx. destruct Hx as [Hx|[<-|[]]]; [|exact Hx0].
      apply StronglySorted_app_inv in S1. destruct S1 as (_ & _ & Hl).
      specialize (Hl x x0 Hx ltac:(now left)). lia.
  - rewrite Ep, <- app_assoc. apply Permutation_app_head.
    symmetry. apply Permutation_cons_append.
Qed.

Lemma fold_place_sorted r : forall p,
  StronglySorted (fun x y => nth x v 0 <= nth y v 0) p ->
  StronglySorted (fun x y => nth x v 0 <= nth y v 0)
                 (fold_left (fun p vi => place v vi p) r p) /\
  Permutation (p ++ r) (fold_left (fun p vi => place v vi p) r p).
Proof.
  induction r as [|vi r IH]; intros p S; cbn [fold_left].
  - rewrite app_nil_r. split; [exact S|reflexivity].
  - destruct (place_sorted vi p S) as [S' P'].
    destruct (IH _ S') as [S'' P'']. split; [exact S''|].
    rewrite <- P'', <- P', <- app_assoc. reflexivity.
Qed.

Lemma split_segment (a : list nat) pl pr :
  pl <= pr -> pr < List.length a ->
  exists L x r R,
    a = L ++ (x :: r) ++ R /\ List.length L = pl /\ List.length r = pr - pl.
Proof.
  intros H1 H2.
  pose proof (firstn_skipn pl a) as E1.
  destruct (skipn pl a) as [|x t] eqn:Et.
  { pose proof (length_skipn pl a) as K. rewrite Et in K. simpl in K. lia. }
  pose proof (firstn_skipn (pr - pl) t) as E2.
  assert (Lt : List.length t = List.length a - pl - 1).
  { pose proof (length_skipn pl a) as K. rewrite Et in K. simpl in K. lia. }
  exists (firstn pl a), x, (firstn (pr - pl) t), (skipn (pr - pl) t).
  split; [|split].
  - rewrite <- E1 at 1. f_equal. now rewrite <- app_comm_cons, E2.
  - rewrite length_firstn. lia.
  - rewrite length_firstn. lia.
Qed.

(** The insertion sort of the routine sorts the partition [pl..pr] and
    leaves the other cells alone. *)
Lemma insertion_sorts a pl pr :
  pl <= pr -> pr < List.length a ->
  let a' := Numpy.insertion v (List.length a) a pl (pl + 1) pr in
  Permutation a a' /\
  same_outside pl pr a a' /\
  forall i j, pl <= i -> i < j -> j <= pr -> Numpy.key v a' i <= Numpy.key v a' j.
Proof.
  intros H1 H2. cbv zeta.
  destruct (split_segment a pl pr H1 H2) as (L & x & r & R & Ea & EL & Er).
  assert (E : Numpy.insertion v (List.length a) a pl (pl + 1) pr
              = L ++ fold_left (fun p vi => place v vi p) r [x] ++ R).
  { rewrite Ea at 2. rewrite <- EL.
    replace (List.length L + 1) with (List.length L + List.length [x]) by reflexivity.
    replace pr with (List.length L + List.length [x] + List.length r - 1)
      by (simpl; lia).
    change ((x :: r) ++ R) with ([x] ++ r ++ R).
    apply insertion_segment; [discriminate|].
    rewrite Ea, !length_app. simpl. lia. }
  rewrite E.
  destruct (fold_place_sorted r [x]) as [Sm P]; [repeat constructor|].
  set (m := fold_left (fun p vi => place v vi p) r [x]) in *.
  assert (Lm : List.length m = S (List.length r)).
  { rewrite <- (Permutation_length P). reflexivity. }
  split; [|split].
  - rewrite Ea. apply Permutation_app_head. apply Permutation_app_tail. exact P.
  - intros i [Hi|Hi].
    + rewrite Ea, !app_nth1 by lia. reflexivity.
    + rewrite Ea. rewrite !(app_nth2 L) by lia.
      rewrite !app_nth2 by (simpl; lia). f_equal. simpl. lia.
  - intros i j Hi Hij Hj. unfold Numpy.key, Numpy.key_of.
    rewrite !(app_nth2 L) by lia. rewrite !app_nth1 by lia.
    apply (StronglySorted_nth _ 0 m Sm); lia.
Qed.

End InsertionSort.

Section HeapSort.

Variable v : list nat.

Lemma key_put_same p x a :
  p < List.length a -> Numpy.key v (Numpy.put p x a) p = Numpy.key_of v x.
Proof. intros. unfold Numpy.key. now rewrite nth_put_same. Qed.

Lemma key_put_other p q x a :
  p <> q -> Numpy.key v (Numpy.put p x a) q = Numpy.key v a q.
Proof. intros. unfold Numpy.key. now rewrite nth_put_other. Qed.

Lemma put_put_swap (a : list nat) p q x :
  p <> q -> p < List.length a -> q < List.length a ->
  Numpy.put q x (Numpy.put p (nth q a 0) a)
  = Numpy.swap (Numpy.put p x a) p q.
Proof.
  intros N Hp Hq. unfold Numpy.swap.
  rewrite nth_put_same by lia. rewrite nth_put_other by lia.
  now rewrite put_put.
Qed.

(** The sift-down with the hole at [i]: the cells from [l] on form a heap
    but for the hole, whose parent dominates the new key and the hole's
    children. *)
Lemma sift_spec pl n l : forall fuel a tmp i,
  1 <= l -> l <= i -> i <= n -> pl + n <= List.length a -> n < fuel + i ->
  (forall k c, l <= k -> k <> i -> c = k + k \/ c = k + k + 1 -> c <= n ->
     Numpy.key v a (pl + c - 1) <= Numpy.key v a (pl + k - 1)) ->
  (forall p, l <= p -> i = p + p \/ i = p + p + 1 ->
     Numpy.key_of v tmp <= Numpy.key v a (pl + p - 1) /\
     forall c, c = i + i \/ c = i + i + 1 -> c <= n ->
       Numpy.key v a (pl + c - 1) <= Numpy.key v a (pl + p - 1)) ->
  let a' := Numpy.sift v fuel a pl n tmp i (i + i) in
  heap_from v a' pl l n /\
  Permutation (Numpy.put (pl + i - 1) tmp a) a' /\
  (forall x, x < pl + i - 1 \/ pl + n - 1 < x -> nth x a' 0 = nth x a 0).
Proof.
  induction fuel as [|f IH]; intros a tmp i Hl Hi Hn Ha Hf H1 H3; [lia|].
  cbv zeta. cbn [Numpy.sift].
  assert (Put : (forall c, c = i + i \/ c = i + i + 1 -> c <= n ->
                   Numpy.key v a (pl + c - 1) <= Numpy.key_of v tmp) ->
                heap_from v (Numpy.put (pl + i - 1) tmp a) pl l n).
  { intros Hc k c Hk Hkc Hcn.
    destruct (Nat.eq_dec k i) as [->|Nk].
    - rewrite key_put_same by lia. rewrite key_put_other by lia. now apply Hc.
    - destruct (Nat.eq_dec c i) as [->|Nc].
      + rewrite key_put_same by lia. rewrite key_put_other by lia.
        now apply (H3 k).
      + rewrite !key_put_other by lia. now apply H1. }
  assert (Done : (forall c, c = i + i \/ c = i + i + 1 -> c <= n ->
                    Numpy.key v a (pl + c - 1) <= Numpy.key_of v tmp) ->
                 heap_from v (Numpy.put (pl + i - 1) tmp a) pl l n /\
                 Permutation (Numpy.put (pl + i - 1) tmp a) (Numpy.put (pl + i - 1) tmp a) /\
                 (forall x, x < pl + i - 1 \/ pl + n - 1 < x ->
                    nth x (Numpy.put (pl + i - 1) tmp a) 0 = nth x a 0)).
  { intros Hc. split; [apply Put; auto|]. split; [reflexivity|].
    intros x Hx. apply nth_put_other. lia. }
  clear Put.
  destruct (Nat.leb_spec (i + i) n) as [J|J]; [|apply Done; intros; lia].
  set (j := if (i + i <? n) && (Numpy.key v a (pl + (i + i) - 1) <? Numpy.key v a (pl + (i + i)))
            then i + i + 1 else i + i).
  assert (Hj : (j = i + i \/ j = i + i + 1) /\ j <= n /\
               forall c, c = i + i \/ c = i + i + 1 -> c <= n ->
                 Numpy.key v a (pl + c - 1) <= Numpy.key v a (pl + j - 1)).
  { unfold j. destruct (Nat.ltb_spec (i + i) n) as [A|A]; cbn [andb].
    - destruct (Nat.ltb_spec (Numpy.key v a (pl + (i + i) - 1)) (Numpy.key v a (pl + (i + i))))
        as [B|B].
      + split; [now right|]. split; [lia|]. intros c [-> | ->] Hc.
        * replace (pl + (i + i + 1) - 1) with (pl + (i + i)) by lia. lia.
        * lia.
      + split; [now left|]. split; [lia|]. intros c [-> | ->] Hc.
        * lia.
        * replace (pl + (i + i + 1) - 1) with (pl + (i + i)) by lia. lia.
    - split; [now left|]. split; [lia|]. intros c [-> | ->] Hc; lia. }
  destruct Hj as (Hj1 & Hj2 & Hj3).
  change (if (i + i <? n) && (Numpy.key v a (pl + (i + i) - 1) <? Numpy.key v a (pl + (i + i)))
          then i + i + 1 else i + i) with j.
  clearbody j.
  destruct (Nat.ltb_spec (Numpy.key_of v tmp) (Numpy.key v a (pl + j - 1))) as [T|T].
  - set (a1 := Numpy.put (pl + i - 1) (nth (pl + j - 1) a 0) a).
    assert (K1 : Numpy.key v a1 (pl + i - 1) = Numpy.key v a (pl + j - 1)).
    { unfold a1. now rewrite key_put_same by lia. }
    assert (K2 : forall x, x <> pl + i - 1 -> Numpy.key v a1 x = Numpy.key v a x).
    { intros x Hx. unfold a1. now rewrite key_put_other by lia. }
    destruct (IH a1 tmp j) as (G1 & G2 & G3); try lia.
    + unfold a1. rewrite length_put. lia.
    + intros k c Hk Nk Hkc Hc.
      destruct (Nat.eq_dec k i) as [->|Ni].
      * rewrite K1. destruct (Nat.eq_dec c j) as [->|Nc].
        -- rewrite K2 by lia. lia.
        -- rewrite K2 by lia. now apply Hj3.
      * destruct (Nat.eq_dec c i) as [->|Nc].
        -- rewrite K1, K2 by lia. now apply (H3 k).
        -- rewrite !K2 by lia. now apply H1.
    + intros p Hp Hjp. assert (p = i) by lia. subst p.
      rewrite K1. split; [lia|]. intros c Hc Hcn.
      rewrite K2 by lia. apply H1; auto; lia.
    + cbv zeta in G1, G2, G3. split; [exact G1|]. split.
      * rewrite <- G2. unfold a1. rewrite put_put_swap by lia.
        apply swap_perm; rewrite length_put; lia.
      * intros x Hx. rewrite G3 by lia. unfold a1. apply nth_put_other. lia.
  - apply Done. intros c Hc Hcn. specialize (Hj3 c Hc Hcn). lia.
Qed.

Lemma heapify_spec pl n : forall l a,
  pl + n <= List.length a -> l <= n ->
  heap_from v a pl (l + 1) n ->
  let a' := Numpy.heapify v l a pl n in
  heap_from v a' pl 1 n /\
  Permutation a a' /\
  same_outside pl (pl + n - 1) a a'.
Proof.
  induction l as [|l IH]; intros a Ha Hl H; cbv zeta; cbn [Numpy.heapify].
  - split; [exact H|]. split; [reflexivity|apply same_outside_refl].
  - destruct (sift_spec pl n (S l) n a (nth (pl + S l - 1) a 0) (S l))
      as (G1 & G2 & G3); try lia.
    + intros k c Hk Nk Hkc Hc. apply H; auto. lia.
    + cbv zeta in G1, G2, G3. rewrite put_nth in G2.
      set (a1 := Numpy.sift v n a pl n (nth (pl + S l - 1) a 0) (S l) (S l + S l)) in *.
      destruct (IH a1) as (I1 & I2 & I3); try lia.
      * rewrite <- (Permutation_length G2). exact Ha.
      * replace (l + 1) with (S l) by lia. exact G1.
      * cbv zeta in I1, I2, I3. split; [exact I1|]. split; [now rewrite G2|].
        intros x Hx. rewrite I3 by lia. apply G3. lia.
Qed.

Lemma heap_root_max a pl m :
  heap_from v a pl 1 m ->
  forall k, 1 <= k -> k <= m -> Numpy.key v a (pl + k - 1) <= Numpy.key v a (pl + 1 - 1).
Proof.
  intros H k. induction k as [k IH] using lt_wf_ind. intros H1 H2.
  destruct (Nat.eq_dec k 1) as [->|N]; [lia|].
  pose proof (Nat.div_mod_eq k 2) as D. pose proof (Nat.mod_upper_bound k 2) as U.
  set (p := k / 2) in *.
  assert (Hp : Numpy.key v a (pl + k - 1) <= Numpy.key v a (pl + p - 1)).
  { apply H; lia. }
  specialize (IH p ltac:(lia) ltac:(lia) ltac:(lia)). lia.
Qed.

Lemma extract_spec pl n : forall m a,
  NoDup a -> pl + n <= List.length a -> m <= n ->
  heap_from v a pl 1 m ->
  (forall k c, 1 <= k -> k < c -> m < c -> c <= n ->
     Numpy.key v a (pl + k - 1) <= Numpy.key v a (pl + c - 1)) ->
  let a' := Numpy.extract v m a pl in
  Permutation a a' /\
  same_outside pl (pl + n - 1) a a' /\
  (forall k c, 1 <= k -> k < c -> c <= n ->
     Numpy.key v a' (pl + k - 1) <= Numpy.key v a' (pl + c - 1)).
Proof.
  induction m as [|m IH]; intros a N Ha Hm H T; cbv zeta.
  - cbn [Numpy.extract]. split; [reflexivity|]. split; [apply same_outside_refl|].
    intros k c Hk Hkc Hc. apply T; lia.
  - destruct m as [|m'].
    + cbn [Numpy.extract]. split; [reflexivity|]. split; [apply same_outside_refl|].
      intros k c Hk Hkc Hc. apply T; lia.
    + set (m := S m') in *.
      change (Numpy.extract v (S m) a pl)
        with (Numpy.extract v m
                (Numpy.sift v m (Numpy.put (pl + S m - 1) (nth pl a 0) a) pl m
                            (nth (pl + S m - 1) a 0) 1 2) pl).
      set (tmp := nth (pl + S m - 1) a 0).
      set (a1 := Numpy.put (pl + S m - 1) (nth pl a 0) a).
      assert (K1 : forall x, x <> pl + S m - 1 -> Numpy.key v a1 x = Numpy.key v a x).
      { intros x Hx. unfold a1. now rewrite key_put_other by lia. }
      assert (Km : Numpy.key v a1 (pl + S m - 1) = Numpy.key v a (pl + 1 - 1)).
      { unfold a1. rewrite key_put_same by lia. unfold Numpy.key.
        now replace (pl + 1 - 1) with pl by lia. }
      destruct (sift_spec pl m 1 m a1 tmp 1) as (G1 & G2 & G3); try lia.
      * unfold a1. rewrite length_put. lia.
      * intros k c Hk Nk Hkc Hc. rewrite !K1 by lia. apply H; auto; lia.
      * cbv zeta in G1, G2, G3. change (1 + 1) with 2 in G1, G2, G3.
        set (a2 := Numpy.sift v m a1 pl m tmp 1 2) in *.
        set (b := Numpy.put (pl + 1 - 1) tmp a1) in *.
        assert (Eb : b = Numpy.swap a (pl + S m - 1) pl).
        { unfold b, a1, tmp, Numpy.swap. now replace (pl + 1 - 1) with pl by lia. }
        assert (Pb : Permutation a b) by (rewrite Eb; apply swap_perm; lia).
        assert (Nb : NoDup b) by (now apply (Permutation_NoDup Pb)).
        assert (Lb : List.length b = List.length a) by (symmetry; now apply Permutation_length).
        assert (Sb : same_outside (pl + 1 - 1) (pl + m - 1) b a2).
        { intros x Hx. rewrite G3 by lia. unfold b. symmetry. apply nth_put_other. lia. }
        assert (Kb : forall k, 1 <= k -> k <= m ->
                  exists k', 1 <= k' /\ k' <= S m /\
                    Numpy.key v a2 (pl + k - 1) = Numpy.key v a (pl + k' - 1)).
        { intros k Hk1 Hk2.
          destruct (stays_inside _ _ _ _ Nb G2 Sb (pl + k - 1)) as (x & X1 & X2 & X3 & E);
            try lia.
          unfold Numpy.key. rewrite E.
          destruct (Nat.eq_dec x pl) as [->|Nx].
          - exists (S m). split; [lia|]. split; [lia|].
            rewrite Eb. rewrite nth_swap_r by lia. reflexivity.
          - exists (x - pl + 1). split; [lia|]. split; [lia|].
            rewrite Eb. rewrite nth_swap_other by lia. f_equal. f_equal. lia. }
        assert (Ko : forall c, m < c -> c <= n ->
                  Numpy.key v a2 (pl + c - 1)
                  = if c =? S m then Numpy.key v a (pl + 1 - 1)
                    else Numpy.key v a (pl + c - 1)).
        { intros c Hc1 Hc2. unfold Numpy.key at 1. rewrite G3 by lia.
          fold (Numpy.key v a1 (pl + c - 1)).
          destruct (Nat.eqb_spec c (S m)) as [->|Nc]; [exact Km|apply K1; lia]. }
        destruct (IH a2) as (I1 & I2 & I3); try lia.
        -- apply (Permutation_NoDup G2 Nb).
        -- rewrite <- (Permutation_length G2). lia.
        -- exact G1.
        -- intros k c Hk Hkc Hmc Hc.
           rewrite (Ko c) by lia.
           destruct (le_lt_dec k m) as [A|A].
           ++ destruct (Kb k Hk A) as (k' & B1 & B2 & ->).
              destruct (Nat.eqb_spec c (S m)) as [->|Nc].
              ** apply heap_root_max with (m := S m); auto.
              ** destruct (Nat.eq_dec k' c); [subst; lia|]. apply T; lia.
           ++ rewrite (Ko k) by lia.
              destruct (Nat.eqb_spec k (S m)) as [->|Nk];
                (destruct (Nat.eqb_spec c (S m)) as [->|Nc]; [lia|]).
              ** apply T; lia.
              ** apply T; lia.
        -- cbv zeta in I1, I2, I3. split; [now rewrite Pb, G2|]. split; [|exact I3].
           intros x Hx. rewrite I2 by lia. rewrite G3 by lia.
           unfold a1. apply nth_put_other. lia.
Qed.

(** The heapsort of the routine sorts the partition [pl..pl+n-1] and
    leaves the other cells alone. *)
Lemma aheapsort_sorts a pl n :
  NoDup a -> 1 <= n -> pl + n <= List.length a ->
  let a' := Numpy.aheapsort v a pl n in
  Permutation a a' /\
  same_outside pl (pl + n - 1) a a' /\
  forall i j, pl <= i -> i < j -> j <= pl + n - 1 ->
    Numpy.key v a' i <= Numpy.key v a' j.
Proof.
  intros N Hn Ha. cbv zeta. unfold Numpy.aheapsort.
  pose proof (Nat.div_mod_eq n 2) as D. pose proof (Nat.mod_upper_bound n 2) as U.
  destruct (heapify_spec pl n (n / 2) a) as (H1 & H2 & H3); try lia.
  { intros k c Hk Hkc Hc. lia. }
  cbv zeta in H1, H2, H3.
  set (a1 := Numpy.heapify v (n / 2) a pl n) in *.
  destruct (extract_spec pl n n a1) as (E1 & E2 & E3); try lia.
  - apply (Permutation_NoDup H2 N).
  - rewrite <- (Permutation_length H2). lia.
  - exact H1.
  - cbv zeta in E1, E2, E3. split; [now rewrite H2|]. split.
    + now apply same_outside_trans with (b := a1).
    + intros i j Hi Hij Hj.
      replace i with (pl + (i - pl + 1) - 1) by lia.
      replace j with (pl + (j - pl + 1) - 1) by lia.
      apply E3; lia.
Qed.

End HeapSort.

Section SortingLoop.

Variable v : list nat.

Lemma pending_bounds a pl pr stack :
  pending v a ((pl, pr) :: stack) ->
  pl <= pr /\ pr < List.length a /\ NoDup a.
Proof.
  intros (P & B & _ & _). apply Forall_cons_iff in B. destruct B as [[B1 B2] _].
  simpl in B1, B2. repeat split; auto.
  apply (Permutation_NoDup P). apply seq_NoDup.
Qed.

(** A partition that has been sorted leaves the pending ones. *)
Lemma pending_sorted a a' pl pr stack :
  pending v a ((pl, pr) :: stack) ->
  Permutation a a' ->
  same_outside pl pr a a' ->
  (forall i j, pl <= i -> i < j -> j <= pr -> Numpy.key v a' i <= Numpy.key v a' j) ->
  pending v a' stack.
Proof.
  intros H P S O.
  apply (process_step v a a' (pl, pr) stack [] H P S); simpl; auto.
Qed.

(** The partitioning loop keeps the state of the sort, and what it pushes
    takes no more iterations than the partition it splits. *)
Lemma quick_phase_spec : forall fuel a pl pr stack cdepth depth,
  pending v a ((pl, pr) :: stack) ->
  List.length stack = List.length depth ->
  exists a' pl' pr' stack' depth',
    Numpy.quick_phase v fuel a pl pr stack cdepth depth = (a', pl', pr', stack', depth') /\
    pending v a' ((pl', pr') :: stack') /\
    List.length stack' = List.length depth' /\
    budget ((pl', pr') :: stack') <= budget ((pl, pr) :: stack).
Proof.
  induction fuel as [|f IH]; intros a pl pr stack cdepth depth H L.
  - exists a, pl, pr, stack, depth. split; [reflexivity|]. split; [exact H|]. split; [exact L|lia].
  - cbn [Numpy.quick_phase].
    destruct (Nat.ltb_spec Numpy.SMALL_QUICKSORT (pr - pl)) as [Q|Q].
    2:{ exists a, pl, pr, stack, depth.
        split; [reflexivity|]. split; [exact H|]. split; [exact L|lia]. }
    destruct (pending_bounds _ _ _ _ H) as (B1 & B2 & N).
    destruct (partition_spec v a pl pr Q B2) as (a3 & pi & E & P & So & I1 & I2 & Q1 & Q2).
    cbv zeta in E, P, So, Q1, Q2. rewrite E.
    set (a4 := Numpy.swap a3 pi (pr - 1)) in *.
    assert (K : forall news,
               (news = [(pl, pi - 1); (pi + 1, pr)] \/ news = [(pi + 1, pr); (pl, pi - 1)]) ->
               pending v a4 (news ++ stack) /\
               budget (news ++ stack) <= budget ((pl, pr) :: stack)).
    { intros news Hn. split.
      - apply (process_step v a a4 (pl, pr) stack news H P So).
        + intros i j Hi Hij Hj. cbn [fst snd] in *.
          destruct (le_lt_dec pi i) as [A|A].
          * destruct (Nat.eq_dec i pi) as [->|Ni].
            -- left. apply Q2; lia.
            -- right. exists (pi + 1, pr). split; [|simpl; lia].
               destruct Hn as [-> | ->]; simpl; auto.
          * destruct (le_lt_dec j pi) as [C|C].
            -- destruct (Nat.eq_dec j pi) as [->|Nj].
               ++ left. apply Q1; lia.
               ++ right. exists (pl, pi - 1). split; [|simpl; lia].
                  destruct Hn as [-> | ->]; simpl; auto.
            -- left. specialize (Q1 i ltac:(lia) ltac:(lia)).
               specialize (Q2 j ltac:(lia) ltac:(lia)). lia.
        + destruct Hn as [-> | ->]; repeat constructor; simpl; lia.
        + destruct Hn as [-> | ->]; simpl; repeat split; auto;
            repeat constructor; unfold apart; simpl; lia.
      - destruct Hn as [-> | ->]; unfold budget; simpl; lia. }
    destruct (Nat.ltb_spec (pi - pl) (pr - pi)) as [C|C].
    + destruct (K [(pl, pi - 1); (pi + 1, pr)] ltac:(now left)) as [K1 K2].
      destruct (IH a4 pl (pi - 1) ((pi + 1, pr) :: stack) (cdepth - 1)%Z
                   ((cdepth - 1)%Z :: depth) K1 ltac:(simpl; lia))
        as (a' & pl' & pr' & stack' & depth' & E' & P' & L' & B').
      exists a', pl', pr', stack', depth'.
      split; [exact E'|]. split; [exact P'|]. split; [exact L'|].
      eapply Nat.le_trans; [exact B'|exact K2].
    + destruct (K [(pi + 1, pr); (pl, pi - 1)] ltac:(now right)) as [K1 K2].
      destruct (IH a4 (pi + 1) pr ((pl, pi - 1) :: stack) (cdepth - 1)%Z
                   ((cdepth - 1)%Z :: depth) K1 ltac:(simpl; lia))
        as (a' & pl' & pr' & stack' & depth' & E' & P' & L' & B').
      exists a', pl', pr', stack', depth'.
      split; [exact E'|]. split; [exact P'|]. split; [exact L'|].
      eapply Nat.le_trans; [exact B'|exact K2].
Qed.

Lemma budget_cons pl pr stack :
  budget ((pl, pr) :: stack) = pr - pl + 2 + budget stack.
Proof. reflexivity. Qed.

(** The sorting loop ends with no partition pending. *)
Lemma sort_loop_spec : forall fuel a pl pr stack cdepth depth,
  pending v a ((pl, pr) :: stack) ->
  List.length stack = List.length depth ->
  budget ((pl, pr) :: stack) <= fuel ->
  pending v (Numpy.sort_loop v fuel a pl pr stack cdepth depth) [].
Proof.
  induction fuel as [|f IH]; intros a pl pr stack cdepth depth H L B.
  { rewrite budget_cons in B. lia. }
  assert (Pop : forall a1 stack1 depth1,
             pending v a1 stack1 -> List.length stack1 = List.length depth1 ->
             budget stack1 <= f ->
             pending v (match stack1, depth1 with
                        | (pl', pr') :: stack', d :: depth' =>
                            Numpy.sort_loop v f a1 pl' pr' stack' d depth'
                        | _, _ => a1
                        end) []).
  { intros a1 [|[pl' pr'] stack'] [|d depth'] H1 L1 B1; simpl in L1; try lia; auto. }
  cbn [Numpy.sort_loop].
  destruct (pending_bounds _ _ _ _ H) as (B1 & B2 & N).
  rewrite budget_cons in B.
  destruct (cdepth <? 0)%Z.
  - destruct (aheapsort_sorts v a pl (pr - pl + 1) N) as (P & S & O); try lia.
    cbv zeta in P, S, O. replace (pl + (pr - pl + 1) - 1) with pr in S, O by lia.
    apply Pop; auto; [|lia].
    now apply (pending_sorted a _ pl pr).
  - destruct (quick_phase_spec (List.length a) a pl pr stack cdepth depth H L)
      as (a' & pl' & pr' & stack' & depth' & E & P' & L' & B').
    rewrite E.
    destruct (pending_bounds _ _ _ _ P') as (C1 & C2 & N').
    destruct (insertion_sorts v a' pl' pr' C1 C2) as (P & S & O).
    cbv zeta in P, S, O.
    rewrite !budget_cons in B'.
    apply Pop; auto; [|lia].
    now apply (pending_sorted a' _ pl' pr').
Qed.

Lemma sorted_of_nth (l : list nat) :
  (forall i j, i < j -> j < List.length l -> nth i l 0 <= nth j l 0) ->
  Sorted le l.
Proof.
  induction l as [|x l IH]; intros H; [constructor|].
  constructor.
  - apply IH. intros i j Hij Hj. apply (H (S i) (S j)); simpl; lia.
  - destruct l as [|y l]; constructor.
    apply (H 0 1); simpl; lia.
Qed.

End SortingLoop.

(** The routine sorts: its answer holds every position once, and the keys
    read in its order do not decrease. *)
Lemma argsort_sorts keys : sorts keys (Numpy.argsort keys) = true.
Proof.
  unfold Numpy.argsort.
  destruct (List.length keys) as [|n] eqn:E.
  { unfold sorts. rewrite E. reflexivity. }
  assert (H : pending keys (seq 0 (S n)) [(0, S n - 1)]).
  { split; [now rewrite E|]. split; [|split].
    - constructor; [cbn [fst snd]; rewrite length_seq; lia|constructor].
    - simpl. auto.
    - intros i j Hij Hj. right. rewrite length_seq in Hj.
      exists (0, S n - 1). simpl. split; [now left|lia]. }
  pose proof (sort_loop_spec keys (S (S n)) (seq 0 (S n)) 0 (S n - 1) []
                (2 * Z.of_nat (Nat.log2 (S n)))%Z [] H eq_refl) as Hs.
  specialize (Hs ltac:(unfold budget; simpl; lia)).
  set (p := Numpy.sort_loop keys (S (S n)) (seq 0 (S n)) 0 (S n - 1) []
              (2 * Z.of_nat (Nat.log2 (S n)))%Z []) in *.
  destruct Hs as (P & _ & _ & O).
  unfold sorts. rewrite E in *. apply andb_true_iff. split.
  - now apply is_permutation_of_range_complete.
  - apply nondecreasing_complete. apply sorted_of_nth.
    unfold take_list. intros i j Hij Hj. rewrite length_map in Hj.
    assert (M : forall k, k < List.length p ->
               nth k (map (fun i => nth i keys 0) p) 0 = nth (nth k p 0) keys 0).
    { intros k Hk.
      rewrite (nth_indep _ 0 ((fun i => nth i keys 0) 0)) by (rewrite length_map; lia).
      apply (map_nth (fun i => nth i keys 0)). }
    rewrite !M by lia.
    destruct (O i j Hij Hj) as [K|(s & [] & _)]. exact K.
Qed.

(** The sort with any routine whose answer on the slice's category codes
    is a rearrangement ordered by code: the sorted frame has the same rows
    in category order, and sorting again keeps the sequence of categories;
    when the answer also keeps ties in order, rows of one category keep
    their order and sorting again changes nothing. *)
Lemma category_sort_for_routine :
  forall (argsort : list nat -> list nat) (float_repr : Q -> string)
         (df : DataFrame) (department : cell) (dept : DataFrame),
    wf df ->
    dept_df float_repr df department = Ok dept ->
    sorts (sort_keys dept) (argsort (sort_keys dept)) = true ->
    exists sorted,
      staff_sorted_df argsort dept = Ok sorted /\
      Permutation (index dept) (index sorted) /\
      in_category_order sorted /\
      (sorts (sort_keys sorted) (argsort (sort_keys sorted)) = true ->
       exists again,
         staff_sorted_df argsort sorted = Ok again /\
         find_column "Degree Group" again = find_column "Degree Group" sorted) /\
      (ties_in_order (sort_keys dept) (argsort (sort_keys dept)) = true ->
       forall degree, rows_of_degree degree sorted = rows_of_degree degree dept) /\
      (sorts (sort_keys sorted) (argsort (sort_keys sorted)) = true ->
       ties_in_order (sort_keys sorted) (argsort (sort_keys sorted)) = true ->
       staff_sorted_df argsort sorted = Ok sorted).
Proof.
  intros argsort fr df department dept W Hd Hs.
  destruct (dept_df_classified fr df department dept W Hd) as (Wd & g & Eg & Hg).
  set (p := argsort (sort_keys dept)) in *.
  pose proof (sorts_permutation _ _ Hs) as P.
  rewrite (classified_keys _ _ Eg Hg), length_map in P.
  destruct (classified_take p dept g Wd Eg Hg P) as ((Ws & _) & Hg' & Hk).
  pose proof (find_degree_group_take p dept g Eg) as Eg'.
  assert (S' : StronglySorted le (sort_keys (take p dept))).
  { rewrite Hk. now apply sorts_sorted. }
  exists (take p dept). split; [|split; [|split; [|split; [|split]]]].
  - now apply staff_sorted_df_take with (g := g).
  - unfold take. cbn [index]. apply take_list_permutation.
    now rewrite (wf_column _ _ _ Wd Eg) in P.
  - now apply sorted_in_category_order with (g := g).
  - intros Hs2. eexists. split.
    + now apply staff_sorted_df_take with (g := take_list CNaN p g).
    + rewrite Eg'. now apply sorted_again_same_categories.
  - intros Ht. now apply stable_rows with (g := g).
  - intros Hs2 Ht2.
    rewrite (staff_sorted_df_take argsort _ _ Eg' Hg' Hs2). f_equal.
    now apply sorted_again_identity with (g := take_list CNaN p g).
Qed.

(** C3, amended: the sort puts the rows of every slice into the order
    Consultant, Specialist, Resident, Other: the sorted frame has the same
    rows, no row of a later category stands before a row of an earlier
    one, and sorting it again leaves the sequence of categories as it is.
    Rows of one category keep their original order, and sorting again
    changes nothing at all, on every slice of at most sixteen rows (the
    routine is then an insertion sort); beyond that the default routine
    does not keep ties in order.  The same holds with any sorting routine
    in place of the default one: the order of the categories whenever its
    answer on the slice's category codes is a rearrangement ordered by
    code, the order within a category whenever that answer keeps ties in
    order. *)
Theorem category_sort_orders_categories :
  forall (float_repr : Q -> string) (df : DataFrame) (department : cell)
         (dept : DataFrame),
    wf df ->
    dept_df float_repr df department = Ok dept ->
    (exists sorted,
       staff_sorted_df Numpy.argsort dept = Ok sorted /\
       Permutation (index dept) (index sorted) /\
       in_category_order sorted /\
       (exists again,
          staff_sorted_df Numpy.argsort sorted = Ok again /\
          find_column "Degree Group" again = find_column "Degree Group" sorted) /\
       (len dept <= 16 ->
        (forall degree, rows_of_degree degree sorted = rows_of_degree degree dept) /\
        staff_sorted_df Numpy.argsort sorted = Ok sorted)) /\
    (forall argsort : list nat -> list nat,
        sorts (sort_keys dept) (argsort (sort_keys dept)) = true ->
        exists sorted,
          staff_sorted_df argsort dept = Ok sorted /\
          Permutation (index dept) (index sorted) /\
          in_category_order sorted /\
          (sorts (sort_keys sorted) (argsort (sort_keys sorted)) = true ->
           exists again,
             staff_sorted_df argsort sorted = Ok again /\
             find_column "Degree Group" again = find_column "Degree Group" sorted) /\
          (ties_in_order (sort_keys dept) (argsort (sort_keys dept)) = true ->
           forall degree, rows_of_degree degree sorted = rows_of_degree degree dept) /\
          (sorts (sort_keys sorted) (argsort (sort_keys sorted)) = true ->
           ties_in_order (sort_keys sorted) (argsort (sort_keys sorted)) = true ->
           staff_sorted_df argsort sorted = Ok sorted)).
Proof.
  intros fr df department dept W Hd. split.
  - destruct (dept_df_classified fr df department dept W Hd) as (Wd & g & Eg & Hg).
    assert (Lk : List.length (sort_keys dept) = len dept).
    { now rewrite (classified_keys _ _ Eg Hg), length_map, (wf_column _ _ _ Wd Eg). }
    pose proof (argsort_sorts (sort_keys dept)) as Hs.
    destruct (category_sort_for_routine Numpy.argsort fr df department dept W Hd Hs)
      as (sorted & E & P & O & A & T & I).
    exists sorted. split; [exact E|]. split; [exact P|]. split; [exact O|].
    split; [apply A, argsort_sorts|].
    intros L.
    assert (Ls : List.length (sort_keys sorted) = len dept).
    { rewrite (staff_sorted_df_take Numpy.argsort _ _ Eg Hg Hs) in E.
      injection E as <-.
      pose proof (sorts_permutation _ _ Hs) as Q.
      rewrite Lk, <- (wf_column _ _ _ Wd Eg) in Q.
      destruct (classified_take _ dept g Wd Eg Hg Q) as (_ & _ & ->).
      unfold take_list. rewrite length_map, <- (Permutation_length Q), length_seq.
      now apply wf_column with (c := "Degree Group"). }
    destruct (argsort_small_stable (sort_keys dept)) as [_ Ht]; [lia|].
    destruct (argsort_small_stable (sort_keys sorted)) as [Hs2 Ht2]; [lia|].
    split; [now apply T|now apply I].
  - intros argsort. now apply category_sort_for_routine with (1 := W) (2 := Hd).
Qed.

Lemma category_sort_orders_categories_witness :
  exists sorted,
    staff_sorted_df Numpy.argsort sample_slice = Ok sorted /\
    find_column "staff name" sample_slice = Some [CStr "A"; CStr "B"] /\
    find_column "staff name" sorted = Some [CStr "B"; CStr "A"] /\
    find_column "Degree Group" sorted = Some [CStr "Consultant"; CStr "Resident"] /\
    Permutation (index sample_slice) (index sorted) /\
    in_category_order sorted /\
    (forall degree, rows_of_degree degree sorted = rows_of_degree degree sample_slice) /\
    staff_sorted_df Numpy.argsort sorted = Ok sorted.
Proof.
  assert (W : wf (clean_columns sample_upload)) by (vm_compute; repeat constructor).
  assert (Hd : dept_df (fun _ => "0.0") (clean_columns sample_upload) (CStr "Surgery")
               = Ok sample_slice) by (vm_compute; reflexivity).
  assert (L : len sample_slice <= 16) by (vm_compute; lia).
  destruct (category_sort_orders_categories (fun _ => "0.0")
              (clean_columns sample_upload) (CStr "Surgery") sample_slice W Hd)
    as [S _].
  destruct S as (sorted & E & P & O & _ & TI).
  destruct (TI L) as [T I].
  exists sorted.
  assert (E' : staff_sorted_df Numpy.argsort sample_slice
               = Ok (take [1; 0] sample_slice)) by (vm_compute; reflexivity).
  assert (Es : sorted = take [1; 0] sample_slice) by congruence.
  split; [exact E|]. split; [reflexivity|].
  split; [rewrite Es; reflexivity|]. split; [rewrite Es; reflexivity|].
  split; [exact P|]. split; [exact O|]. split; [exact T|exact I].
Defined.

(** C3, as the spec states it, fails for the routine the script calls:
    eighteen residents of one department come out of the sort in the order
    0, 15, 14, ..., 1, 16, 17 of their original positions, so rows tied in
    one category do not keep their order, and sorting the sorted roster
    again changes it once more.  Nor does the claim follow from what a
    sorting routine promises: a routine that sorts every list of keys and
    reverses ties swaps two residents. *)
Lemma category_sort_reorders_ties :
  (exists dept sorted,
      wf eighteen_residents /\
      dept_df (fun _ => "0.0") eighteen_residents (CStr "Surgery") = Ok dept /\
      staff_sorted_df Numpy.argsort dept = Ok sorted /\
      index dept = seq 0 18 /\
      index sorted = [0; 15; 14; 13; 12; 11; 10; 9; 8; 7; 6; 5; 4; 3; 2; 1; 16; 17] /\
      rows_of_degree "Resident" sorted <> rows_of_degree "Resident" dept /\
      staff_sorted_df Numpy.argsort sorted <> Ok sorted) /\
  ~ category_sort_is_stable Numpy.argsort /\
  ~ (forall argsort,
        (forall keys, sorts keys (argsort keys) = true) ->
        category_sort_is_stable argsort).
Proof.
  assert (W : wf eighteen_residents) by (vm_compute; repeat constructor).
  assert (R : forall a b : DataFrame, index a <> index b -> Ok a <> Ok b)
    by (intros a b N [= E]; apply N; now rewrite E).
  assert (F : exists dept sorted,
      wf eighteen_residents /\
      dept_df (fun _ => "0.0") eighteen_residents (CStr "Surgery") = Ok dept /\
      staff_sorted_df Numpy.argsort dept = Ok sorted /\
      index dept = seq 0 18 /\
      index sorted = [0; 15; 14; 13; 12; 11; 10; 9; 8; 7; 6; 5; 4; 3; 2; 1; 16; 17] /\
      rows_of_degree "Resident" sorted <> rows_of_degree "Resident" dept /\
      staff_sorted_df Numpy.argsort sorted <> Ok sorted).
  { eexists. eexists.
    split; [exact W|].
    split; [vm_compute; reflexivity|].
    split; [vm_compute; reflexivity|].
    split; [reflexivity|]. split; [reflexivity|].
    split; vm_compute; apply R; cbn [index]; discriminate. }
  split; [exact F|]. split.
  - intros H. destruct F as (dept & sorted & _ & Hd & Hs & _ & _ & _ & N).
    apply N. now destruct (H _ _ _ _ _ W Hd Hs) as (_ & _ & I).
  - intros H. specialize (H reversing_argsort reversing_argsort_sorts).
    assert (W2 : wf two_residents) by (vm_compute; repeat constructor).
    destruct (H (fun _ => "0.0") two_residents (CStr "Surgery")
                (match dept_df (fun _ => "0.0") two_residents (CStr "Surgery") with
                 | Ok d => d | Raise _ => mkDF [] [] end)
                (match dept_df (fun _ => "0.0") two_residents (CStr "Surgery") with
                 | Ok d => take [1; 0] d | Raise _ => mkDF [] [] end)
                W2 ltac:(vm_compute; reflexivity) ltac:(vm_compute; reflexivity))
      as (_ & T & _).
    specialize (T "Resident"). vm_compute in T. discriminate T.
Qed.

(* ================================================================== *)
(** * Further properties of the pipeline *)

(* ------------------------------------------------------------------ *)
(** ** The schema check, said on the headers as uploaded *)

Lemma clean_header_department h :
  Text.clean_header h = "department" <-> Text.words h = ["department"].
Proof.
  split; intros H.
  - rewrite <- clean_header_words, H. reflexivity.
  - rewrite clean_header_join, H. reflexivity.
Qed.

Lemma department_header_iff raw :
  In "department" (columns (clean_columns raw)) <->
  exists h, In h (columns raw) /\ Text.words h = ["department"].
Proof.
  rewrite columns_clean_columns, in_map_iff. split.
  - intros (h & E & I). exists h. split; [exact I|now apply clean_header_department].
  - intros (h & I & E). exists h. split; [now apply clean_header_department|exact I].
Qed.

Section Occurrences.

Lemma prefix_occurs p : forall s, prefix p s = true <-> exists b, s = String.append p b.
Proof.
  induction p as [|c p IH]; intros s.
  - split; [intros _; now exists s|intros _; now destruct s].
  - destruct s as [|c' s]; simpl; [split; [discriminate|intros [b Hb]; discriminate]|].
    destruct (Ascii.ascii_dec c c') as [<-|N].
    + rewrite IH. split; intros [b Hb]; exists b; congruence.
    + split; [discriminate|]. intros [b Hb]. congruence.
Qed.

Lemma contains_occurs p s : Text.contains p s = true <-> occurs p s.
Proof.
  assert (E0 : Text.contains p "" = prefix p "" || false) by reflexivity.
  assert (E1 : forall c r, Text.contains p (String c r)
                           = prefix p (String c r) || Text.contains p r) by reflexivity.
  unfold occurs. split.
  - induction s as [|c s IH]; rewrite ?E0, ?E1, orb_true_iff; intros [H|H].
    + apply prefix_occurs in H. destruct H as [b Hb]. now exists EmptyString, b.
    + discriminate.
    + apply prefix_occurs in H. destruct H as [b Hb]. now exists EmptyString, b.
    + destruct (IH H) as (a & b & ->). now exists (String c a), b.
  - intros (a & b & ->). induction a as [|c a IH].
    + change (String.append "" (String.append p b)) with (String.append p b).
      destruct (String.append p b) as [|c r] eqn:E; rewrite ?E0, ?E1;
        apply orb_true_iff; left; apply prefix_occurs; exists b; auto.
    + change (String.append (String c a) (String.append p b))
        with (String c (String.append a (String.append p b))).
      rewrite E1. apply orb_true_iff. right. exact IH.
Qed.

Lemma lower_append a b :
  Text.lower (String.append a b) = String.append (Text.lower a) (Text.lower b).
Proof. induction a as [|c a IH]; simpl; congruence. Qed.

Lemma occurs_inside p s a b : occurs p s -> occurs p (String.append a (String.append s b)).
Proof.
  intros (x & y & ->). exists (String.append a x), (String.append y b).
  clear. induction a as [|c a IH]; simpl.
  - induction x as [|c x IH]; simpl; [|congruence].
    induction p as [|c p IH]; simpl; congruence.
  - congruence.
Qed.

End Occurrences.

Section RawHeaders.

Lemma is_blank_space c : is_blank c = true -> Text.is_space c = true.
Proof.
  unfold is_blank, Text.is_space. intros H.
  repeat (apply orb_true_iff in H; destruct H as [H|H]);
    apply Nat.eqb_eq in H; rewrite H; reflexivity.
Qed.

Lemma words_from_leading_blanks a s :
  blanks a = true ->
  Text.words_from "" (String.append a s) = Text.words_from "" s.
Proof.
  induction a as [|c a IH]; simpl; [reflexivity|].
  intros H. apply andb_true_iff in H. destruct H as [Hc Ha].
  now rewrite (is_blank_space c Hc), IH.
Qed.

Lemma words_from_blanks b : blanks b = true -> Text.words_from "" b = [].
Proof.
  induction b as [|c b IH]; simpl; [reflexivity|].
  intros H. apply andb_true_iff in H. destruct H as [Hc Hb].
  now rewrite (is_blank_space c Hc), IH.
Qed.

Lemma words_from_trailing_blanks c w b :
  blanks b = true -> Text.words_from (String c w) b = [String c w].
Proof.
  destruct b as [|x b]; simpl; [reflexivity|].
  intros H. apply andb_true_iff in H. destruct H as [Hx Hb].
  now rewrite (is_blank_space x Hx), words_from_blanks.
Qed.

Lemma padded_department_words h :
  padded "department" h -> Text.words h = ["department"].
Proof.
  intros (a & b & Ha & Hb & ->). unfold Text.words.
  rewrite words_from_leading_blanks by exact Ha.
  cbn. now apply words_from_trailing_blanks.
Qed.

Lemma append_assoc3 a c r :
  String.append (String.append a (String c "")) r = String.append a (String c r).
Proof. induction a as [|x a IH]; simpl; congruence. Qed.

Lemma append_empty a : String.append a "" = a.
Proof. induction a as [|x a IH]; simpl; congruence. Qed.

Lemma words_from_occurs w : forall s acc,
  In w (Text.words_from acc s) -> occurs w (String.append acc s).
Proof.
  induction s as [|c s IH]; intros acc H.
  - destruct acc as [|x acc]; simpl in H; [destruct H|].
    destruct H as [<-|[]]. exists "", "". simpl. now rewrite !append_empty.
  - cbn [Text.words_from] in H. destruct (Text.is_space c).
    + assert (K : In w (Text.words_from "" s) -> occurs w (String.append acc (String c s))).
      { intros K. apply IH in K. destruct K as (a & b & E). simpl in E.
        exists (String.append acc (String c a)), b. rewrite E.
        clear. induction acc as [|x acc IHa]; simpl; congruence. }
      destruct acc as [|x acc]; [now apply K|].
      destruct H as [<-|H]; [|now apply K].
      exists "", (String c s). reflexivity.
    + apply IH in H. now rewrite append_assoc3 in H.
Qed.

Lemma words_occurs w h : In w (Text.words h) -> occurs w h.
Proof. intros H. now apply (words_from_occurs w h ""). Qed.

End RawHeaders.

(** X1: the schema check, said on the headers as uploaded.  An upload
    passes when one of its headers is the word "department" between blanks
    (spaces, tabs, line breaks); it passes only when some header holds the
    text "department", so an upload without it is stopped with the schema
    message. *)
Theorem ingest_accepts_padded_department :
  forall raw : DataFrame,
    ((exists h, In h (columns raw) /\ padded "department" h) ->
     ingest raw = inr (clean_columns raw)) /\
    (ingest raw = inr (clean_columns raw) ->
     exists h, In h (columns raw) /\ occurs "department" h) /\
    ((forall h, In h (columns raw) -> ~ occurs "department" h) ->
     ingest raw = inl "CSV must contain 'department' column").
Proof.
  intros raw.
  assert (O : In "department" (columns (clean_columns raw)) ->
              exists h, In h (columns raw) /\ occurs "department" h).
  { intros I. apply department_header_iff in I. destruct I as (h & I & E).
    exists h. split; [exact I|]. apply words_occurs. rewrite E. now left. }
  unfold ingest.
  destruct (has_column "department" (clean_columns raw)) eqn:E; cbn [negb].
  - assert (I : In "department" (columns (clean_columns raw))).
    { destruct (in_dec string_dec "department" (columns (clean_columns raw))) as [I|I];
        [exact I|]. apply has_column_false in I. congruence. }
    split; [reflexivity|]. split; [intros _; now apply O|].
    intros N. destruct (O I) as (h & Ih & Oh). now elim (N h Ih).
  - apply has_column_false in E. split; [|split; [discriminate|reflexivity]].
    intros (h & I & P). elim E. apply department_header_iff.
    exists h. split; [exact I|now apply padded_department_words].
Qed.

Lemma ingest_accepts_padded_department_witness :
  ingest upload_without_degree = inr (clean_columns upload_without_degree) /\
  (exists h, In h (columns upload_without_degree) /\ occurs "department" h) /\
  ingest (mkDF [0] [("Department", [CStr "Surgery"])])
  = inl "CSV must contain 'department' column".
Proof.
  destruct (ingest_accepts_padded_department upload_without_degree) as (A & B & _).
  destruct (ingest_accepts_padded_department (mkDF [0] [("Department", [CStr "Surgery"])]))
    as (_ & _ & C).
  assert (E : ingest upload_without_degree = inr (clean_columns upload_without_degree)).
  { apply A. exists " department ". split; [now left|].
    exists " ", " ". repeat split. }
  split; [exact E|]. split; [exact (B E)|].
  apply C. intros h [<-|[]] O.
  apply contains_occurs in O. discriminate O.
Defined.

(* ------------------------------------------------------------------ *)
(** ** When the sums and the metric cards raise *)

Section Sums.

Lemma forallb_false_existsb {A} (f : A -> bool) l :
  forallb f l = false <-> existsb (fun x => negb (f x)) l = true.
Proof.
  induction l as [|a l IH]; simpl; [split; discriminate|].
  destruct (f a); simpl; [exact IH|split; reflexivity].
Qed.

Lemma forallb_existsb_false {A} (f : A -> bool) l :
  forallb (fun x => negb (f x)) l = true <-> existsb f l = false.
Proof.
  induction l as [|a l IH]; simpl; [split; reflexivity|].
  destruct (f a); simpl; [split; discriminate|exact IH].
Qed.

Lemma text_or_missing_no_number v :
  forallb (fun c => is_str c || is_missing c) v = negb (existsb Builtins.is_num v).
Proof.
  induction v as [|c v IH]; simpl; [reflexivity|].
  rewrite IH. now destruct c.
Qed.

Lemma no_text_forallb v :
  forallb (fun c => negb (is_str c)) v = negb (existsb is_str v).
Proof.
  induction v as [|c v IH]; simpl; [reflexivity|].
  rewrite IH. now destruct c.
Qed.

Lemma integers_no_text v : forallb is_int v = true -> existsb is_str v = false.
Proof.
  induction v as [|c v IH]; simpl; [reflexivity|].
  destruct c; simpl; auto; discriminate.
Qed.

(** The cases of [Series.sum]: no text, text without a number, text next
    to a number. *)
Lemma series_sum_cases v :
  (existsb is_str v = false /\
   exists x, series_sum v = Ok x /\ Builtins.is_num x = true) \/
  (existsb is_str v = true /\ existsb Builtins.is_num v = false /\
   series_sum v
   = Ok (CStr (String.concat "" (map (fun c => match c with CStr s => s | _ => "" end) v)))) \/
  (existsb is_str v = true /\ existsb Builtins.is_num v = true /\
   series_sum v = Raise (TypeError "unsupported operand type(s) for +")).
Proof.
  unfold series_sum. rewrite text_or_missing_no_number, no_text_forallb.
  destruct (forallb is_int v) eqn:I.
  - left. split; [now apply integers_no_text|eexists; split; reflexivity].
  - destruct (existsb is_str v); cbn [negb].
    + right. destruct (existsb Builtins.is_num v); cbn [negb]; auto.
    + left. split; [reflexivity|eexists; split; reflexivity].
Qed.

End Sums.





(* ------------------------------------------------------------------ *)
(** ** The sidebar: the departments on offer *)

Section Keys.

Lemma Qeq_bool_sym x y : Qeq_bool x y = Qeq_bool y x.
Proof.
  destruct (Qeq_bool x y) eqn:E; symmetry.
  - apply Qeq_bool_iff. symmetry. now apply Qeq_bool_iff.
  - destruct (Qeq_bool y x) eqn:E'; [|reflexivity].
    apply Qeq_bool_iff in E'. symmetry in E'. apply Qeq_bool_iff in E'. congruence.
Qed.

Lemma cell_eqb_sym a b : cell_eqb a b = cell_eqb b a.
Proof.
  destruct a, b; simpl; auto using String.eqb_sym, Qeq_bool_sym.
Qed.

Lemma cell_eqb_refl c : c <> CNaN -> cell_eqb c c = true.
Proof.
  destruct c; simpl; intros H.
  - apply String.eqb_refl.
  - apply Qeq_bool_iff. reflexivity.
  - apply Qeq_bool_iff. reflexivity.
  - now elim H.
Qed.

Lemma cell_eqb_trans a b c :
  cell_eqb a b = true -> cell_eqb b c = true -> cell_eqb a c = true.
Proof.
  destruct a, b; simpl; try discriminate; destruct c; simpl; try discriminate;
    intros H1 H2;
    first [ apply String.eqb_eq in H1, H2; apply String.eqb_eq; congruence
          | apply Qeq_bool_iff in H1, H2; apply Qeq_bool_iff; now rewrite H1 ].
Qed.

Lemma cell_eq_missing (c : cell) : c = CNaN \/ c <> CNaN.
Proof. destruct c; auto; right; discriminate. Qed.

Lemma cell_eqb_not_missing a b : cell_eqb a b = true -> a <> CNaN /\ b <> CNaN.
Proof. destruct a, b; simpl; try discriminate; split; discriminate. Qed.

Lemma same_key_refl c : same_key c c = true.
Proof. destruct c; try reflexivity; now apply cell_eqb_refl. Qed.

Lemma same_key_sym a b : same_key a b = same_key b a.
Proof. destruct a, b; try reflexivity; apply cell_eqb_sym. Qed.

Lemma same_key_eqb a b : a <> CNaN -> same_key a b = cell_eqb a b.
Proof. destruct a; try reflexivity. intros H. now elim H. Qed.

Lemma same_key_missing seen : existsb (same_key CNaN) seen = existsb is_missing seen.
Proof. induction seen as [|c r IH]; simpl; [reflexivity|]. rewrite IH. now destruct c. Qed.

Lemma same_key_dropna c seen :
  c <> CNaN -> existsb (same_key c) (dropna seen) = existsb (same_key c) seen.
Proof.
  intros H. induction seen as [|x r IH]; simpl; [reflexivity|].
  destruct x; simpl; rewrite IH; try reflexivity.
  destruct c; try reflexivity. now elim H.
Qed.

Lemma in_dropna c v : In c (dropna v) <-> In c v /\ c <> CNaN.
Proof.
  unfold dropna. rewrite filter_In. split; intros [H1 H2]; split; auto.
  - intros ->. discriminate.
  - destruct c; auto; now elim H2.
Qed.

(** What [unique] keeps: values of the column, one for every key, no two
    with the same key. *)
Lemma unique_from_spec v :
  forall seen,
    (forall c, In c (unique_from seen v) -> In c v) /\
    (forall c, In c (unique_from seen v) -> existsb (same_key c) seen = false) /\
    (forall c, In c v ->
               existsb (same_key c) seen = true \/
               exists o, In o (unique_from seen v) /\ same_key c o = true) /\
    ForallOrdPairs (fun a b => same_key a b = false) (unique_from seen v).
Proof.
  induction v as [|x v IH]; intros seen; cbn [unique_from].
  - repeat split; try (intros c []). constructor.
  - destruct (existsb (same_key x) seen) eqn:E.
    + destruct (IH seen) as (H1 & H2 & H3 & H4). repeat split; auto.
      * intros c Hc. right. now apply H1.
      * intros c [<-|Hc]; [now left|now apply H3].
    + destruct (IH (x :: seen)) as (H1 & H2 & H3 & H4). repeat split.
      * intros c [<-|Hc]; [now left|right; now apply H1].
      * intros c [<-|Hc]; [exact E|].
        specialize (H2 c Hc). cbn [existsb] in H2. now apply orb_false_iff in H2.
      * intros c [<-|Hc].
        -- right. exists x. split; [now left|apply same_key_refl].
        -- destruct (H3 c Hc) as [S|(o & Ho & S)].
           ++ cbn [existsb] in S. apply orb_true_iff in S. destruct S as [S|S]; [|now left].
              right. exists x. split; [now left|exact S].
           ++ right. exists o. split; [now right|exact S].
      * constructor; [|exact H4]. apply Forall_forall. intros c Hc.
        specialize (H2 c Hc). cbn [existsb] in H2. apply orb_false_iff in H2.
        rewrite same_key_sym. tauto.
Qed.

Lemma length_unique_dropna v :
  forall seen,
    List.length (unique_from seen v)
    = List.length (unique_from (dropna seen) (dropna v))
      + (if existsb is_missing v && negb (existsb is_missing seen) then 1 else 0).
Proof.
  induction v as [|x v IH]; intros seen; [reflexivity|].
  destruct (cell_eq_missing x) as [->|N].
  - cbn [unique_from dropna filter existsb is_missing orb]. rewrite same_key_missing.
    destruct (existsb is_missing seen) eqn:E; cbn [negb andb].
    + rewrite IH, E. cbn [negb]. now rewrite andb_false_r.
    + cbn [List.length]. rewrite IH. cbn [existsb is_missing orb negb].
      rewrite andb_false_r.
      change (dropna (CNaN :: seen)) with (dropna seen). fold (dropna v). lia.
  - assert (D : dropna (x :: v) = x :: dropna v) by (destruct x; try reflexivity; now elim N).
    assert (M : is_missing x = false) by (destruct x; try reflexivity; now elim N).
    rewrite D. cbn [unique_from existsb]. rewrite M. cbn [orb].
    rewrite (same_key_dropna x seen N).
    destruct (existsb (same_key x) seen) eqn:E.
    + apply IH.
    + cbn [List.length]. rewrite IH.
      assert (D' : dropna (x :: seen) = x :: dropna seen)
        by (destruct x; try reflexivity; now elim N).
      rewrite D'. cbn [existsb]. rewrite M. cbn [orb]. lia.
Qed.

End Keys.

Section Order.

Lemma ascii_compare_trans a b c :
  Ascii.compare a b = Lt -> Ascii.compare b c = Lt -> Ascii.compare a c = Lt.
Proof.
  unfold Ascii.compare. rewrite !N.compare_lt_iff. apply N.lt_trans.
Qed.

Lemma string_compare_trans s :
  forall t u, String.compare s t = Lt -> String.compare t u = Lt -> String.compare s u = Lt.
Proof.
  induction s as [|a s IH]; intros [|b t] [|c u]; simpl; try discriminate; auto.
  destruct (Ascii.compare a b) eqn:Eab; try discriminate.
  - apply Ascii.compare_eq_iff in Eab. subst b.
    destruct (Ascii.compare a c); try discriminate; auto. apply IH.
  - intros _. destruct (Ascii.compare b c) eqn:Ebc; try discriminate.
    + apply Ascii.compare_eq_iff in Ebc. subst c. now rewrite Eab.
    + now rewrite (ascii_compare_trans _ _ _ Eab Ebc).
Qed.

Lemma string_compare_refl s : String.compare s s = Eq.
Proof.
  pose proof (String.compare_antisym s s) as H.
  destruct (String.compare s s); simpl in H; auto; discriminate.
Qed.

Lemma qlt_trans (x y z : Q) :
  match (x ?= y)%Q with Lt => true | _ => false end = true ->
  match (y ?= z)%Q with Lt => true | _ => false end = true ->
  match (x ?= z)%Q with Lt => true | _ => false end = true.
Proof.
  destruct (x ?= y)%Q eqn:E1; try discriminate.
  destruct (y ?= z)%Q eqn:E2; try discriminate.
  apply (proj2 (Qlt_alt _ _)) in E1. apply (proj2 (Qlt_alt _ _)) in E2.
  now rewrite (proj1 (Qlt_alt _ _) (Qlt_trans _ _ _ E1 E2)).
Qed.

Lemma qlt_not_eq (x y : Q) :
  match (x ?= y)%Q with Lt => true | _ => false end = true -> Qeq_bool x y = false.
Proof.
  destruct (x ?= y)%Q eqn:E; try discriminate. intros _.
  apply (proj2 (Qlt_alt _ _)) in E.
  destruct (Qeq_bool x y) eqn:B; [|reflexivity].
  apply Qeq_bool_iff in B. rewrite B in E. now apply Qlt_irrefl in E.
Qed.

Lemma string_ltb_trans s t u :
  String.ltb s t = true -> String.ltb t u = true -> String.ltb s u = true.
Proof.
  unfold String.ltb.
  destruct (String.compare s t) eqn:E1; try discriminate.
  destruct (String.compare t u) eqn:E2; try discriminate.
  now rewrite (string_compare_trans _ _ _ E1 E2).
Qed.

Lemma lt_trans a b c :
  Builtins.lt a b = true -> Builtins.lt b c = true -> Builtins.lt a c = true.
Proof.
  destruct a, b; simpl; try discriminate; destruct c; simpl; try discriminate.
  all: first [apply string_ltb_trans | apply qlt_trans].
Qed.

Lemma lt_not_same a b : Builtins.lt a b = true -> same_key a b = false.
Proof.
  destruct a, b; simpl; try discriminate; try reflexivity.
  2-5: apply qlt_not_eq.
  unfold String.ltb. destruct (String.compare s s0) eqn:E; try discriminate.
  intros _. apply String.eqb_neq. intros ->.
  rewrite string_compare_refl in E. discriminate.
Qed.

Lemma qlt_total (x y : Q) :
  Qeq_bool x y = false ->
  match (x ?= y)%Q with Lt => true | _ => false end = true \/
  match (y ?= x)%Q with Lt => true | _ => false end = true.
Proof.
  intros B. rewrite <- (Qcompare_antisym x y).
  destruct (x ?= y)%Q eqn:E; simpl; auto.
  apply Qeq_alt in E. apply Qeq_bool_iff in E. congruence.
Qed.

Lemma lt_total a b :
  same_kind a b = true -> same_key a b = false ->
  Builtins.lt a b = true \/ Builtins.lt b a = true.
Proof.
  unfold same_kind. destruct a, b; simpl; try discriminate; intros _.
  2-5: apply qlt_total.
  unfold String.ltb. rewrite (String.compare_antisym s0 s).
  destruct (String.compare s s0) eqn:E; simpl; auto.
  apply String.compare_eq_iff in E. subst. now rewrite String.eqb_refl.
Qed.

Lemma insert_permutation x l : Permutation (x :: l) (Builtins.insert x l).
Proof.
  induction l as [|y r IH]; simpl; [reflexivity|].
  destruct (Builtins.lt y x); [|reflexivity].
  rewrite perm_swap. now constructor.
Qed.

Lemma sort_permutation l : Permutation l (fold_right Builtins.insert [] l).
Proof.
  induction l as [|x l IH]; simpl; [constructor|].
  rewrite <- insert_permutation. now constructor.
Qed.

Lemma insert_strict x l :
  StronglySorted precedes l ->
  Forall (fun y => Builtins.lt x y = true \/ Builtins.lt y x = true) l ->
  StronglySorted precedes (Builtins.insert x l).
Proof.
  induction 1 as [|y r S IH F]; intros T; simpl; [repeat constructor|].
  inversion T as [|? ? Ty Tr]; subst.
  destruct (Builtins.lt y x) eqn:E.
  - constructor; [now apply IH|].
    apply Forall_forall. intros z Hz.
    apply (Permutation_in _ (Permutation_sym (insert_permutation x r))) in Hz.
    destruct Hz as [<-|Hz]; [exact E|].
    rewrite Forall_forall in F. now apply F.
  - destruct Ty as [Ty|Ty]; [|congruence].
    constructor; [now constructor|].
    constructor; [exact Ty|].
    apply Forall_forall. intros z Hz. rewrite Forall_forall in F.
    apply lt_trans with y; [exact Ty|now apply F].
Qed.

Lemma sort_strict l :
  forallb is_str l || forallb Builtins.is_num l = true ->
  ForallOrdPairs (fun a b => same_key a b = false) l ->
  StronglySorted precedes (fold_right Builtins.insert [] l).
Proof.
  intros K D. induction D as [|x l F D IH]; simpl; [constructor|].
  assert (K' : forallb is_str l || forallb Builtins.is_num l = true).
  { simpl in K. apply orb_true_iff in K. apply orb_true_iff.
    destruct K as [K|K]; apply andb_true_iff in K; tauto. }
  apply insert_strict; [now apply IH|].
  apply Forall_forall. intros y Hy.
  apply (Permutation_in _ (Permutation_sym (sort_permutation l))) in Hy.
  rewrite Forall_forall in F. apply lt_total; [|now apply F].
  unfold same_kind. simpl in K. apply orb_true_iff in K. apply orb_true_iff.
  destruct K as [K|K]; apply andb_true_iff in K; destruct K as [Kx Kl];
    rewrite forallb_forall in Kl; rewrite Kx, (Kl y Hy); auto.
Qed.

(** In a strictly increasing list a key occurs once. *)
Lemma strict_key_unique l :
  StronglySorted precedes l ->
  forall a b, In a l -> In b l -> same_key a b = true -> a = b.
Proof.
  induction 1 as [|x l S IH F]; intros a b Ha Hb K; [destruct Ha|].
  rewrite Forall_forall in F.
  destruct Ha as [<-|Ha], Hb as [<-|Hb]; auto.
  - apply F, lt_not_same in Hb. congruence.
  - apply F, lt_not_same in Ha. rewrite same_key_sym in Ha. congruence.
Qed.

Lemma department_options_ok df options :
  department_options df = Ok options ->
  exists d,
    find_column "department" df = Some d /\
    Permutation (unique (dropna d)) options /\
    StronglySorted precedes options.
Proof.
  unfold department_options, get_column.
  destruct (find_column "department" df) as [d|]; [|discriminate].
  cbn [bind]. unfold Builtins.sorted.
  destruct (forallb is_str (unique (dropna d)) || forallb Builtins.is_num (unique (dropna d)))
    eqn:K; [|discriminate].
  intros [= <-]. exists d. split; [reflexivity|]. split; [apply sort_permutation|].
  apply sort_strict; [exact K|]. apply unique_from_spec.
Qed.

End Order.

Section SliceFacts.

Lemma lookup_assign_other c c' v l : c <> c' -> lookup c (assign c' v l) = lookup c l.
Proof.
  intros N. induction l as [|[k x] r IH]; simpl.
  - destruct (String.eqb_spec c' c); [congruence|reflexivity].
  - destruct (String.eqb_spec k c'); simpl.
    + subst k. destruct (String.eqb_spec c' c); [congruence|reflexivity].
    + now rewrite IH.
Qed.

Lemma find_set_column_other c c' v df :
  c <> c' -> find_column c (set_column c' v df) = find_column c df.
Proof. apply lookup_assign_other. Qed.

Lemma find_set_column_same c v df : find_column c (set_column c v df) = Some v.
Proof. apply lookup_assign_same. Qed.

Lemma mask_filter_self {A} (f : A -> bool) l : mask_filter (map f l) l = filter f l.
Proof. induction l as [|x l IH]; simpl; [reflexivity|]. rewrite IH. reflexivity. Qed.

(** The slice, read off [dept_df]: the rows under the mask of the
    department column, and the classified column set on them. *)
Lemma dept_df_slice float_repr df department dept :
  dept_df float_repr df department = Ok dept ->
  exists d,
    find_column "department" df = Some d /\
    dept = set_column "Degree Group"
             (match find_column "degree"
                      (filter_rows (map (fun c => cell_eqb c department) d) df) with
              | Some deg => map (fun x => CStr (classify_degree float_repr x)) deg
              | None => repeat (CStr "Other")
                               (len (filter_rows (map (fun c => cell_eqb c department) d) df))
              end)
             (filter_rows (map (fun c => cell_eqb c department) d) df).
Proof.
  unfold dept_df, get_column.
  destruct (find_column "department" df) as [d|]; [|discriminate].
  cbn [bind]. intros [= <-]. now exists d.
Qed.

Lemma len_dept_df float_repr df department dept d :
  wf df ->
  dept_df float_repr df department = Ok dept ->
  find_column "department" df = Some d ->
  len dept = List.length (filter (fun c => cell_eqb c department) d).
Proof.
  intros W H E. destruct (dept_df_slice _ _ _ _ H) as (d' & E' & ->).
  rewrite E in E'. injection E' as <-.
  unfold len, set_column, filter_rows. cbn [index].
  rewrite <- (mask_filter_self (fun c => cell_eqb c department) d).
  apply length_mask_filter. symmetry. now apply wf_column with (c := "department").
Qed.

Lemma department_of_dept_df float_repr df department dept d :
  dept_df float_repr df department = Ok dept ->
  find_column "department" df = Some d ->
  find_column "department" dept = Some (filter (fun c => cell_eqb c department) d).
Proof.
  intros H E. destruct (dept_df_slice _ _ _ _ H) as (d' & E' & ->).
  rewrite E in E'. injection E' as <-.
  rewrite find_set_column_other by discriminate.
  rewrite find_filter_rows, E. cbn [option_map]. now rewrite mask_filter_self.
Qed.

End SliceFacts.

(** X4: the select box offers the departments of the column in strictly
    increasing order, so none twice; every option occurs in the column and
    is no missing value; and every row that has a department matches
    exactly one option. *)
Theorem department_options_distinct_sorted :
  forall (df : DataFrame) (options : list cell),
    department_options df = Ok options ->
    exists d,
      find_column "department" df = Some d /\
      StronglySorted precedes options /\
      (forall o, In o options -> In o d /\ o <> CNaN) /\
      (forall c, In c d -> c <> CNaN ->
         exists o, In o options /\ cell_eqb c o = true /\
                   forall o', In o' options -> cell_eqb c o' = true -> o' = o).
Proof.
  intros df options H.
  destruct (department_options_ok _ _ H) as (d & E & P & S).
  destruct (unique_from_spec (dropna d) []) as (U1 & _ & U3 & _).
  exists d. repeat split; auto.
  - apply (Permutation_in _ (Permutation_sym P)), U1, in_dropna in H0. tauto.
  - apply (Permutation_in _ (Permutation_sym P)), U1, in_dropna in H0. tauto.
  - intros c Hc Nc.
    destruct (U3 c (proj2 (in_dropna c d) (conj Hc Nc))) as [F|(o & Ho & K)];
      [discriminate|].
    rewrite (same_key_eqb c o Nc) in K.
    exists o. split; [now apply (Permutation_in _ P)|]. split; [exact K|].
    intros o' Ho' K'.
    apply (strict_key_unique options S); auto; [now apply (Permutation_in _ P)|].
    rewrite same_key_eqb by (apply cell_eqb_not_missing in K'; tauto).
    apply cell_eqb_trans with c; [now rewrite cell_eqb_sym|exact K].
Qed.

Lemma department_options_distinct_sorted_witness :
  exists d,
    find_column "department" upload_with_unassigned = Some d /\
    StronglySorted precedes [CStr "Cardiology"; CStr "Surgery"] /\
    (forall o, In o [CStr "Cardiology"; CStr "Surgery"] -> In o d /\ o <> CNaN) /\
    (forall c, In c d -> c <> CNaN ->
       exists o, In o [CStr "Cardiology"; CStr "Surgery"] /\ cell_eqb c o = true /\
                 forall o', In o' [CStr "Cardiology"; CStr "Surgery"] ->
                            cell_eqb c o' = true -> o' = o).
Proof.
  apply (department_options_distinct_sorted upload_with_unassigned
           [CStr "Cardiology"; CStr "Surgery"]).
  reflexivity.
Defined.

(** X5: a department picked from the options has staff: its slice holds at
    least one row, as many as the column has cells equal to the department,
    and every row of the slice is of that department. *)
Theorem offered_department_has_staff :
  forall (float_repr : Q -> string) (df : DataFrame) (options : list cell)
         (department : cell),
    wf df ->
    department_options df = Ok options ->
    In department options ->
    exists dept d,
      dept_df float_repr df department = Ok dept /\
      1 <= len dept /\
      find_column "department" dept = Some d /\
      List.length d = len dept /\
      Forall (fun c => cell_eqb c department = true) d.
Proof.
  intros fr df options department W H I.
  destruct (department_options_ok _ _ H) as (d & E & P & _).
  destruct (unique_from_spec (dropna d) []) as (U1 & _).
  apply (Permutation_in _ (Permutation_sym P)), U1, in_dropna in I.
  destruct I as [I N].
  assert (Hd : exists dept, dept_df fr df department = Ok dept).
  { unfold dept_df, get_column. rewrite E. cbn [bind]. eauto. }
  destruct Hd as [dept Hd].
  exists dept, (filter (fun c => cell_eqb c department) d).
  rewrite (len_dept_df _ _ _ _ _ W Hd E).
  split; [exact Hd|]. split; [|split; [|split]].
  - assert (In department (filter (fun c => cell_eqb c department) d)).
    { apply filter_In. split; [exact I|now apply cell_eqb_refl]. }
    destruct (filter (fun c => cell_eqb c department) d); [destruct H0|simpl; lia].
  - now apply department_of_dept_df with (float_repr := fr) (df := df).
  - reflexivity.
  - apply Forall_forall. intros c Hc. now apply filter_In in Hc.
Qed.

Lemma offered_department_has_staff_witness :
  exists dept d,
    dept_df (fun _ => "0.0") upload_with_unassigned (CStr "Surgery") = Ok dept /\
    1 <= len dept /\
    find_column "department" dept = Some d /\
    List.length d = len dept /\
    Forall (fun c => cell_eqb c (CStr "Surgery") = true) d.
Proof.
  apply (offered_department_has_staff (fun _ => "0.0") upload_with_unassigned
           [CStr "Cardiology"; CStr "Surgery"] (CStr "Surgery")).
  - vm_compute. repeat constructor.
  - reflexivity.
  - simpl. auto.
Defined.

(** X6: the card "Total Departments" counts the missing value as a
    department: it shows the number of options of the select box, and one
    more when a row has no department. *)
Theorem total_departments_counts_missing :
  forall (df : DataFrame) (options : list cell),
    department_options df = Ok options ->
    exists d,
      find_column "department" df = Some d /\
      total_departments df
      = Ok (List.length options + (if existsb is_missing d then 1 else 0)).
Proof.
  intros df options H.
  destruct (department_options_ok _ _ H) as (d & E & P & _).
  exists d. split; [exact E|].
  unfold total_departments, get_column. rewrite E. cbn [bind]. f_equal.
  unfold unique in *. rewrite (length_unique_dropna d []).
  cbn [dropna filter existsb negb]. rewrite andb_true_r.
  now rewrite (Permutation_length P).
Qed.

Lemma total_departments_counts_missing_witness :
  exists d,
    find_column "department" upload_with_unassigned = Some d /\
    total_departments upload_with_unassigned
    = Ok (List.length [CStr "Cardiology"; CStr "Surgery"]
          + (if existsb is_missing d then 1 else 0)).
Proof.
  apply (total_departments_counts_missing upload_with_unassigned
           [CStr "Cardiology"; CStr "Surgery"]).
  reflexivity.
Defined.

(* ------------------------------------------------------------------ *)
(** ** The department slice *)

Section SliceRows.

Lemma columns_assign c v l :
  map fst (assign c v l)
  = if existsb (String.eqb c) (map fst l) then map fst l else map fst l ++ [c].
Proof.
  induction l as [|[k x] r IH]; simpl; [reflexivity|].
  rewrite (String.eqb_sym c k).
  destruct (String.eqb k c); simpl; [reflexivity|].
  rewrite IH. now destruct (existsb (String.eqb c) (map fst r)).
Qed.

Lemma has_column_existsb c df : has_column c df = existsb (String.eqb c) (columns df).
Proof.
  unfold has_column, find_column, columns.
  induction (cols df) as [|[k x] r IH]; simpl; [reflexivity|].
  rewrite (String.eqb_sym c k). now destruct (String.eqb k c).
Qed.

Lemma columns_filter_rows m df : columns (filter_rows m df) = columns df.
Proof. unfold columns, filter_rows. cbn [cols]. now rewrite map_map. Qed.

End SliceRows.

(** X7: the slice holds exactly the rows of the upload whose department is
    the selected one, in upload order and each row whole: its row labels
    and every column but Degree Group are the upload's, read at those
    positions.  A missing value where a department is expected selects no
    row. *)
Theorem dept_df_selects_rows :
  forall (float_repr : Q -> string) (df : DataFrame) (department : cell)
         (dept : DataFrame),
    wf df ->
    dept_df float_repr df department = Ok dept ->
    wf dept /\
    len dept = List.length (rows_of_department department df) /\
    index dept = take_list 0 (rows_of_department department df) (index df) /\
    (forall c, c <> "Degree Group" ->
       find_column c dept
       = option_map (take_list CNaN (rows_of_department department df))
                    (find_column c df)) /\
    (department = CNaN -> len dept = 0).
Proof.
  intros fr df department dept W H.
  destruct (dept_df_classified fr df department dept W H) as (Wd & _).
  destruct (dept_df_slice _ _ _ _ H) as (d & E & ->).
  pose proof (wf_column _ _ _ W E) as Ld.
  unfold rows_of_department. rewrite E.
  assert (I : index (set_column "Degree Group"
                (match find_column "degree"
                         (filter_rows (map (fun c => cell_eqb c department) d) df) with
                 | Some deg => map (fun x => CStr (classify_degree fr x)) deg
                 | None => repeat (CStr "Other")
                             (len (filter_rows (map (fun c => cell_eqb c department) d) df))
                 end)
                (filter_rows (map (fun c => cell_eqb c department) d) df))
              = take_list 0 (filter (fun i => cell_eqb (nth i d CNaN) department)
                                    (seq 0 (List.length d))) (index df)).
  { unfold set_column, filter_rows. cbn [index].
    apply (mask_filter_positions (fun c => cell_eqb c department) 0 d (index df)).
    now symmetry. }
  match goal with |- _ /\ len ?x = _ /\ _ => set (dept := x) in * end.
  assert (L : len dept = List.length (filter (fun i => cell_eqb (nth i d CNaN) department)
                                             (seq 0 (List.length d)))).
  { unfold len. now rewrite I, length_take_list. }
  split; [exact Wd|]. split; [exact L|split; [exact I|split]].
  - intros c Nc. unfold dept. rewrite find_set_column_other by exact Nc.
    rewrite find_filter_rows. destruct (find_column c df) as [v|] eqn:Ev; [|reflexivity].
    cbn [option_map]. f_equal.
    apply (mask_filter_positions (fun c => cell_eqb c department) CNaN d v).
    rewrite (wf_column _ _ _ W Ev). now symmetry.
  - intros D. rewrite L, filter_none; [reflexivity|].
    intros i _. rewrite D. now destruct (nth i d CNaN).
Qed.

Lemma dept_df_selects_rows_witness :
  exists dept,
    dept_df (fun _ => "0.0") upload_with_unassigned (CStr "Surgery") = Ok dept /\
    rows_of_department (CStr "Surgery") upload_with_unassigned = [0; 3] /\
    index dept = take_list 0 [0; 3] (index upload_with_unassigned) /\
    find_column "staff name" dept = Some [CStr "A"; CStr "D"].
Proof.
  assert (W : wf upload_with_unassigned) by (vm_compute; repeat constructor).
  eexists. split; [reflexivity|]. split; [reflexivity|].
  destruct (dept_df_selects_rows (fun _ => "0.0") upload_with_unassigned (CStr "Surgery")
              _ W eq_refl) as (_ & _ & I & C & _).
  split; [exact I|].
  rewrite (C "staff name") by discriminate. reflexivity.
Defined.

(** X8: the Degree Group column of the slice is, row by row, the
    classification of the slice's degree column; a Degree Group column of
    the upload is overwritten, otherwise the column is appended as the
    last one. *)
Theorem degree_group_classifies_rows :
  forall (float_repr : Q -> string) (df : DataFrame) (department : cell)
         (dept : DataFrame),
    wf df ->
    dept_df float_repr df department = Ok dept ->
    columns dept
    = (if has_column "Degree Group" df then columns df
       else columns df ++ ["Degree Group"]) /\
    (forall deg, find_column "degree" dept = Some deg ->
       find_column "Degree Group" dept
       = Some (map (fun x => CStr (classify_degree float_repr x)) deg) /\
       forall i, i < len dept ->
         cell_at "Degree Group" dept i
         = CStr (classify_degree float_repr (cell_at "degree" dept i))).
Proof.
  intros fr df department dept W H.
  destruct (dept_df_classified fr df department dept W H) as (Wd & _).
  destruct (dept_df_slice _ _ _ _ H) as (d & E & Hd).
  set (slice := filter_rows (map (fun c => cell_eqb c department) d) df) in *.
  split.
  - rewrite Hd. unfold columns at 1, set_column. cbn [cols].
    rewrite columns_assign. fold (columns slice).
    rewrite <- has_column_existsb. unfold slice.
    rewrite columns_filter_rows.
    replace (has_column "Degree Group" (filter_rows (map (fun c => cell_eqb c department) d) df))
      with (has_column "Degree Group" df); [reflexivity|].
    now rewrite !has_column_existsb, columns_filter_rows.
  - intros deg Ed.
    assert (Es : find_column "degree" slice = Some deg).
    { rewrite Hd in Ed. now rewrite find_set_column_other in Ed by discriminate. }
    assert (G : find_column "Degree Group" dept
                = Some (map (fun x => CStr (classify_degree fr x)) deg)).
    { rewrite Hd, Es. apply find_set_column_same. }
    split; [exact G|].
    intros i Hi. unfold cell_at. rewrite G, Ed.
    apply (nth_map_in (fun x => CStr (classify_degree fr x)) deg i CNaN CNaN).
    now rewrite (wf_column _ _ _ Wd Ed).
Qed.

Lemma degree_group_classifies_rows_witness :
  exists dept,
    dept_df (fun _ => "0.0") (clean_columns sample_upload) (CStr "Surgery") = Ok dept /\
    find_column "degree" dept = Some [CStr "Resident"; CStr "Consultant Surgeon"] /\
    find_column "Degree Group" dept = Some [CStr "Resident"; CStr "Consultant"] /\
    columns dept = columns (clean_columns sample_upload) ++ ["Degree Group"].
Proof.
  assert (W : wf (clean_columns sample_upload)) by (vm_compute; repeat constructor).
  eexists. split; [reflexivity|]. split; [reflexivity|].
  destruct (degree_group_classifies_rows (fun _ => "0.0") (clean_columns sample_upload)
              (CStr "Surgery") _ W eq_refl) as (C & G).
  split; [|exact C].
  destruct (G [CStr "Resident"; CStr "Consultant Surgeon"] eq_refl) as (G' & _).
  exact G'.
Defined.

(* ------------------------------------------------------------------ *)
(** ** The manpower cards *)

Section Manpower.








End Manpower.



(* ------------------------------------------------------------------ *)
(** ** The four categories split the slice *)

Section CategoryCounts.

(** Every position of a classified column lies in exactly one of the four
    categories. *)
Lemma four_way_split (P : nat -> bool) g (l : list nat) :
  Forall in_taxonomy g ->
  Forall (fun i => i < List.length g) l ->
  List.length (filter P (filter (fun i => cell_eqb (nth i g CNaN) (CStr "Consultant")) l))
  + List.length (filter P (filter (fun i => cell_eqb (nth i g CNaN) (CStr "Specialist")) l))
  + List.length (filter P (filter (fun i => cell_eqb (nth i g CNaN) (CStr "Resident")) l))
  + List.length (filter P (filter (fun i => cell_eqb (nth i g CNaN) (CStr "Other")) l))
  = List.length (filter P l).
Proof.
  intros T. rewrite Forall_forall in T.
  induction 1 as [|i l Hi Hl IH]; [reflexivity|].
  destruct (T (nth i g CNaN) (nth_In g CNaN Hi)) as (s & Es & Hs).
  cbn [filter]. rewrite Es.
  destruct Hs as [<-|[<-|[<-|[<-|[]]]]]; cbn [cell_eqb];
    repeat match goal with
           | |- context [String.eqb ?a ?b] =>
               let r := eval vm_compute in (String.eqb a b) in
               change (String.eqb a b) with r
           end;
    cbn [filter]; destruct (P i); cbn [List.length]; lia.
Qed.

Lemma list_sum_filter_zero {A} (f : A -> nat) (keep : A -> bool) l :
  (forall x, keep x = false -> f x = 0) ->
  list_sum (map f (filter keep l)) = list_sum (map f l).
Proof.
  intros H. induction l as [|x l IH]; simpl; [reflexivity|].
  destruct (keep x) eqn:K; simpl; [now rewrite IH|]. now rewrite IH, (H x K).
Qed.

Lemma has_members_false dept degree :
  has_members dept degree = false -> members degree dept = [].
Proof. unfold has_members. now destruct (members degree dept). Qed.

Lemma entries_sum (f : breakdown_entry -> nat) (h : string -> nat) es :
  Forall (fun e => f e = h (entry_degree e)) es ->
  list_sum (map f es) = list_sum (map h (map entry_degree es)).
Proof.
  induction 1 as [|e es He _ IH]; simpl; [reflexivity|]. now rewrite He, IH.
Qed.

End CategoryCounts.

(** X10: the categories split the slice.  The totals of the breakdown
    entries on screen and the number of staff classified Other add up to
    Total Staff; with a "Contract type" column the contracted counts of the
    entries and the contracted staff among Other add up to the Contracted
    card of the manpower overview, and so for General. *)
Theorem breakdown_totals_add_up :
  forall (float_repr : Q -> string) (df : DataFrame) (department : cell)
         (dept : DataFrame) (entries : list breakdown_entry),
    wf df ->
    dept_df float_repr df department = Ok dept ->
    staff_breakdown dept = Ok entries ->
    list_sum (map entry_total entries) + List.length (members "Other" dept) = len dept /\
    (forall ct, find_column "Contract type" dept = Some ct ->
       list_sum (map (fun e => card_count (entry_contracted e)) entries)
       + count_contract "Contracted" dept (members "Other" dept)
       = count_eq "Contracted" ct /\
       list_sum (map (fun e => card_count (entry_general e)) entries)
       + count_contract "General" dept (members "Other" dept)
       = count_eq "General" ct).
Proof.
  intros fr df department dept entries W Hd Hb.
  destruct (dept_df_classified fr df department dept W Hd) as (Wd & g & Eg & Tg).
  destruct (breakdown_loop_sections dept _ Wd entries Hb) as (_ & Hm & Hf).
  pose proof (wf_column _ _ _ Wd Eg) as Lg.
  assert (B : Forall (fun i => i < List.length g) (seq 0 (List.length g))).
  { apply Forall_forall. intros i Hi. apply in_seq in Hi. lia. }
  assert (S : forall (P : nat -> bool) (f : breakdown_entry -> nat),
             Forall (fun e => f e = List.length (filter P (members (entry_degree e) dept)))
                    entries ->
             list_sum (map f entries) + List.length (filter P (members "Other" dept))
             = List.length (filter P (seq 0 (List.length g)))).
  { intros P f Hfe.
    rewrite (entries_sum f
               (fun d => List.length (filter P (members d dept))) entries Hfe).
    rewrite Hm, list_sum_filter_zero.
    - rewrite <- (four_way_split P g _ Tg B).
      cbn [map list_sum fold_right]. unfold members. rewrite Eg. lia.
    - intros d Hd'. now rewrite (has_members_false _ _ Hd'). }
  split.
  - assert (A : forall l : list nat, filter (fun _ => true) l = l)
      by (intros l; now apply filter_all).
    pose proof (S (fun _ => true) entry_total) as S1.
    rewrite !A, length_seq, Lg in S1. apply S1.
    apply Forall_impl with (2 := Hf). intros e (Ht & _). now rewrite A.
  - intros ct Ec.
    assert (C : forall kind,
               count_eq kind ct
               = List.length (filter (fun i => cell_eqb (cell_at "Contract type" dept i)
                                                        (CStr kind))
                                     (seq 0 (List.length g)))).
    { intros kind. unfold cell_at. rewrite Ec, <- count_eq_positions.
      rewrite Lg, <- (wf_column _ _ _ Wd Ec). now rewrite map_nth_seq with (F := fun c => c), map_id. }
    assert (K : has_column "Contract type" dept = true)
      by (unfold has_column; now rewrite Ec).
    rewrite !C. split.
    + rewrite <- (S _ (fun e => card_count (entry_contracted e))); [reflexivity|].
      apply Forall_impl with (2 := Hf). intros e (_ & Hc & _).
      rewrite Hc. unfold contract_card. now rewrite K.
    + rewrite <- (S _ (fun e => card_count (entry_general e))); [reflexivity|].
      apply Forall_impl with (2 := Hf). intros e (_ & _ & Hc & _).
      rewrite Hc. unfold contract_card. now rewrite K.
Qed.

Lemma breakdown_totals_add_up_witness :
  exists entries,
    staff_breakdown sample_slice = Ok entries /\
    map entry_total entries = [1; 1] /\
    members "Other" sample_slice = [] /\
    list_sum (map entry_total entries) + List.length (members "Other" sample_slice)
    = len sample_slice.
Proof.
  assert (W : wf (clean_columns sample_upload)) by (vm_compute; repeat constructor).
  eexists. split; [vm_compute; reflexivity|]. split; [reflexivity|]. split; [reflexivity|].
  apply (breakdown_totals_add_up (fun _ => "0.0") (clean_columns sample_upload)
           (CStr "Surgery") sample_slice _ W); vm_compute; reflexivity.
Defined.

(* ------------------------------------------------------------------ *)
(** ** The columns a run needs *)

Section Transport.

Variable argsort : list nat -> list nat.
Variable float_repr : Q -> string.

Lemma find_of_dept df department dept :
  dept_df float_repr df department = Ok dept ->
  exists m, forall c, c <> "Degree Group" ->
    find_column c dept = option_map (mask_filter m) (find_column c df).
Proof.
  intros H. destruct (dept_df_slice _ _ _ _ H) as (d & _ & ->).
  eexists. intros c N. rewrite find_set_column_other by exact N. apply find_filter_rows.
Qed.

Lemma staff_sorted_df_take_any dept sorted :
  staff_sorted_df argsort dept = Ok sorted ->
  exists p g,
    find_column "Degree Group" dept = Some g /\
    sorted = take p (set_column "Degree Group" (map (to_categorical degree_order) g) dept).
Proof.
  unfold staff_sorted_df, get_column.
  destruct (find_column "Degree Group" dept) as [g|]; [|discriminate].
  cbn [bind]. intros [= <-]. eauto.
Qed.

Lemma find_of_sorted dept sorted :
  staff_sorted_df argsort dept = Ok sorted ->
  exists p, forall c, c <> "Degree Group" ->
    find_column c sorted = option_map (take_list CNaN p) (find_column c dept).
Proof.
  intros H. destruct (staff_sorted_df_take_any _ _ H) as (p & g & _ & ->).
  exists p. intros c N. now rewrite find_take, find_set_column_other.
Qed.

Lemma sorted_column_in_upload df department dept sorted c v :
  dept_df float_repr df department = Ok dept ->
  staff_sorted_df argsort dept = Ok sorted ->
  c <> "Degree Group" ->
  find_column c sorted = Some v ->
  In c (columns df).
Proof.
  intros Hd Hs N E.
  destruct (find_of_dept _ _ _ Hd) as (m & Fd).
  destruct (find_of_sorted _ _ Hs) as (p & Fs).
  rewrite (Fs c N), (Fd c N) in E.
  destruct (in_dec string_dec c (columns df)) as [I|I]; [exact I|].
  apply find_column_none in I. rewrite I in E. discriminate.
Qed.

Lemma fin_table_ok sorted t :
  fin_table sorted = Ok t ->
  exists names degree salary income net,
    find_column "staff name" sorted = Some names /\
    find_column "degree" sorted = Some degree /\
    find_column "total slary" sorted = Some salary /\
    find_column "total income" sorted = Some income /\
    find_column "Net" sorted = Some net /\
    t = mkDF (index sorted)
          [("Staff Name", names); ("Degree", degree); ("Total Salary", salary);
           ("Total Income", income); ("Net Income", net)].
Proof.
  unfold fin_table. intros H.
  destruct (select_columns _ sorted) as [s|] eqn:S; [|discriminate].
  apply select_columns_ok in S. destruct S as [Hi Hc]. destruct s as [ti tc].
  simpl in Hi, Hc. subst ti.
  repeat match goal with
         | H : Forall2 _ (_ :: _) _ |- _ =>
             inversion H as [|? [? ?] ? ? [? ?] ?]; subst; clear H
         | H : Forall2 _ [] _ |- _ => inversion H; subst; clear H
         end.
  cbn in *. injection H as <-.
  do 5 eexists. repeat split; eauto.
Qed.

End Transport.

(** X11: a run that shows the dashboard has read an upload with all of the
    columns "department", "staff name", "degree", the four performance
    measures, the five operation counts and the three financial measures:
    without any one of them the script does not get to the end. *)
Theorem render_requires_columns :
  forall (argsort : list nat -> list nat) (float_repr : Q -> string)
         (df : DataFrame) (department : cell) (d : dashboard),
    render argsort float_repr df department = Ok d ->
    forall c, In c ("department" :: required_columns) -> In c (columns df).
Proof.
  intros argsort fr df department d H.
  destruct (render_ok _ _ _ _ _ H) as (dept & sorted & Hd & _ & Hs & Hp & Ho & Hv & Hf).
  apply perf_table_ok in Hp.
  destruct Hp as (? & ? & ? & ? & ? & ? & ? & ? & P1 & P2 & P3 & P4 & P5 & P6 & _).
  apply op_source_table_ok in Ho.
  destruct Ho as (? & ? & ? & ? & ? & _ & _ & O3 & O4 & _).
  apply op_value_table_ok in Hv.
  destruct Hv as (? & ? & ? & ? & ? & ? & _ & _ & V3 & V4 & V5 & _).
  apply fin_table_ok in Hf.
  destruct Hf as (? & ? & ? & ? & ? & _ & _ & F3 & F4 & F5 & _).
  intros c [<-|Hc].
  - destruct (dept_df_slice _ _ _ _ Hd) as (d0 & E & _).
    destruct (in_dec string_dec "department" (columns df)) as [I|I]; [exact I|].
    apply find_column_none in I. congruence.
  - unfold required_columns in Hc. cbn [In] in Hc.
    repeat (destruct Hc as [<-|Hc];
            [eapply (sorted_column_in_upload argsort fr); eauto; discriminate|]).
    destruct Hc.
Qed.

Lemma render_requires_columns_witness :
  Forall (fun c => In c (columns (clean_columns sample_upload)))
         ("department" :: required_columns).
Proof.
  destruct (render Numpy.argsort (fun _ => "0.0") (clean_columns sample_upload)
                   (CStr "Surgery")) as [d|e] eqn:E.
  - apply Forall_forall.
    exact (render_requires_columns Numpy.argsort (fun _ => "0.0")
             (clean_columns sample_upload) (CStr "Surgery") d E).
  - vm_compute in E. discriminate E.
Defined.

Section Sufficient.

Variable argsort : list nat -> list nat.
Variable float_repr : Q -> string.

Lemma has_column_find c df : has_column c df = true <-> exists v, find_column c df = Some v.
Proof.
  unfold has_column. destruct (find_column c df) as [v|]; split; eauto.
  - discriminate.
  - intros [v H]. discriminate.
Qed.










Lemma has_column_filter_rows c m df : has_column c (filter_rows m df) = has_column c df.
Proof. unfold has_column. rewrite find_filter_rows. now destruct (find_column c df). Qed.




End Sufficient.



(* ------------------------------------------------------------------ *)
(** ** The cards against the tables *)

Section Cards.

Variable argsort : list nat -> list nat.
Variable float_repr : Q -> string.

Lemma format_f_ok x y : format_f x = Ok y -> y = x /\ is_str x = false.
Proof. destruct x; simpl; try discriminate; intros [= <-]; auto. Qed.

Lemma metric_ok dept c x :
  metric dept c = Ok x -> safe_sum dept c = Ok x /\ is_str x = false.
Proof.
  unfold metric. destruct (safe_sum dept c) as [y|]; [|discriminate].
  cbn [bind]. intros H. apply format_f_ok in H. destruct H as [<- H]. auto.
Qed.

(** Everything a finished run has computed, step by step. *)
Lemma render_inv df department d :
  render argsort float_repr df department = Ok d ->
  exists dept sorted hours clinics visits operations
         elective emergency high moderate low salary income net,
    dept_df float_repr df department = Ok dept /\
    staff_sorted_df argsort dept = Ok sorted /\
    d_manpower d = manpower dept /\
    (safe_sum dept "total hours" = Ok hours /\ is_str hours = false) /\
    (safe_sum dept "opened clinic" = Ok clinics /\ is_str clinics = false) /\
    (safe_sum dept "Total visits" = Ok visits /\ is_str visits = false) /\
    (safe_sum dept "Operation total number" = Ok operations /\ is_str operations = false) /\
    d_performance d = [hours; clinics; visits; operations] /\
    safe_sum dept "opr_elective" = Ok elective /\
    safe_sum dept "opr_emergency" = Ok emergency /\
    safe_sum dept "opr_high" = Ok high /\
    safe_sum dept "opr_moderate" = Ok moderate /\
    safe_sum dept "opr_low" = Ok low /\
    d_operation_source d = [elective; emergency] /\
    d_operation_value d = [high; moderate; low] /\
    (safe_sum dept "total slary" = Ok salary /\ is_str salary = false) /\
    (safe_sum dept "total income" = Ok income /\ is_str income = false) /\
    (safe_sum dept "Net" = Ok net /\ is_str net = false) /\
    d_financial d = [salary; income; net; net_percent net income] /\
    perf_table sorted = Ok (d_perf_table d) /\
    op_source_table sorted = Ok (d_op_source_table d) /\
    op_value_table sorted = Ok (d_op_value_table d) /\
    fin_table sorted = Ok (d_fin_table d).
Proof.
  unfold render, operation_source_values, operation_value_values. intros H.
  repeat match type of H with
         | bind ?r _ = Ok _ =>
             let E := fresh "E" in
             destruct r eqn:E; cbn [bind] in H; [|discriminate H]
         end.
  injection H as <-. cbn [d_manpower d_performance d_operation_source d_operation_value
                          d_financial d_perf_table d_op_source_table d_op_value_table
                          d_fin_table].
  repeat match goal with
         | H : metric _ _ = Ok _ |- _ => apply metric_ok in H; destruct H
         | H : format_f _ = Ok _ |- _ => apply format_f_ok in H; destruct H as [-> H]
         | H : bind ?r _ = Ok _ |- _ =>
             let E := fresh "E" in
             destruct r eqn:E; cbn [bind] in H; [|discriminate H]
         | H : Ok _ = Ok _ |- _ => injection H as <-
         end.
  do 14 eexists. repeat split; eauto.
Qed.

End Cards.

Section ColumnTotals.

Variable argsort : list nat -> list nat.
Variable float_repr : Q -> string.

Lemma forallb_permutation {A} (f : A -> bool) v w :
  Permutation v w -> forallb f v = forallb f w.
Proof.
  induction 1 as [|x v w _ IH|x y v|v w u _ IH1 _ IH2]; simpl.
  - reflexivity.
  - now rewrite IH.
  - now rewrite !andb_assoc, (andb_comm (f y)).
  - congruence.
Qed.

Lemma Zsum_permutation v w : Permutation v w -> Zsum v = Zsum w.
Proof.
  unfold Zsum. induction 1 as [|x v w _ IH|x y v|v w u _ IH1 _ IH2]; simpl.
  - reflexivity.
  - now rewrite IH.
  - destruct x, y; lia.
  - congruence.
Qed.

Lemma Qsum_permutation v w : Permutation v w -> (Qsum v == Qsum w)%Q.
Proof.
  unfold Qsum. induction 1 as [|x v w _ IH|x y v|v w u _ IH1 _ IH2]; simpl.
  - reflexivity.
  - destruct (cell_num x); [now rewrite IH|exact IH].
  - destruct (cell_num x), (cell_num y); try reflexivity. ring.
  - now rewrite IH1.
Qed.

(** A sum that is a number does not depend on the order of the rows. *)
Lemma series_sum_permutation v w x :
  Permutation v w -> series_sum v = Ok x -> is_str x = false -> series_sum w = Ok x.
Proof.
  intros P. unfold series_sum.
  rewrite <- (forallb_permutation is_int v w P).
  rewrite <- (forallb_permutation (fun c => negb (is_str c)) v w P).
  rewrite <- (forallb_permutation (fun c => is_str c || is_missing c) v w P).
  destruct (forallb is_int v).
  - intros [= <-] _. now rewrite (Zsum_permutation v w P).
  - destruct (forallb (fun c => negb (is_str c)) v).
    + intros [= <-] _. do 2 f_equal.
      apply Qred_complete, Qsum_permutation, Permutation_sym, P.
    + destruct (forallb (fun c => is_str c || is_missing c) v); [|discriminate].
      intros [= <-]. discriminate.
Qed.

(** A column of the sorted copy holds the cells of the slice's column in
    another order. *)
Lemma sorted_column_permutation df department dept sorted c w :
  wf df ->
  dept_df float_repr df department = Ok dept ->
  sorts (sort_keys dept) (argsort (sort_keys dept)) = true ->
  staff_sorted_df argsort dept = Ok sorted ->
  find_column c sorted = Some w ->
  c <> "Degree Group" ->
  exists v, find_column c dept = Some v /\ Permutation v w.
Proof.
  intros W Hd Hs Hsorted E N.
  destruct (dept_df_classified float_repr df department dept W Hd) as (Wd & g & Eg & Tg).
  rewrite (staff_sorted_df_take argsort dept g Eg Tg Hs) in Hsorted.
  injection Hsorted as <-.
  rewrite find_take in E.
  destruct (find_column c dept) as [vd|] eqn:Ec; [|discriminate].
  cbn [option_map] in E. injection E as <-.
  exists vd. split; [reflexivity|].
  apply take_list_permutation.
  pose proof (sorts_permutation _ _ Hs) as P.
  replace (List.length vd) with (List.length (sort_keys dept)); [exact P|].
  rewrite (classified_keys _ _ Eg Tg), length_map.
  now rewrite (wf_column _ _ _ Wd Ec), (wf_column _ _ _ Wd Eg).
Qed.

Lemma is_int_not_str x : is_int x = true -> is_str x = false.
Proof. now destruct x. Qed.

Lemma card_totals_column df department dept sorted card c c' table w :
  wf df ->
  dept_df float_repr df department = Ok dept ->
  sorts (sort_keys dept) (argsort (sort_keys dept)) = true ->
  staff_sorted_df argsort dept = Ok sorted ->
  c <> "Degree Group" ->
  safe_sum dept c = Ok card ->
  find_column c sorted = Some w ->
  find_column c' table = Some w ->
  totals_column card c dept c' table.
Proof.
  intros W Hd Hs Hsorted N S E E'.
  destruct (sorted_column_permutation _ _ _ _ _ _ W Hd Hs Hsorted E N) as (v & Ev & P).
  exists v, w. unfold safe_sum in S. rewrite Ev in S.
  repeat split; auto.
  intros I. apply series_sum_permutation with (v := v); auto.
  now apply is_int_not_str.
Qed.

End ColumnTotals.

(** X13: the four performance cards total the columns of the slice whose
    cells the performance table lists, row for row in another order, under
    Total Hours, Opened Clinics, Total Visits and Total Operations; the
    card "Total Operations" stands in this way also to the column of that
    name in the operation-source and the operation-value table.  A card
    that is an integer is exactly the total of the table's column.  All
    this whenever the sorting routine returns a sorted rearrangement of the
    slice's rows. *)
Theorem performance_cards_are_column_totals :
  forall (argsort : list nat -> list nat) (float_repr : Q -> string)
         (df : DataFrame) (department : cell) (dept : DataFrame) (d : dashboard),
    wf df ->
    dept_df float_repr df department = Ok dept ->
    sorts (sort_keys dept) (argsort (sort_keys dept)) = true ->
    render argsort float_repr df department = Ok d ->
    exists hours clinics visits operations,
      d_performance d = [hours; clinics; visits; operations] /\
      totals_column hours "total hours" dept "Total Hours" (d_perf_table d) /\
      totals_column clinics "opened clinic" dept "Opened Clinics" (d_perf_table d) /\
      totals_column visits "Total visits" dept "Total Visits" (d_perf_table d) /\
      totals_column operations "Operation total number" dept
                    "Total Operations" (d_perf_table d) /\
      totals_column operations "Operation total number" dept
                    "Total Operations" (d_op_source_table d) /\
      totals_column operations "Operation total number" dept
                    "Total Operations" (d_op_value_table d).
Proof.
  intros argsort fr df department dept d W Hd Hs H.
  destruct (render_inv _ _ _ _ _ H)
    as (dept' & sorted & hours & clinics & visits & operations & ? & ? & ? & ? & ? & ? & ? & ?
        & Hd' & Hsorted & _ & (S1 & X1) & (S2 & X2) & (S3 & X3) & (S4 & X4) & Ep & _ & _ & _
        & _ & _ & _ & _ & _ & _ & _ & _ & Hp & Ho & Hv & _).
  rewrite Hd in Hd'. injection Hd' as <-.
  apply perf_table_ok in Hp.
  destruct Hp as (? & ? & vh & vc & vv & vo & ? & ? & _ & _ & P3 & P4 & P5 & P6 & _ & _ & ->).
  apply op_source_table_ok in Ho.
  destruct Ho as (? & ? & ? & ? & vo1 & _ & _ & _ & _ & O5 & ->).
  apply op_value_table_ok in Hv.
  destruct Hv as (? & ? & ? & ? & ? & vo2 & _ & _ & _ & _ & _ & V6 & ->).
  rewrite P6 in O5, V6. injection O5 as <-. injection V6 as <-.
  exists hours, clinics, visits, operations. split; [exact Ep|].
  repeat split;
    eapply (card_totals_column argsort fr df department dept sorted);
    eauto; try discriminate; reflexivity.
Qed.

Lemma performance_cards_are_column_totals_witness :
  exists d,
    render Numpy.argsort (fun _ => "0.0") (clean_columns sample_upload) (CStr "Surgery") = Ok d /\
    d_performance d = [CInt 150; CInt 15; CInt 130; CInt 25] /\
    safe_sum (d_perf_table d) "Total Operations" = Ok (CInt 25) /\
    totals_column (CInt 25) "Operation total number" sample_slice
                  "Total Operations" (d_op_source_table d).
Proof.
  assert (W : wf (clean_columns sample_upload)) by (vm_compute; repeat constructor).
  destruct (render Numpy.argsort (fun _ => "0.0") (clean_columns sample_upload)
                   (CStr "Surgery")) as [d|e] eqn:E; [|vm_compute in E; discriminate E].
  exists d. split; [reflexivity|].
  destruct (performance_cards_are_column_totals Numpy.argsort (fun _ => "0.0")
              (clean_columns sample_upload) (CStr "Surgery") sample_slice d W
              ltac:(vm_compute; reflexivity) ltac:(vm_compute; reflexivity) E)
    as (hours & clinics & visits & operations & Ep & _ & _ & _ & T1 & T2 & _).
  assert (Ed : d_performance d = [CInt 150; CInt 15; CInt 130; CInt 25]).
  { vm_compute in E. injection E as <-. reflexivity. }
  rewrite Ed in Ep. injection Ep as <- <- <- <-.
  split; [exact Ed|]. split; [|exact T2].
  destruct T1 as (v & w & _ & Ew & _ & _ & I).
  unfold safe_sum. rewrite Ew. now apply I.
Defined.

Lemma safe_sum_number df c x :
  safe_sum df c = Ok x -> is_str x = false -> exists q, cell_num x = Some q.
Proof.
  unfold safe_sum. destruct (find_column c df) as [v|].
  - destruct (series_sum_cases v) as [(_ & y & Ey & Hy)|[(_ & _ & Ey)|(_ & _ & Ey)]];
      rewrite Ey; intros [= <-]; try discriminate.
    intros _. destruct y; try discriminate; simpl; eauto.
  - intros [= <-] _. simpl. eauto.
Qed.

(** X14: the three financial cards total the columns of the slice whose
    cells the financial table lists, row for row in another order, under
    Total Salary, Total Income and Net Income (a card that is an integer is
    exactly the total of the table's column), and the share shown beside
    Net Income is 0 when the income adds up to 0 and a number computed from
    net and income otherwise; whenever the sorting routine returns a sorted
    rearrangement of the slice's rows. *)
Theorem financial_cards_are_column_totals :
  forall (argsort : list nat -> list nat) (float_repr : Q -> string)
         (df : DataFrame) (department : cell) (dept : DataFrame) (d : dashboard),
    wf df ->
    dept_df float_repr df department = Ok dept ->
    sorts (sort_keys dept) (argsort (sort_keys dept)) = true ->
    render argsort float_repr df department = Ok d ->
    exists salary income net i,
      d_financial d = [salary; income; net; net_percent net income] /\
      totals_column salary "total slary" dept "Total Salary" (d_fin_table d) /\
      totals_column income "total income" dept "Total Income" (d_fin_table d) /\
      totals_column net "Net" dept "Net Income" (d_fin_table d) /\
      cell_num income = Some i /\
      ((i == 0)%Q -> net_percent net income = CInt 0) /\
      (~ (i == 0)%Q -> exists q, net_percent net income = CFloat q).
Proof.
  intros argsort fr df department dept d W Hd Hs H.
  destruct (render_inv _ _ _ _ _ H)
    as (dept' & sorted & ? & ? & ? & ? & ? & ? & ? & ? & ? & salary & income & net
        & Hd' & Hsorted & _ & _ & _ & _ & _ & _ & _ & _ & _ & _ & _ & _ & _
        & (S1 & X1) & (S2 & X2) & (S3 & X3) & Ef & _ & _ & _ & Hf).
  rewrite Hd in Hd'. injection Hd' as <-.
  apply fin_table_ok in Hf.
  destruct Hf as (? & ? & vs & vi & vn & _ & _ & F3 & F4 & F5 & ->).
  destruct (safe_sum_number _ _ _ S3 X3) as [n En].
  destruct (safe_sum_number _ _ _ S2 X2) as [i Ei].
  exists salary, income, net, i. split; [exact Ef|].
  split; [|split; [|split]];
    try (eapply (card_totals_column argsort fr df department dept sorted);
         eauto; try discriminate; reflexivity).
  split; [exact Ei|].
  unfold net_percent. rewrite En, Ei. split; intros Z.
  - apply Qeq_bool_iff in Z. now rewrite Z.
  - destruct (Qeq_bool i 0) eqn:B; [|eauto].
    apply Qeq_bool_iff in B. contradiction.
Qed.

Lemma financial_cards_are_column_totals_witness :
  exists d,
    render Numpy.argsort (fun _ => "0.0") (clean_columns sample_upload) (CStr "Surgery") = Ok d /\
    d_financial d = [CFloat (23001 # 2); CInt 24000; CFloat (24999 # 2);
                     CFloat (8333 # 160)] /\
    totals_column (CInt 24000) "total income" sample_slice "Total Income" (d_fin_table d).
Proof.
  assert (W : wf (clean_columns sample_upload)) by (vm_compute; repeat constructor).
  destruct (render Numpy.argsort (fun _ => "0.0") (clean_columns sample_upload)
                   (CStr "Surgery")) as [d|e] eqn:E; [|vm_compute in E; discriminate E].
  exists d. split; [reflexivity|].
  destruct (financial_cards_are_column_totals Numpy.argsort (fun _ => "0.0")
              (clean_columns sample_upload) (CStr "Surgery") sample_slice d W
              ltac:(vm_compute; reflexivity) ltac:(vm_compute; reflexivity) E)
    as (salary & income & net & i & Ef & _ & T & _).
  assert (Ed : d_financial d = [CFloat (23001 # 2); CInt 24000; CFloat (24999 # 2);
                                CFloat (8333 # 160)]).
  { vm_compute in E. injection E as <-. reflexivity. }
  split; [exact Ed|].
  rewrite Ed in Ef. injection Ef as <- <- <- _. exact T.
Defined.

(** X15: the values of the two operation charts total the columns of the
    slice whose cells the operation-source and the operation-value table
    list, row for row in another order, under Elective, Emergency, High,
    Moderate and Low (a value that is an integer is exactly the total of
    the table's column); whenever the sorting routine returns a sorted
    rearrangement of the slice's rows. *)
Theorem operation_charts_are_column_totals :
  forall (argsort : list nat -> list nat) (float_repr : Q -> string)
         (df : DataFrame) (department : cell) (dept : DataFrame) (d : dashboard),
    wf df ->
    dept_df float_repr df department = Ok dept ->
    sorts (sort_keys dept) (argsort (sort_keys dept)) = true ->
    render argsort float_repr df department = Ok d ->
    exists elective emergency high moderate low,
      d_operation_source d = [elective; emergency] /\
      d_operation_value d = [high; moderate; low] /\
      totals_column elective "opr_elective" dept "Elective" (d_op_source_table d) /\
      totals_column emergency "opr_emergency" dept "Emergency" (d_op_source_table d) /\
      totals_column high "opr_high" dept "High" (d_op_value_table d) /\
      totals_column moderate "opr_moderate" dept "Moderate" (d_op_value_table d) /\
      totals_column low "opr_low" dept "Low" (d_op_value_table d).
Proof.
  intros argsort fr df department dept d W Hd Hs H.
  destruct (render_inv _ _ _ _ _ H)
    as (dept' & sorted & ? & ? & ? & ? & elective & emergency & high & moderate & low
        & ? & ? & ? & Hd' & Hsorted & _ & _ & _ & _ & _ & _
        & S1 & S2 & S3 & S4 & S5 & Es & Ev & _ & _ & _ & _ & _ & Ho & Hv & _).
  rewrite Hd in Hd'. injection Hd' as <-.
  apply op_source_table_ok in Ho.
  destruct Ho as (? & ? & ve & vm & ? & _ & _ & O3 & O4 & _ & ->).
  apply op_value_table_ok in Hv.
  destruct Hv as (? & ? & vh & vo & vl & ? & _ & _ & V3 & V4 & V5 & _ & ->).
  exists elective, emergency, high, moderate, low.
  split; [exact Es|]. split; [exact Ev|].
  repeat split;
    eapply (card_totals_column argsort fr df department dept sorted);
    eauto; try discriminate; reflexivity.
Qed.

Lemma operation_charts_are_column_totals_witness :
  exists d,
    render Numpy.argsort (fun _ => "0.0") (clean_columns sample_upload) (CStr "Surgery") = Ok d /\
    d_operation_source d = [CInt 18; CInt 7] /\
    totals_column (CInt 18) "opr_elective" sample_slice "Elective" (d_op_source_table d).
Proof.
  assert (W : wf (clean_columns sample_upload)) by (vm_compute; repeat constructor).
  destruct (render Numpy.argsort (fun _ => "0.0") (clean_columns sample_upload)
                   (CStr "Surgery")) as [d|e] eqn:E; [|vm_compute in E; discriminate E].
  exists d. split; [reflexivity|].
  destruct (operation_charts_are_column_totals Numpy.argsort (fun _ => "0.0")
              (clean_columns sample_upload) (CStr "Surgery") sample_slice d W
              ltac:(vm_compute; reflexivity) ltac:(vm_compute; reflexivity) E)
    as (elective & emergency & high & moderate & low & Es & _ & T & _).
  assert (Ed : d_operation_source d = [CInt 18; CInt 7]).
  { vm_compute in E. injection E as <-. reflexivity. }
  split; [exact Ed|].
  rewrite Ed in Es. injection Es as <- <-. exact T.
Defined.

(* ------------------------------------------------------------------ *)
(** ** The sorted copy and the chart height *)

(** X16: the sort rearranges whole rows.  When the sorting routine returns
    a sorted rearrangement [p] of the slice's positions, the sorted copy has
    the columns of the slice, and its row labels and every one of its
    columns are those of the slice read in the order [p]: no cell leaves
    its row, no row is lost or doubled. *)
Theorem sort_keeps_rows_whole :
  forall (argsort : list nat -> list nat) (float_repr : Q -> string)
         (df : DataFrame) (department : cell) (dept sorted : DataFrame),
    wf df ->
    dept_df float_repr df department = Ok dept ->
    sorts (sort_keys dept) (argsort (sort_keys dept)) = true ->
    staff_sorted_df argsort dept = Ok sorted ->
    exists p,
      Permutation (seq 0 (len dept)) p /\
      wf sorted /\
      len sorted = len dept /\
      columns sorted = columns dept /\
      index sorted = take_list 0 p (index dept) /\
      (forall c, find_column c sorted
                 = option_map (take_list CNaN p) (find_column c dept)) /\
      (forall c i, i < len sorted -> cell_at c sorted i = cell_at c dept (nth i p 0)).
Proof.
  intros argsort fr df department dept sorted W Hd Hs H.
  destruct (dept_df_classified fr df department dept W Hd) as (Wd & g & Eg & Tg).
  rewrite (staff_sorted_df_take argsort dept g Eg Tg Hs) in H. injection H as <-.
  set (p := argsort (sort_keys dept)) in *.
  assert (P : Permutation (seq 0 (len dept)) p).
  { pose proof (sorts_permutation _ _ Hs) as P.
    rewrite (classified_keys _ _ Eg Tg), length_map, (wf_column _ _ _ Wd Eg) in P.
    exact P. }
  assert (L : len (take p dept) = len dept).
  { unfold len, take. cbn [index]. rewrite length_take_list.
    rewrite <- (Permutation_length P). apply length_seq. }
  exists p. split; [exact P|]. split; [|split; [exact L|split; [|split; [|split]]]].
  - destruct (classified_take p dept g Wd Eg Tg) as ((Ws & _) & _); [|exact Ws].
    now rewrite (wf_column _ _ _ Wd Eg).
  - unfold columns, take. cbn [cols]. now rewrite map_map.
  - reflexivity.
  - intros c. apply find_take.
  - intros c i Hi. unfold cell_at. rewrite find_take.
    destruct (find_column c dept) as [v|]; [|reflexivity]. cbn [option_map].
    unfold take_list.
    apply (nth_map_in (fun k => nth k v CNaN) p i 0 CNaN).
    rewrite L in Hi. rewrite <- (Permutation_length P), length_seq. exact Hi.
Qed.

Lemma sort_keeps_rows_whole_witness :
  exists p,
    Permutation (seq 0 (len sample_slice)) p /\
    index (take [1; 0] sample_slice) = take_list 0 p (index sample_slice) /\
    find_column "staff name" (take [1; 0] sample_slice)
    = option_map (take_list CNaN p) (find_column "staff name" sample_slice).
Proof.
  assert (W : wf (clean_columns sample_upload)) by (vm_compute; repeat constructor).
  destruct (sort_keeps_rows_whole Numpy.argsort (fun _ => "0.0")
              (clean_columns sample_upload) (CStr "Surgery") sample_slice
              (take [1; 0] sample_slice) W
              ltac:(vm_compute; reflexivity) ltac:(vm_compute; reflexivity)
              ltac:(vm_compute; reflexivity))
    as (p & P & _ & _ & _ & I & C & _).
  exists p. split; [exact P|]. split; [exact I|apply C].
Defined.

(** X17: the height of the ranked bar charts is computed from the head
    count of the department: it is 400 for up to eight members of staff and
    200 plus 25 for each member beyond, whenever the sorting routine
    returns a sorted rearrangement of the slice's rows. *)
Theorem chart_height_from_head_count :
  forall (argsort : list nat -> list nat) (float_repr : Q -> string)
         (df : DataFrame) (department : cell) (dept sorted : DataFrame),
    wf df ->
    dept_df float_repr df department = Ok dept ->
    sorts (sort_keys dept) (argsort (sort_keys dept)) = true ->
    staff_sorted_df argsort dept = Ok sorted ->
    400 <= dynamic_height sorted /\
    (len dept <= 8 -> dynamic_height sorted = 400) /\
    (8 <= len dept -> dynamic_height sorted = 200 + 25 * len dept).
Proof.
  intros argsort fr df department dept sorted W Hd Hs H.
  destruct (dept_df_classified fr df department dept W Hd) as (Wd & g & Eg & Tg).
  rewrite (staff_sorted_df_take argsort dept g Eg Tg Hs) in H. injection H as <-.
  set (p := argsort (sort_keys dept)) in *.
  assert (L : len (take p dept) = len dept).
  { pose proof (sorts_permutation _ _ Hs) as P.
    rewrite (classified_keys _ _ Eg Tg), length_map, (wf_column _ _ _ Wd Eg) in P.
    unfold len at 1, take. cbn [index]. rewrite length_take_list.
    rewrite <- (Permutation_length P). apply length_seq. }
  unfold dynamic_height. rewrite L. lia.
Qed.

Lemma chart_height_from_head_count_witness :
  dynamic_height (take [1; 0] sample_slice) = 400.
Proof.
  assert (W : wf (clean_columns sample_upload)) by (vm_compute; repeat constructor).
  destruct (chart_height_from_head_count Numpy.argsort (fun _ => "0.0")
              (clean_columns sample_upload) (CStr "Surgery") sample_slice
              (take [1; 0] sample_slice) W
              ltac:(vm_compute; reflexivity) ltac:(vm_compute; reflexivity)
              ltac:(vm_compute; reflexivity))
    as (_ & S & _).
  apply S. vm_compute. lia.
Defined.

(* ------------------------------------------------------------------ *)
(** ** The shape of the report *)

Section ReportShape.

Variable float_repr : Q -> string.

Lemma table_data_rows df :
  Forall (fun row => List.length row = List.length (cols df)) (table_data df).
Proof.
  unfold table_data, columns, values. constructor.
  - now rewrite !length_map.
  - apply Forall_map, Forall_forall. intros i _. unfold row_at. apply length_map.
Qed.

Lemma table_fits df w :
  List.length (cols df) = List.length w ->
  widths_fit (Table (table_data df) (Some w)) = true.
Proof.
  intros L. cbn [widths_fit]. apply forallb_forall. intros row Hr.
  pose proof (table_data_rows df) as F. rewrite Forall_forall in F.
  rewrite (F row Hr), L. apply Nat.eqb_refl.
Qed.

Lemma table_rectangular df : widths_fit (Table (table_data df) None) = true.
Proof.
  pose proof (table_data_rows df) as F.
  cbn [widths_fit]. destruct (table_data df) as [|header rows]; [reflexivity|].
  inversion F as [|? ? Hh Hr]; subst.
  apply forallb_forall. intros row Hrow. rewrite Forall_forall in Hr.
  rewrite (Hr row Hrow), Hh. apply Nat.eqb_refl.
Qed.

(** The two shapes of a roster table. *)
Lemma breakdown_of_table dept degree e :
  breakdown_of dept degree = Ok (Some e) ->
  (exists x y, cols (entry_table e) = [("Staff Name", x); ("Contract Type", y)]) \/
  (exists x, cols (entry_table e) = [("Staff Name", x)]).
Proof.
  unfold breakdown_of.
  destruct (rows_of_degree degree dept) as [deg_df|]; [|discriminate]. cbn [bind].
  destruct (empty deg_df); [discriminate|].
  destruct (find_column "Contract type" deg_df) as [ct|].
  - destruct (select_columns _ deg_df) as [t|] eqn:S; [|discriminate].
    apply select_columns_ok in S. destruct S as [_ Hc]. destruct t as [ti tc].
    cbn [cols] in Hc.
    repeat match goal with
           | H : Forall2 _ (_ :: _) _ |- _ =>
               inversion H as [|? [? ?] ? ? [? ?] ?]; subst; clear H
           | H : Forall2 _ [] _ |- _ => inversion H; subst; clear H
           end.
    cbn. intros [= <-]. left. cbn. eauto.
  - destruct (select_columns _ deg_df) as [t|] eqn:S; [|discriminate].
    apply select_columns_ok in S. destruct S as [_ Hc]. destruct t as [ti tc].
    cbn [cols] in Hc.
    repeat match goal with
           | H : Forall2 _ (_ :: _) _ |- _ =>
               inversion H as [|? [? ?] ? ? [? ?] ?]; subst; clear H
           | H : Forall2 _ [] _ |- _ => inversion H; subst; clear H
           end.
    cbn. intros [= <-]. right. cbn. eauto.
Qed.

Lemma breakdown_loop_tables dept degrees :
  forall es,
    breakdown_loop dept degrees = Ok es ->
    Forall (fun e =>
              (exists x y, cols (entry_table e) = [("Staff Name", x); ("Contract Type", y)]) \/
              (exists x, cols (entry_table e) = [("Staff Name", x)])) es.
Proof.
  induction degrees as [|degree rest IH]; intros es H.
  - injection H as <-. constructor.
  - cbn [breakdown_loop] in H.
    destruct (breakdown_of dept degree) as [e|] eqn:E; [|discriminate].
    cbn [bind] in H.
    destruct (breakdown_loop dept rest) as [es'|]; [|discriminate].
    cbn [bind] in H. injection H as <-.
    destruct e as [x|]; [|now apply IH].
    constructor; [now apply breakdown_of_table in E|now apply IH].
Qed.

Lemma breakdown_flowables_fit degree t :
  (exists x y, cols t = [("Staff Name", x); ("Contract Type", y)]) \/
  (exists x, cols t = [("Staff Name", x)]) ->
  forallb widths_fit (breakdown_flowables (degree, t)) = true.
Proof.
  intros H. unfold breakdown_flowables. cbn [forallb].
  rewrite andb_true_r. cbn [widths_fit andb].
  change (widths_fit
            (Table (table_data t)
                   (Some (if has_column "Contract Type" t then [4; 2] else [6])%Q)) = true).
  apply table_fits. destruct t as [idx cs]. cbn [cols] in *.
  destruct H as [(x & y & ->)|(x & ->)]; reflexivity.
Qed.

Lemma flat_map_breakdown_layout tables :
  filter is_page_break (flat_map breakdown_flowables tables) = [] /\
  List.length (filter is_table (flat_map breakdown_flowables tables)) = List.length tables /\
  List.length (flat_map breakdown_flowables tables) = 3 * List.length tables.
Proof.
  induction tables as [|[degree t] tables (IH1 & IH2 & IH3)]; [auto|].
  cbn [flat_map]. rewrite !filter_app, !length_app, IH1, IH2, IH3.
  unfold breakdown_flowables.
  cbn [filter is_page_break is_table List.length app]. repeat split; lia.
Qed.

End ReportShape.

(** X18: every table of the report of a finished run is well shaped.  The
    performance table has the eight columns its eight widths are given
    for, the financial table the five of its five widths, a roster table
    two columns under the widths 4 and 2 or one column under the width 6,
    and in every table each row has as many cells as the header. *)
Theorem report_tables_well_shaped :
  forall (argsort : list nat -> list nat) (float_repr : Q -> string)
         (df : DataFrame) (department : cell) (d : dashboard),
    render argsort float_repr df department = Ok d ->
    forallb widths_fit (report float_repr department d) = true /\
    List.length (columns (d_perf_table d)) = 8 /\
    List.length (columns (d_fin_table d)) = 5.
Proof.
  intros argsort fr df department d H.
  destruct (render_ok _ _ _ _ _ H) as (dept & sorted & _ & Hb & _ & Hp & _ & _ & Hf).
  apply perf_table_ok in Hp.
  destruct Hp as (? & ? & ? & ? & ? & ? & ? & ? & _ & _ & _ & _ & _ & _ & _ & _ & Ep).
  apply fin_table_ok in Hf. destruct Hf as (? & ? & ? & ? & ? & _ & _ & _ & _ & _ & Ef).
  apply breakdown_loop_tables in Hb.
  split; [|rewrite Ep, Ef; split; reflexivity].
  unfold report, elements, staff_breakdown_section.
  rewrite !forallb_app. cbn [forallb flat_map app].
  unfold operations_flowables. rewrite !forallb_app. cbn [forallb fst snd].
  rewrite !table_rectangular, !table_fits by (rewrite ?Ep, ?Ef; reflexivity).
  cbn [widths_fit andb]. rewrite andb_true_r.
  induction Hb as [|e es He _ IH]; [reflexivity|].
  cbn [map flat_map]. rewrite forallb_app, IH, andb_true_r.
  now apply breakdown_flowables_fit.
Qed.

Lemma report_tables_well_shaped_witness :
  exists d,
    render Numpy.argsort (fun _ => "0.0") (clean_columns sample_upload) (CStr "Surgery") = Ok d /\
    forallb widths_fit (report (fun _ => "0.0") (CStr "Surgery") d) = true /\
    List.length (filter is_table (report (fun _ => "0.0") (CStr "Surgery") d)) = 6.
Proof.
  destruct (render Numpy.argsort (fun _ => "0.0") (clean_columns sample_upload)
                   (CStr "Surgery")) as [d|e] eqn:E; [|vm_compute in E; discriminate E].
  exists d. split; [reflexivity|].
  destruct (report_tables_well_shaped Numpy.argsort (fun _ => "0.0")
              (clean_columns sample_upload) (CStr "Surgery") d E) as (F & _).
  split; [exact F|].
  vm_compute in E. injection E as <-. reflexivity.
Defined.

(** X19: the layout of the report.  Whatever the tables hold, the report
    opens with its title, has exactly three page breaks, carries one table
    for each entry of the staff breakdown and four more, and holds three
    flowables for each entry and seventeen more. *)
Theorem report_layout :
  forall (float_repr : Q -> string) (department : cell)
         (tables : list (string * DataFrame)) (perf op_source op_value fin : DataFrame),
    hd_error (elements float_repr department tables perf op_source op_value fin)
    = Some (Paragraph (String.append "Surgical Department Report - "
                                     (str float_repr department)) TitleStyle) /\
    List.length (filter is_page_break
                   (elements float_repr department tables perf op_source op_value fin)) = 3 /\
    List.length (filter is_table
                   (elements float_repr department tables perf op_source op_value fin))
    = List.length tables + 4 /\
    List.length (elements float_repr department tables perf op_source op_value fin)
    = 3 * List.length tables + 17.
Proof.
  intros fr department tables perf op_source op_value fin.
  destruct (flat_map_breakdown_layout tables) as (B1 & B2 & B3).
  unfold elements, staff_breakdown_section.
  split; [reflexivity|].
  change (Paragraph "Staff Breakdown by Degree" HeaderStyle
          :: flat_map breakdown_flowables tables)
    with ([Paragraph "Staff Breakdown by Degree" HeaderStyle]
          ++ flat_map breakdown_flowables tables).
  rewrite !filter_app, !length_app, B1, B2, B3.
  unfold operations_flowables. simpl. repeat split; lia.
Qed.

(* ------------------------------------------------------------------ *)
(** ** A slice without rows *)





(* ------------------------------------------------------------------ *)
(** ** The classifier, said on the text *)

(** X21: the classifier on the text itself.  A value is classified
    Consultant exactly when "consult" occurs in its lower-cased text,
    Specialist exactly when "special" occurs and "consult" does not,
    Resident exactly when "resident" occurs and neither of the two, and
    Other exactly when none of the three occurs; hence text put before or
    after a Consultant's title leaves a Consultant. *)
Theorem classify_degree_by_occurrence :
  forall (float_repr : Q -> string) (x : cell),
    (classify_degree float_repr x = "Consultant" <->
     occurs "consult" (Text.lower (str float_repr x))) /\
    (classify_degree float_repr x = "Specialist" <->
     ~ occurs "consult" (Text.lower (str float_repr x)) /\
     occurs "special" (Text.lower (str float_repr x))) /\
    (classify_degree float_repr x = "Resident" <->
     ~ occurs "consult" (Text.lower (str float_repr x)) /\
     ~ occurs "special" (Text.lower (str float_repr x)) /\
     occurs "resident" (Text.lower (str float_repr x))) /\
    (classify_degree float_repr x = "Other" <->
     ~ occurs "consult" (Text.lower (str float_repr x)) /\
     ~ occurs "special" (Text.lower (str float_repr x)) /\
     ~ occurs "resident" (Text.lower (str float_repr x))) /\
    (forall s a b,
       classify_degree float_repr (CStr s) = "Consultant" ->
       classify_degree float_repr (CStr (String.append a (String.append s b)))
       = "Consultant").
Proof.
  intros fr x.
  assert (C : forall y,
             classify_degree fr y = "Consultant" <->
             occurs "consult" (Text.lower (str fr y))).
  { intros y. rewrite <- contains_occurs. unfold classify_degree.
    destruct (Text.contains "consult" (Text.lower (str fr y))); [tauto|].
    destruct (Text.contains "special" (Text.lower (str fr y)));
      [split; discriminate|].
    destruct (Text.contains "resident" (Text.lower (str fr y))); split; discriminate. }
  split; [apply C|].
  rewrite <- !contains_occurs. unfold classify_degree.
  destruct (Text.contains "consult" (Text.lower (str fr x))) eqn:E1;
    destruct (Text.contains "special" (Text.lower (str fr x))) eqn:E2;
    destruct (Text.contains "resident" (Text.lower (str fr x))) eqn:E3;
    (split; [|split; [|split]]);
    try (split; [discriminate|intros H; decompose [and] H; congruence]);
    try (split; [intros _; repeat split; congruence|reflexivity]).
  all: intros s a b H; apply C; apply C in H; cbn [str] in *;
    rewrite !lower_append; now apply occurs_inside.
Qed.

Lemma classify_degree_by_occurrence_witness :
  classify_degree (fun _ => "0.0") (CStr "Senior CONSULTANT (special care)") = "Consultant" /\
  classify_degree (fun _ => "0.0") (CStr "Registrar") = "Other".
Proof.
  destruct (classify_degree_by_occurrence (fun _ => "0.0")
              (CStr "Senior CONSULTANT (special care)")) as (C & _).
  destruct (classify_degree_by_occurrence (fun _ => "0.0") (CStr "Registrar"))
    as (_ & _ & _ & O & _).
  split.
  - apply C. exists "senior ", "ant (special care)". reflexivity.
  - apply O. rewrite <- !contains_occurs. repeat split; discriminate.
Defined.

(* ------------------------------------------------------------------ *)
(** ** Where a run without a column dies *)

Section MissingColumns.

Variable argsort : list nat -> list nat.
Variable float_repr : Q -> string.

Lemma empty_iff_no_members dept g degree :
  wf dept ->
  find_column "Degree Group" dept = Some g ->
  empty (filter_rows (map (fun c => cell_eqb c (CStr degree)) g) dept)
  = match members degree dept with [] => true | _ => false end.
Proof.
  intros W Eg. unfold empty, members. rewrite Eg.
  assert (C : (List.length (cols (filter_rows (map (fun c => cell_eqb c (CStr degree)) g) dept))
               =? 0) = false).
  { unfold filter_rows. cbn [cols]. rewrite length_map.
    unfold find_column in Eg. destruct (cols dept); [discriminate|reflexivity]. }
  rewrite C, orb_false_r. unfold len, filter_rows. cbn [index].
  rewrite (mask_filter_positions (fun c => cell_eqb c (CStr degree)) 0 g (index dept))
    by (symmetry; now apply wf_column with (c := "Degree Group")).
  rewrite length_map.
  now destruct (filter (fun i => cell_eqb (nth i g CNaN) (CStr degree))
                       (seq 0 (List.length g))).
Qed.

Lemma select_columns_missing cs df :
  filter (fun c => negb (has_column c df)) cs <> [] ->
  select_columns cs df = Raise (KeyError (filter (fun c => negb (has_column c df)) cs)).
Proof.
  unfold select_columns.
  destruct (filter (fun c => negb (has_column c df)) cs); [intros H; now elim H|reflexivity].
Qed.

Lemma breakdown_of_without_names dept degree :
  wf dept ->
  has_column "Degree Group" dept = true ->
  has_column "staff name" dept = false ->
  breakdown_of dept degree
  = match members degree dept with
    | [] => Ok None
    | _ => Raise (KeyError ["staff name"])
    end.
Proof.
  intros W Hg Hn. apply has_column_find in Hg. destruct Hg as [g Eg].
  unfold breakdown_of, rows_of_degree, get_column. rewrite Eg. cbn [bind].
  rewrite (empty_iff_no_members dept g degree W Eg).
  destruct (members degree dept); [reflexivity|].
  set (deg_df := filter_rows _ dept).
  assert (Hn' : has_column "staff name" deg_df = false)
    by (unfold deg_df; now rewrite has_column_filter_rows).
  destruct (find_column "Contract type" deg_df) as [ct|] eqn:Ec.
  - rewrite select_columns_missing; cbn [filter]; rewrite Hn'; cbn [negb];
      unfold has_column; rewrite Ec; cbn [negb]; [reflexivity|discriminate].
  - rewrite select_columns_missing; cbn [filter]; rewrite Hn'; cbn [negb];
      [reflexivity|discriminate].
Qed.

Lemma breakdown_loop_without_names dept degrees :
  wf dept ->
  has_column "Degree Group" dept = true ->
  has_column "staff name" dept = false ->
  breakdown_loop dept degrees
  = if existsb (has_members dept) degrees then Raise (KeyError ["staff name"]) else Ok [].
Proof.
  intros W Hg Hn. induction degrees as [|degree rest IH]; [reflexivity|].
  cbn [breakdown_loop existsb].
  rewrite (breakdown_of_without_names dept degree W Hg Hn). unfold has_members at 1.
  destruct (members degree dept); cbn [bind orb]; [|reflexivity].
  rewrite IH. now destruct (existsb (has_members dept) rest).
Qed.



End MissingColumns.

(** X22: without a "staff name" column the staff breakdown raises KeyError
    naming the column as soon as one of Consultant, Specialist and Resident
    has a member, and shows nothing when none has. *)
Theorem staff_breakdown_needs_names :
  forall dept : DataFrame,
    wf dept ->
    has_column "Degree Group" dept = true ->
    has_column "staff name" dept = false ->
    (existsb (has_members dept) ["Consultant"; "Specialist"; "Resident"] = true ->
     staff_breakdown dept = Raise (KeyError ["staff name"])) /\
    (existsb (has_members dept) ["Consultant"; "Specialist"; "Resident"] = false ->
     staff_breakdown dept = Ok []).
Proof.
  intros dept W Hg Hn. unfold staff_breakdown.
  rewrite (breakdown_loop_without_names dept _ W Hg Hn).
  split; intros ->; reflexivity.
Qed.

Lemma staff_breakdown_needs_names_witness :
  exists dept,
    dept_df (fun _ => "0.0") upload_without_names (CStr "Surgery") = Ok dept /\
    staff_breakdown dept = Raise (KeyError ["staff name"]).
Proof.
  eexists. split; [reflexivity|].
  apply staff_breakdown_needs_names.
  - vm_compute. repeat constructor.
  - reflexivity.
  - reflexivity.
  - reflexivity.
Defined.



(* ------------------------------------------------------------------ *)
(** ** When the slice step raises *)


